(** * LaundryPro order intake: phone normaliser, message formatter,
      messaging gateway and intake handlers.

    A shallow embedding of the TypeScript sources of the repository
    (the [whatsapp] module with its two gateways, the serverless
    [handler] and the Express [handlePickupOrder]) together with the
    properties that the design document states about them.

    Conventions of the embedding:
    - a JavaScript string is the list of its UTF-16 code units, so that
      [length], [substring], [\s] and [trim] mean what they mean in the
      source;
    - everything the program reads from outside (environment variables,
      the clock, the random token, the date library, the two providers)
      is a field of the record [World]; the provider calls that were
      issued and the lines written to the console are kept in [Store];
    - a function that may throw returns a [Completion]; [try]/[catch]
      is the combinator [try_catch]. *)

From Stdlib Require Import Ascii String DecimalString.
From Stdlib Require Import List NArith ZArith QArith Bool Lia.
Import ListNotations.
Close Scope Q_scope.

Set Implicit Arguments.

(* ================================================================== *)
(** ** JavaScript strings *)

Module Js.

Definition jsstr := list N.

(** String literals of the source whose characters are ASCII. *)
Definition lit (s : string) : jsstr :=
  map N_of_ascii (list_ascii_of_string s).

Definition str_eqb (a b : jsstr) : bool :=
  if list_eq_dec N.eq_dec a b then true else false.

(** Truthiness of a string: every string but the empty one. *)
Definition truthy (s : jsstr) : bool :=
  match s with [] => false | _ :: _ => true end.

(** [\s] of a regular expression, which is also what [trim] removes:
    WhiteSpace and LineTerminator of ECMAScript. *)
Definition isWhiteSpace (c : N) : bool :=
  ((9 <=? c) && (c <=? 13) || (c =? 32) || (c =? 160) || (c =? 5760)
   || (8192 <=? c) && (c <=? 8202) || (c =? 8232) || (c =? 8233)
   || (c =? 8239) || (c =? 8287) || (c =? 12288) || (c =? 65279))%N.

(** [\d]: the ten ASCII digits. *)
Definition isDigit (c : N) : bool := ((48 <=? c) && (c <=? 57))%N.

Fixpoint dropWhile (p : N -> bool) (s : jsstr) : jsstr :=
  match s with
  | [] => []
  | c :: s' => if p c then dropWhile p s' else s
  end.

Definition trimStart (s : jsstr) : jsstr := dropWhile isWhiteSpace s.
Definition trimEnd (s : jsstr) : jsstr := rev (dropWhile isWhiteSpace (rev s)).
Definition trim (s : jsstr) : jsstr := trimEnd (trimStart s).

(** [s.replace(/[...]/g, empty)] for a character class [cls]. *)
Definition removeAll (cls : N -> bool) (s : jsstr) : jsstr :=
  filter (fun c => negb (cls c)) s.

Fixpoint startsWith (p s : jsstr) : bool :=
  match p, s with
  | [], _ => true
  | _ :: _, [] => false
  | a :: p', b :: s' => (a =? b)%N && startsWith p' s'
  end.

(** [s.replace(/^p/, empty)] for a literal [p]. *)
Definition stripPrefix (p s : jsstr) : jsstr :=
  if startsWith p s then skipn (length p) s else s.

(** [hay.includes(needle)]. *)
Fixpoint includes (hay needle : jsstr) : bool :=
  startsWith needle hay
  || match hay with
     | [] => false
     | _ :: hay' => includes hay' needle
     end.

(** [s.substring(a, b)] for [a <= b]; [s.substring(a)] is [skipn a s]. *)
Definition substring (a b : nat) (s : jsstr) : jsstr :=
  firstn (b - a) (skipn a s).

Fixpoint join (sep : jsstr) (l : list jsstr) : jsstr :=
  match l with
  | [] => []
  | [x] => x
  | x :: l' => x ++ sep ++ join sep l'
  end.

(** [/^\d{lo,hi}$/.test(s)]. *)
Definition testDigits (lo hi : nat) (s : jsstr) : bool :=
  forallb isDigit s && (lo <=? length s)%nat && (length s <=? hi)%nat.

(** *** Numbers

    The numbers of the program are doubles.  An integer [z] of this
    development stands for the double nearest to it, and an integer from
    [infinity] on, in absolute value, for [Infinity]: the functions that
    make a number out of text or print one round as JavaScript does. *)

(** The double nearest to a natural number, ties to the even mantissa
    of 53 bits. *)
Definition roundToDouble (a : Z) : Z :=
  (let bits := Z.log2 a + 1 in
   if bits <=? 53 then a else
   let shift := bits - 53 in
   let q := Z.shiftr a shift in
   let r := a - Z.shiftl q shift in
   let half := Z.shiftl 1 (shift - 1) in
   let q := if (half <? r) || ((r =? half) && Z.odd q) then q + 1 else q in
   Z.shiftl q shift)%Z.

Definition infinity : Z := (2 ^ 1024)%Z.

(** The number an integer stands for. *)
Definition toNumber (z : Z) : Z :=
  (let d := roundToDouble (Z.abs z) in
   let d := if infinity <=? d then infinity else d in
   if z <? 0 then - d else d)%Z.

(** [Number.isInteger] on a number that stands for an integer: it is
    not [Infinity]. *)
Definition isFiniteNumber (z : Z) : bool :=
  (Z.abs (toNumber z) <? infinity)%Z.

(** The decimal digits of an integer. *)
Definition decimal (z : Z) : jsstr :=
  lit (NilZero.string_of_int (Z.to_int z)).

(** Whether the decimal number [v] rounds to the double [d], of more
    than 53 bits: it lies between the midpoints to the neighbours of
    [d], which belong to [d] when its mantissa is even. *)
Definition roundsTo (d v : Z) : bool :=
  (let shift := Z.log2 d + 1 - 53 in
   let mantissa := Z.shiftr d shift in
   let above := Z.shiftl 1 shift in
   let below :=
     if mantissa =? 2 ^ 52 then Z.shiftl 1 (shift - 1) else above in
   if Z.even mantissa
   then (2 * d - below <=? 2 * v) && (2 * v <=? 2 * d + above)
   else (2 * d - below <? 2 * v) && (2 * v <? 2 * d + above))%Z.

(** The shortest digits [s] that round to [d], which has [n] decimal
    digits: the search goes through the lengths [k], [k + 1], ... and
    looks at the two numbers of that length around [d]; of two that
    round to [d], the nearer one is taken, and the even one of two as
    near.  Digits that have grown by one place are a one. *)
Fixpoint shortestDigits (fuel : nat) (d n k : Z) : Z * Z :=
  match fuel with
  | O => (d, n)
  | S fuel' =>
    (let scale := 10 ^ (n - k) in
     let low := d / scale in
     let v1 := low * scale in
     let v2 := v1 + scale in
     let pick (s : Z) := if s =? 10 ^ k then (1, n + 1) else (s, n) in
     match roundsTo d v1, roundsTo d v2 with
     | true, true =>
       if (d - v1 <? v2 - d) || ((d - v1 =? v2 - d) && Z.even low)
       then pick low else pick (low + 1)
     | true, false => pick low
     | false, true => pick (low + 1)
     | false, false => shortestDigits fuel' d n (k + 1)
     end)%Z
  end.

(** [Number::toString] on a double of more than 53 bits: the shortest
    digits, filled with zeros up to 21 digits, and in the exponent form
    beyond. *)
Definition bigToString (d : Z) : jsstr :=
  let n := Z.of_nat (length (decimal d)) in
  let '(s, n) := shortestDigits 17 d n 1 in
  let digits := decimal s in
  if (n <=? 21)%Z then
    digits ++ repeat 48%N (Z.to_nat n - length digits)
  else
    match digits with
    | [] => []
    | [first] => first :: lit "e+" ++ decimal (n - 1)
    | first :: rest => first :: lit "." ++ rest ++ lit "e+" ++ decimal (n - 1)
    end.

(** Conversion of a number that stands for an integer to a string, as a
    template literal does it. *)
Definition numberToString (z : Z) : jsstr :=
  let d := Z.abs (toNumber z) in
  if (d <? 2 ^ 53)%Z then decimal z
  else
    (if (z <? 0)%Z then lit "-" else [])
    ++ (if (infinity <=? d)%Z then lit "Infinity" else bigToString d).

Definition toUpperCaseChar (c : N) : N :=
  (if (97 <=? c) && (c <=? 122) then c - 32 else c)%N.

(** [toUpperCase] as it is on ASCII text: a small letter becomes its
    capital.  A code unit outside ASCII is left as it is, which is not
    what the engine does with the letters of other alphabets; what is
    proved of an upper-cased text is proved of ASCII text, or does not
    depend on the letters. *)
Definition toUpperCase (s : jsstr) : jsstr := map toUpperCaseChar s.

End Js.

Import Js.

Declare Scope js_scope.
Delimit Scope js_scope with js.
Notation "` s" := (lit s%string) (at level 1, s at level 0, format "` s") : js_scope.
Open Scope js_scope.
Open Scope list_scope.

(* ================================================================== *)
(** ** JavaScript values of a request body *)

Module Json.

(** A number is the rational value of the double that [JSON.parse]
    gives.  A fraction is that double itself; an integer stands for the
    nearest double as [Js.toNumber] says, and for [Infinity] from
    2^1024 on. *)
#[local] Unset Elimination Schemes.
Inductive value : Type :=
| Undefined
| Null
| Bool (b : bool)
| Num (q : Q)
| Str (s : jsstr)
| Arr (elements : list value)
| Obj (members : list (jsstr * value)).
#[local] Set Elimination Schemes.

(** [!v] *)
Definition falsy (v : value) : bool :=
  match v with
  | Undefined | Null => true
  | Bool b => negb b
  | Num q => Qeq_bool q 0
  | Str s => negb (truthy s)
  | Arr _ | Obj _ => false
  end.

Fixpoint find (k : jsstr) (members : list (jsstr * value)) : option value :=
  match members with
  | [] => None
  | (k', v) :: rest => if str_eqb k k' then Some v else find k rest
  end.

(** [v[k]] on an object; [undefined] when the member is absent. *)
Definition get (k : jsstr) (v : value) : value :=
  match v with
  | Obj members =>
    match find k members with Some x => x | None => Undefined end
  | _ => Undefined
  end.

(** [Number.isInteger(q)]: an integer that is not [Infinity]. *)
Definition isInteger (q : Q) : bool :=
  (Qnum q mod Zpos (Qden q) =? 0)%Z
  && isFiniteNumber (Qnum q / Zpos (Qden q)).

(** The integer a number is, when [isInteger] holds. *)
Definition toZ (q : Q) : Z := (Qnum q / Zpos (Qden q))%Z.

(** The name zod gives to the type of a value. *)
Definition parsedType (v : value) : jsstr :=
  match v with
  | Undefined => `"undefined"
  | Null => `"null"
  | Bool _ => `"boolean"
  | Num _ => `"number"
  | Str _ => `"string"
  | Arr _ => `"array"
  | Obj _ => `"object"
  end.

End Json.

(* ================================================================== *)
(** ** Phone normaliser ([normalizePhoneNumber], hardened module) *)

Module Phone.

(** The class [[\s\-()]]. *)
Definition isSeparator (c : N) : bool :=
  (isWhiteSpace c || (c =? 45) || (c =? 40) || (c =? 41))%N.

Definition defaultCountryCode : jsstr := `"250".

(** [phone] is [None] for [undefined] and [null]. *)
Definition normalizePhoneNumber
    (phone : option jsstr) (defaultCountryCode : jsstr) : option jsstr :=
  match phone with
  | None => None
  | Some phone =>
    if negb (truthy phone) then None else
    let cleaned := trim (removeAll isSeparator phone) in
    let cleaned :=
      if startsWith `"+" cleaned then skipn 1 cleaned else cleaned in
    if negb (testDigits 9 15 cleaned) then None else
    let cleaned :=
      if startsWith `"0" cleaned && (length cleaned =? 10)%nat
      then defaultCountryCode ++ skipn 1 cleaned else cleaned in
    let cleaned :=
      if (length cleaned =? 9)%nat && testDigits 9 9 cleaned
      then defaultCountryCode ++ cleaned else cleaned in
    if negb (testDigits 10 15 cleaned) then None else Some cleaned
  end.

Definition isValidPhoneNumber (phone : jsstr) : bool :=
  match normalizePhoneNumber (Some phone) defaultCountryCode with
  | Some normalized => testDigits 10 15 normalized
  | None => false
  end.

End Phone.

(* ================================================================== *)
(** ** Effects: exceptions, the provider trace and the console *)

Module Effects.

(** A thrown value: an [Error] object with its [message], a string as
    the type [Error] declares it; an [Error] object whose [message] is
    not a string but [undefined], which the catch clauses, typed [any]
    or [unknown], let through; or a value that is not an [Error]. *)
Inductive Thrown : Type :=
| ErrorObj (message : jsstr)
| BareError
| NonError.

Inductive Completion (A : Type) : Type :=
| Normal (a : A)
| Abrupt (e : Thrown).
Arguments Abrupt {A} e.

(** A request handed to one of the two providers. *)
Inductive ProviderCall : Type :=
| TwilioCreate (from to body : jsstr)
| GraphPost (url authorization to body : jsstr).

Inductive LogLevel : Type := LogError | LogWarn.

(** A line of [console.error] / [console.warn]: the label, the order
    id and the error text of the logged object. *)
Record LogLine : Type := {
  log_level : LogLevel;
  log_label : jsstr;
  log_orderId : option jsstr;
  log_error : option jsstr
}.

Record Store : Type := {
  calls : list ProviderCall;
  console : list LogLine
}.

Definition emptyStore : Store := {| calls := []; console := [] |}.

Definition M (A : Type) : Type := Store -> Completion A * Store.

Definition ret {A} (a : A) : M A := fun st => (Normal a, st).

Definition throw {A} (e : Thrown) : M A := fun st => (Abrupt e, st).

Definition bind {A B} (m : M A) (k : A -> M B) : M B :=
  fun st =>
    match m st with
    | (Normal a, st') => k a st'
    | (Abrupt e, st') => (Abrupt e, st')
    end.

(** [try { m } catch (e) { h e }]. *)
Definition try_catch {A} (m : M A) (h : Thrown -> M A) : M A :=
  fun st =>
    match m st with
    | (Normal a, st') => (Normal a, st')
    | (Abrupt e, st') => h e st'
    end.

Definition log (l : LogLine) : M unit :=
  fun st => (Normal tt, {| calls := calls st; console := console st ++ [l] |}).

Definition record_call (c : ProviderCall) : M unit :=
  fun st => (Normal tt, {| calls := calls st ++ [c]; console := console st |}).

(** The number of provider calls issued so far. *)
Definition call_count : M nat :=
  fun st => (Normal (length (calls st)), st).

End Effects.

Import Effects.

Notation "x <- c ;; k" := (bind c (fun x => k))
  (at level 61, c at next level, right associativity) : js_scope.
Notation "c ;;; k" := (bind c (fun _ => k))
  (at level 61, right associativity) : js_scope.

(* ================================================================== *)
(** ** The outside world *)

Module Outside.

Inductive DateStyle : Type :=
| ShortStyle   (* weekday: "short", month: "short", ... *)
| LongStyle.   (* weekday: "long", month: "long", ... *)

(** The object a resolved [client.messages.create] yields. *)
Record TwilioMessage : Type := { sid : option jsstr }.

Inductive TwilioOutcome : Type :=
| Resolved (response : option TwilioMessage)
| Rejected (e : Thrown)
| Pending.    (* not settled when the 30 second timer fires *)

(** The [error] member of a Graph API body, at the shape the gateway
    reads it; [err_json] is its [JSON.stringify]. *)
Record GraphError : Type := {
  err_message : option jsstr;
  err_code : option Z;
  err_json : jsstr
}.

(** The body of a Graph API response: [data.error] when it is truthy
    and [data.messages?.[0]?.id]. *)
Record GraphData : Type := {
  data_error : option GraphError;
  data_message_id : option jsstr
}.

(** [response.json()]: it rejects (a body that is not JSON), or it
    yields the data.  A body on which one of the gateway's property
    reads throws is a rejection as well: the read directly follows
    the [await], inside the same [try]. *)
Inductive JsonOutcome : Type :=
| JsonRejected (e : Thrown)
| JsonData (d : GraphData).

Record HttpResponse : Type := {
  ok : bool;
  status : Z;
  statusText : jsstr;
  json : JsonOutcome
}.

Inductive FetchOutcome : Type :=
| FetchRejected (e : Thrown)
| FetchResolved (r : HttpResponse).

Record World : Type := {
  (** [process.env], in the order [Object.keys] lists it *)
  env : list (jsstr * jsstr);
  (** [new Date(s).getTime()], [None] for [NaN] *)
  Date_parse : jsstr -> option Z;
  (** [date.toLocaleString("en-US", options)] *)
  Date_toLocaleString : DateStyle -> Z -> Completion jsstr;
  (** [new Date().toLocaleString()] *)
  new_Date_toLocaleString : jsstr;
  (** [Date.now().toString(36)] *)
  Date_now_toString36 : jsstr;
  (** [Math.random().toString(36)] *)
  Math_random_toString36 : jsstr;
  (** [twilio(accountSid, authToken)]: what it throws, if it throws *)
  twilio : jsstr -> jsstr -> option Thrown;
  (** [client.messages.create], by the number of earlier provider calls *)
  messages_create : nat -> ProviderCall -> TwilioOutcome;
  (** [fetch], by the number of earlier provider calls *)
  fetch : nat -> ProviderCall -> FetchOutcome;
  (** [JSON.parse], [None] when it throws a [SyntaxError] *)
  JSON_parse : jsstr -> option Json.value;
  (** the message of the [TypeError] that the engine throws when a
      method is called on [undefined] *)
  TypeError_message : jsstr
}.

Fixpoint lookup (k : jsstr) (l : list (jsstr * jsstr)) : option jsstr :=
  match l with
  | [] => None
  | (k', v) :: l' => if str_eqb k k' then Some v else lookup k l'
  end.

(** [process.env.NAME] *)
Definition getenv (w : World) (name : jsstr) : option jsstr :=
  lookup name (env w).

(** Truthiness of a value that is a string or [undefined]. *)
Definition present (v : option jsstr) : bool :=
  match v with Some s => truthy s | None => false end.

(** [v || d] for such a value. *)
Definition orElse (v : option jsstr) (d : jsstr) : jsstr :=
  match v with Some ((_ :: _) as s) => s | _ => d end.

End Outside.

Import Outside.

(* ================================================================== *)
(** ** Shared types ([shared/api]) *)

Record OrderItem : Type := {
  name : jsstr;
  quantity : Z
}.

Record PickupOrderRequest : Type := {
  customerName : jsstr;
  pickupAddress : jsstr;
  pickupDateTime : option jsstr;
  items : list OrderItem;
  customerNotes : option jsstr;
  customerPhone : option jsstr
}.

Record WhatsAppResponse : Type := {
  success : bool;
  messageId : option jsstr;
  error : option jsstr
}.

Record OrderSubmissionResponse : Type := {
  os_success : bool;
  os_orderId : option jsstr;
  os_messageId : option jsstr;
  os_message : option jsstr;
  os_error : option jsstr
}.

(** [{ success: false, error }] *)
Definition failure (e : jsstr) : WhatsAppResponse :=
  {| success := false; messageId := None; error := Some e |}.

(* ================================================================== *)
(** ** Message formatter *)

Module Formatter.

(** Characters of the templates outside ASCII, as code units. *)
Definition bullet : jsstr := [8226%N].
Definition basket : jsstr := [55358%N; 56826%N].
Definition clipboard : jsstr := [55357%N; 56523%N].
Definition pin : jsstr := [55357%N; 56525%N].
Definition alarm : jsstr := [9200%N].
Definition package : jsstr := [55357%N; 56550%N].
Definition memo : jsstr := [55357%N; 56541%N].
Definition check_mark : jsstr := [9989%N].
Definition wave : jsstr := [55357%N; 56395%N].
Definition calendar : jsstr := [55357%N; 56517%N].
Definition folded_hands : jsstr := [55357%N; 56911%N].
Definition nl : jsstr := [10%N].

(** The immediately invoked function of both formatters: the
    placeholder for a falsy input, the raw string when the date does
    not parse or the rendering throws, the rendering otherwise. *)
Definition pickupTimeFormatted
    (w : World) (style : DateStyle) (placeholder : jsstr)
    (pickupDateTime : option jsstr) : jsstr :=
  match pickupDateTime with
  | None => placeholder
  | Some [] => placeholder
  | Some s =>
    match Date_parse w s with
    | None => s
    | Some date =>
      match Date_toLocaleString w style date with
      | Normal r => r
      | Abrupt _ => s
      end
    end
  end.

Definition itemLine (item : OrderItem) : jsstr :=
  `"  " ++ bullet ++ `" " ++ numberToString (quantity item) ++ `"x "
    ++ name item.

Definition itemsList (order : PickupOrderRequest) : jsstr :=
  join nl (map itemLine (items order)).

Definition notesBlock (order : PickupOrderRequest) : jsstr :=
  match customerNotes order with
  | Some notes =>
    if truthy notes && truthy (trim notes)
    then nl ++ memo ++ `" *Notes:*" ++ nl ++ trim notes ++ nl
    else []
  | None => []
  end.

Definition formatPickupOrderMessage
    (w : World) (order : PickupOrderRequest) : jsstr :=
  let message := basket ++ `" *NEW PICKUP ORDER*" ++ nl ++ nl in
  let message :=
    message ++ (clipboard ++ `" *Customer:* " ++ customerName order ++ nl) in
  let message :=
    message ++ (pin ++ `" *Address:* " ++ pickupAddress order ++ nl) in
  let message :=
    message ++ (alarm ++ `" *Preferred Pickup:* "
                 ++ pickupTimeFormatted w ShortStyle `"Not specified"
                      (pickupDateTime order)
                 ++ nl ++ nl) in
  let message :=
    message ++ (package ++ `" *Items:*" ++ nl ++ itemsList order ++ nl) in
  let message := message ++ notesBlock order in
  message ++ (nl ++ `"_Order received at " ++ new_Date_toLocaleString w
                ++ `"_").

Definition formatCustomerConfirmationMessage
    (w : World) (customerName pickupDateTime : jsstr) : jsstr :=
  let message := check_mark ++ `" *Order Confirmed*" ++ nl ++ nl in
  let message := message ++ (`"Hi " ++ customerName ++ `"! " ++ wave ++ nl ++ nl) in
  let message :=
    message ++ (`"Thank you for choosing LaundryPro! Your pickup order has been received."
                 ++ nl ++ nl) in
  let message :=
    message ++ (calendar ++ `" *Scheduled Pickup:* "
                 ++ pickupTimeFormatted w LongStyle `"your preferred time"
                      (Some pickupDateTime)
                 ++ nl ++ nl) in
  let message :=
    message ++ (`"We'll send you a reminder before pickup. If you need to make any changes, please contact us."
                 ++ nl ++ nl) in
  message ++ (`"Thank you! " ++ folded_hands).

End Formatter.

(* ================================================================== *)
(** ** Messaging gateway (hardened [whatsapp] module) *)

Module Gateway.

Import Phone Formatter.

Definition quote : jsstr := [34%N].
Definition arrow : jsstr := [8594%N].

(** The limit of WhatsApp on the length of a message: 4096. *)
Definition messageLimit : nat := Z.to_nat 4096.

(* ---------------------------------------------------------------- *)
(** *** The webhook path *)

Record WhatsAppConfig : Type := {
  accessToken : jsstr;
  phoneNumberId : jsstr;
  apiVersion : jsstr;
  baseUrl : jsstr
}.

Definition getWhatsAppConfig (w : World) : M WhatsAppConfig :=
  let accessToken := getenv w `"WHATSAPP_ACCESS_TOKEN" in
  let phoneNumberId := getenv w `"WHATSAPP_PHONE_NUMBER_ID" in
  let apiVersion := orElse (getenv w `"WHATSAPP_API_VERSION") `"v18.0" in
  if negb (present accessToken) then
    throw (ErrorObj `"WHATSAPP_ACCESS_TOKEN environment variable is required")
  else if negb (present phoneNumberId) then
    throw (ErrorObj `"WHATSAPP_PHONE_NUMBER_ID environment variable is required")
  else
    ret {| accessToken := orElse accessToken [];
           phoneNumberId := orElse phoneNumberId [];
           apiVersion := apiVersion;
           baseUrl := `"https://graph.facebook.com/" ++ apiVersion ++ `"/"
                        ++ orElse phoneNumberId [] ++ `"/messages" |}.

(** [await fetch(config.baseUrl, { ... to, text: { body } })] *)
Definition post (w : World) (config : WhatsAppConfig) (to body : jsstr)
  : M HttpResponse :=
  let request :=
    GraphPost (baseUrl config) (`"Bearer " ++ accessToken config) to body in
  n <- call_count ;;
  record_call request ;;;
  match fetch w n request with
  | FetchRejected e => throw e
  | FetchResolved r => ret r
  end.

(** [await response.json()] *)
Definition response_json (r : HttpResponse) : M GraphData :=
  match json r with
  | JsonRejected e => throw e
  | JsonData d => ret d
  end.

(** [message.includes("not in allowed list") || code === 131031] *)
Definition notInAllowedList (message : option jsstr) (code : option Z) : bool :=
  match message with
  | Some m => includes m `"not in allowed list"
  | None => false
  end
  || match code with
     | Some c => (c =? 131031)%Z
     | None => false
     end.

Definition allowedListHelp (phoneNumber : jsstr) (errorDetails : option GraphError)
  : jsstr :=
  `"Recipient number not in allowed list." ++ nl ++ nl
  ++ `"Number being sent to API: " ++ phoneNumber ++ nl
  ++ `"Number with + prefix: +" ++ phoneNumber ++ nl ++ nl
  ++ `"IMPORTANT: Make sure this number is in your Meta allowed recipient list."
  ++ nl ++ nl
  ++ `"In Meta Business Suite:" ++ nl
  ++ `"1. Go to WhatsApp " ++ arrow ++ `" API Setup " ++ arrow ++ `" "
       ++ quote ++ `"To" ++ quote ++ `" field settings" ++ nl
  ++ `"2. Add the number: " ++ phoneNumber
       ++ `" (digits only, without + prefix)" ++ nl
  ++ `"3. Meta UI may show it as +" ++ phoneNumber ++ `", but add it as "
       ++ phoneNumber ++ nl
  ++ `"4. Wait a few minutes after adding before trying again" ++ nl ++ nl
  ++ `"Note: If your .env has a local format (e.g., 0792875310), it's automatically converted to "
       ++ phoneNumber ++ nl ++ nl
  ++ `"Full API error: "
  ++ match errorDetails with
     | Some e => err_json e
     | None => `"undefined"
     end.

Definition sendWhatsAppMessage (w : World) (to message : jsstr)
  : M WhatsAppResponse :=
  try_catch
    (config <- getWhatsAppConfig w ;;
     let phoneNumber :=
       trim (removeAll (fun c => isSeparator c || (c =? 43)%N) to) in
     if negb (testDigits 10 15 phoneNumber) then
       ret (failure
              (`"Invalid phone number format: " ++ to ++ `" (cleaned to: "
               ++ phoneNumber
               ++ `"). Expected 10-15 digits in international format (e.g., 250792875310 for Rwanda)."))
     else
       response <- post w config phoneNumber message ;;
       data <- response_json response ;;
       attempt <-
         (if negb (ok response)
             && match data_error data with
                | Some e => notInAllowedList (err_message e) (err_code e)
                | None => false
                end
          then
            response <- post w config (`"+" ++ phoneNumber) message ;;
            data <- response_json response ;;
            ret (response, data)
          else ret (response, data)) ;;
       let '(response, data) := attempt in
       if negb (ok response) then
         let errorMessage :=
           orElse (match data_error data with
                   | Some e => err_message e
                   | None => None
                   end)
                  (`"HTTP " ++ numberToString (status response) ++ `": "
                    ++ statusText response) in
         let errorCode :=
           match data_error data with
           | Some e => err_code e
           | None => None
           end in
         let errorDetails := data_error data in
         let helpfulMessage :=
           if notInAllowedList (Some errorMessage) errorCode
           then allowedListHelp phoneNumber errorDetails
           else errorMessage in
         ret (failure helpfulMessage)
       else
         ret {| success := true;
                messageId := data_message_id data;
                error := None |})
    (fun error =>
       let errorMessage :=
         match error with
         | ErrorObj m => Some m
         | BareError => None          (* [error.message] is [undefined] *)
         | NonError => Some `"Unknown error occurred"
         end in
       ret {| success := false; messageId := None; error := errorMessage |}).

(* ---------------------------------------------------------------- *)
(** *** The Twilio path *)

Record TwilioClient : Type := {
  client : jsstr * jsstr;       (* account sid and auth token *)
  whatsAppNumber : jsstr
}.

Definition getTwilioClient (w : World) : M TwilioClient :=
  let accountSid := getenv w `"TWILIO_ACCOUNT_SID" in
  let authToken := getenv w `"TWILIO_AUTH_TOKEN" in
  let twilioWhatsAppNumber := getenv w `"TWILIO_WHATSAPP_NUMBER" in
  if negb (present accountSid) || negb (present authToken)
     || negb (present twilioWhatsAppNumber)
  then
    let missingVars :=
      (if negb (present accountSid) then [`"TWILIO_ACCOUNT_SID"] else [])
      ++ (if negb (present authToken) then [`"TWILIO_AUTH_TOKEN"] else [])
      ++ (if negb (present twilioWhatsAppNumber)
          then [`"TWILIO_WHATSAPP_NUMBER"] else []) in
    throw (ErrorObj
             (`"Missing required Twilio environment variables: "
              ++ join `", " missingVars ++ `". "
              ++ `"Please set these in your deployment environment variables."))
  else
    match twilio w (orElse accountSid []) (orElse authToken []) with
    | Some e => throw e
    | None =>
      ret {| client := (orElse accountSid [], orElse authToken []);
             whatsAppNumber := orElse twilioWhatsAppNumber [] |}
    end.

(** [await Promise.race([client.messages.create(...), timeoutPromise])] *)
Definition race_create (w : World) (from to body : jsstr)
  : M (option TwilioMessage) :=
  let request := TwilioCreate from to body in
  n <- call_count ;;
  record_call request ;;;
  match messages_create w n request with
  | Resolved response => ret response
  | Rejected e => throw e
  | Pending =>
    throw (ErrorObj `"Request timeout: Twilio API call exceeded 30 seconds")
  end.

(** The [catch] clause of [sendWhatsAppMessageTwilio]: the message it
    puts into the result.  For an [Error] it calls
    [error.message.includes], with no test that the message is a
    string: on a message that is [undefined] the call throws a
    [TypeError], and the clause is left by that exception. *)
Definition twilioErrorMessage (w : World) (error : Thrown) : Completion jsstr :=
  match error with
  | ErrorObj m =>
    Normal
      (if includes m `"timeout" then
         `"Request timeout: The messaging service did not respond in time. Please try again."
       else if includes m `"Invalid" || includes m `"invalid" then
         `"Invalid request: " ++ m
           ++ `". Please check phone number format and credentials."
       else if includes m `"Authentication" then
         `"Authentication failed: Please check your Twilio credentials (TWILIO_ACCOUNT_SID and TWILIO_AUTH_TOKEN)."
       else if includes m `"not in allowed list" then
         `"Phone number not in allowed list: The recipient number must be added to your Twilio allowed list for WhatsApp."
       else m)
  | BareError => Abrupt (ErrorObj (TypeError_message w))
  | NonError =>
    Normal `"Unknown error occurred while sending WhatsApp message"
  end.

Definition sendWhatsAppMessageTwilio (w : World) (to message : jsstr)
  : M WhatsAppResponse :=
  if negb (truthy to) || negb (truthy (trim to)) then
    ret (failure `"Recipient phone number is required.")
  else if negb (truthy message) || negb (truthy (trim message)) then
    ret (failure `"Message content is required.")
  else if (messageLimit <? length message)%nat then
    ret (failure
           (`"Message is too long ("
            ++ numberToString (Z.of_nat (length message))
            ++ `" characters). Maximum allowed is 4096 characters."))
  else
    try_catch
      (c <- getTwilioClient w ;;
       let cleanTo := trim (stripPrefix `"+" (stripPrefix `"whatsapp:" to)) in
       if negb (testDigits 10 15 cleanTo) then
         ret (failure
                (`"Invalid phone number format: " ++ to
                 ++ `". Expected 10-15 digits."))
       else
         response <-
           race_create w (trim (whatsAppNumber c))
             (`"whatsapp:" ++ trim to) (substring 0 messageLimit message) ;;
         match response with
         | Some {| sid := Some ((_ :: _) as id) |} =>
           ret {| success := true; messageId := Some id; error := None |}
         | _ =>
           ret (failure
                  `"Twilio returned an invalid response (missing message SID).")
         end)
      (fun error =>
         match twilioErrorMessage w error with
         | Normal errorMessage => ret (failure errorMessage)
         | Abrupt e => throw e
         end).

(* ---------------------------------------------------------------- *)
(** *** The two senders the handlers call *)

(** The list of environment variables in the "not set" message. *)
Definition envDebug (w : World) : jsstr :=
  join `", "
    (map (fun kv : jsstr * jsstr =>
            fst kv ++ `"="
            ++ (if present (getenv w (fst kv)) then `"***" else `"undefined"))
       (filter (fun kv : jsstr * jsstr =>
                  includes (toUpperCase (fst kv)) `"WHATSAPP"
                  || includes (toUpperCase (fst kv)) `"DRY")
          (env w))).

Definition sendPickupOrderToDryCleaner (w : World) (order : PickupOrderRequest)
  : M WhatsAppResponse :=
  let dryCleanerPhone := getenv w `"DRY_CLEANER_WHATSAPP_NUMBER" in
  if negb (present dryCleanerPhone) then
    ret (failure
           (`"DRY_CLEANER_WHATSAPP_NUMBER environment variable is not set. Found env vars: "
            ++ orElse (Some (envDebug w)) `"none"
            ++ `". Please check your .env file and restart the server."))
  else
    let normalizedPhoneNumber :=
      normalizePhoneNumber dryCleanerPhone defaultCountryCode in
    if negb (present normalizedPhoneNumber) then
      ret (failure
             (`"Invalid dry cleaner phone number format: "
              ++ orElse dryCleanerPhone []
              ++ `". Expected a valid international phone number (10-15 digits)."))
    else
      let normalizedPhone := `"+" ++ orElse normalizedPhoneNumber [] in
      let message := formatPickupOrderMessage w order in
      if (messageLimit <? length message)%nat then
        ret (failure
               (`"Order message is too long ("
                ++ numberToString (Z.of_nat (length message))
                ++ `" characters). Maximum allowed is 4096 characters."))
      else sendWhatsAppMessageTwilio w normalizedPhone message.

Definition sendCustomerConfirmation
    (w : World) (customerPhone customerName pickupDateTime : jsstr)
  : M WhatsAppResponse :=
  let normalizedPhoneNumber :=
    normalizePhoneNumber (Some customerPhone) defaultCountryCode in
  if negb (present normalizedPhoneNumber) then
    ret (failure
           (`"Invalid customer phone number format: " ++ customerPhone
            ++ `". Expected a valid international phone number (10-15 digits)."))
  else
    let sanitizedName := substring 0 100 (trim customerName) in
    if negb (truthy sanitizedName) then
      ret (failure `"Customer name is required and cannot be empty.")
    else
      let normalizedPhone := `"+" ++ orElse normalizedPhoneNumber [] in
      let message :=
        formatCustomerConfirmationMessage w sanitizedName pickupDateTime in
      if (messageLimit <? length message)%nat then
        ret (failure
               (`"Confirmation message is too long ("
                ++ numberToString (Z.of_nat (length message))
                ++ `" characters). Maximum allowed is 4096 characters."))
      else sendWhatsAppMessageTwilio w normalizedPhone message.

End Gateway.

(* ================================================================== *)
(** ** The schema library, as far as [orderSchema] uses it *)

Module Zod.

Import Json.

Inductive PathSeg : Type :=
| Key (k : jsstr)
| Index (i : nat).

Record ZodIssue : Type := {
  path : list PathSeg;
  message : jsstr
}.

(** The outcome of parsing one value: the function given to
    [transform] threw (the library does not catch that), or the
    parse returned.  A returned parse carries the issues it raised
    and its value, which is [None] when the parse was aborted; it is
    valid when it has a value and no issue. *)
Inductive ParseReturn : Type :=
| Threw (e : Thrown)
| Parsed (v : option value) (issues : list ZodIssue).

Definition ZodType : Type := list PathSeg -> value -> ParseReturn.

Definition issue (p : list PathSeg) (m : jsstr) : ZodIssue :=
  {| path := p; message := m |}.

(** The issue of a value of the wrong type, with the default message. *)
Definition invalid_type (expected : jsstr) (p : list PathSeg) (data : value)
  : ParseReturn :=
  Parsed None
    [issue p
       match data with
       | Undefined => `"Required"
       | _ => `"Expected " ++ expected ++ `", received " ++ parsedType data
       end].

(** [z.string()] *)
Definition string_ : ZodType :=
  fun p data =>
    match data with
    | Str _ => Parsed (Some data) []
    | _ => invalid_type `"string" p data
    end.

(** [z.string().min(n, msg)] *)
Definition string_min (n : nat) (msg : jsstr) : ZodType :=
  fun p data =>
    match data with
    | Str s =>
      Parsed (Some data) (if (length s <? n)%nat then [issue p msg] else [])
    | _ => invalid_type `"string" p data
    end.

(** [schema.optional()] *)
Definition optional (schema : ZodType) : ZodType :=
  fun p data =>
    match data with
    | Undefined => Parsed (Some Undefined) []
    | _ => schema p data
    end.

(** [z.number().int().positive(msg)]; both checks run. *)
Definition number_int_positive (msg : jsstr) : ZodType :=
  fun p data =>
    match data with
    | Num q =>
      Parsed (Some data)
        ((if isInteger q then []
          else [issue p `"Expected integer, received float"])
         ++ (if Qle_bool q 0 then [issue p msg] else []))
    | _ => invalid_type `"number" p data
    end.

(** [z.string().transform(f)]: [f] runs on a string that parsed, and
    what it throws leaves the parse. *)
Definition string_transform (f : jsstr -> Completion value) : ZodType :=
  fun p data =>
    match data with
    | Str s =>
      match f s with
      | Normal v => Parsed (Some v) []
      | Abrupt e => Threw e
      end
    | _ => invalid_type `"string" p data
    end.

Definition isValid (r : ParseReturn) : bool :=
  match r with Parsed (Some _) [] => true | _ => false end.

Definition isDirty (r : ParseReturn) : bool :=
  match r with Parsed (Some _) (_ :: _) => true | _ => false end.

(** [a.or(b)]: the first valid option; else the first dirty one with
    its issues; else one issue "Invalid input". *)
Definition or (a b : ZodType) : ZodType :=
  fun p data =>
    match a p data with
    | Threw e => Threw e
    | ra =>
      if isValid ra then ra else
      match b p data with
      | Threw e => Threw e
      | rb =>
        if isValid rb then rb
        else if isDirty ra then ra
        else if isDirty rb then rb
        else Parsed None [issue p `"Invalid input"]
      end
    end.

(** The elements of an array, left to right, each at its index. *)
Fixpoint parseElements (schema : ZodType) (p : list PathSeg) (i : nat)
    (l : list value) : ParseReturn * list value :=
  match l with
  | [] => (Parsed (Some Undefined) [], [])
  | x :: l' =>
    match schema (p ++ [Index i]) x with
    | Threw e => (Threw e, [])
    | Parsed v issues =>
      match parseElements schema p (S i) l' with
      | (Threw e, _) => (Threw e, [])
      | (Parsed v' issues', vs) =>
        (Parsed (match v, v' with
                 | Some _, Some _ => Some Undefined
                 | _, _ => None
                 end) (issues ++ issues'),
         match v with Some x' => x' :: vs | None => vs end)
      end
    end
  end.

(** [z.array(schema).min(n, msg)] *)
Definition array_min (schema : ZodType) (n : nat) (msg : jsstr) : ZodType :=
  fun p data =>
    match data with
    | Arr l =>
      let short := if (length l <? n)%nat then [issue p msg] else [] in
      match parseElements schema p 0 l with
      | (Threw e, _) => Threw e
      | (Parsed (Some _) issues, vs) => Parsed (Some (Arr vs)) (short ++ issues)
      | (Parsed None issues, _) => Parsed None (short ++ issues)
      end
    | _ => invalid_type `"array" p data
    end.

(** The members of a shape, in the order of the shape; members of the
    data that the shape does not name are dropped. *)
Fixpoint parseShape (shape : list (jsstr * ZodType)) (p : list PathSeg)
    (data : value) : ParseReturn * list (jsstr * value) :=
  match shape with
  | [] => (Parsed (Some Undefined) [], [])
  | (k, schema) :: shape' =>
    match schema (p ++ [Key k]) (get k data) with
    | Threw e => (Threw e, [])
    | Parsed v issues =>
      match parseShape shape' p data with
      | (Threw e, _) => (Threw e, [])
      | (Parsed v' issues', ms) =>
        (Parsed (match v, v' with
                 | Some _, Some _ => Some Undefined
                 | _, _ => None
                 end) (issues ++ issues'),
         match v with
         | Some Undefined => ms
         | Some x => (k, x) :: ms
         | None => ms
         end)
      end
    end
  end.

(** [z.object(shape)] *)
Definition object (shape : list (jsstr * ZodType)) : ZodType :=
  fun p data =>
    match data with
    | Obj _ =>
      match parseShape shape p data with
      | (Threw e, _) => Threw e
      | (Parsed (Some _) issues, ms) => Parsed (Some (Obj ms)) issues
      | (Parsed None issues, _) => Parsed None issues
      end
    | _ => invalid_type `"object" p data
    end.

Inductive SafeParseReturn : Type :=
| SafeParseSuccess (data : value)
| SafeParseError (errors : list ZodIssue).

(** [schema.safeParse(data)] *)
Definition safeParse (schema : ZodType) (data : value) : M SafeParseReturn :=
  match schema [] data with
  | Threw e => throw e
  | Parsed (Some v) [] => ret (SafeParseSuccess v)
  | Parsed _ [] =>
    throw (ErrorObj `"Validation failed but no issues detected.")
  | Parsed _ issues => ret (SafeParseError issues)
  end.

(** [path.join(".")] *)
Definition joinPath (p : list PathSeg) : jsstr :=
  join `"."
    (map (fun seg =>
            match seg with
            | Key k => k
            | Index i => numberToString (Z.of_nat i)
            end) p).

End Zod.

(* ================================================================== *)
(** ** Order intake: the schema and the handlers *)

Module Intake.

Import Json Gateway.

(** [Number.parseInt(val, 10)]: the number that the leading digits
    stand for, after white space and a sign; [None] is [NaN]. *)
Fixpoint takeDigits (s : jsstr) : jsstr :=
  match s with
  | c :: s' => if isDigit c then c :: takeDigits s' else []
  | [] => []
  end.

Definition digitsValue (ds : jsstr) : Z :=
  fold_left (fun acc c => acc * 10 + (Z.of_N c - 48))%Z ds 0%Z.

Definition parseInt10 (val : jsstr) : option Z :=
  let s := trimStart val in
  let '(negative, s) :=
    match s with
    | 45%N :: r => (true, r)
    | 43%N :: r => (false, r)
    | _ => (false, s)
    end in
  match takeDigits s with
  | [] => None
  | ds =>
    Some (toNumber (if negative then - digitsValue ds else digitsValue ds)%Z)
  end.

(** The message of the [ZodError] that the quantity transform throws:
    its issues, printed with an indentation of two. *)
Definition quantityErrorText : jsstr :=
  let q := Gateway.quote in
  let nl := Formatter.nl in
  `"[" ++ nl
  ++ `"  {" ++ nl
  ++ `"    " ++ q ++ `"code" ++ q ++ `": " ++ q ++ `"custom" ++ q ++ `"," ++ nl
  ++ `"    " ++ q ++ `"message" ++ q ++ `": " ++ q
       ++ `"Quantity must be a positive integer" ++ q ++ `"," ++ nl
  ++ `"    " ++ q ++ `"path" ++ q ++ `": [" ++ nl
  ++ `"      " ++ q ++ `"quantity" ++ q ++ nl
  ++ `"    ]" ++ nl
  ++ `"  }" ++ nl
  ++ `"]".

(** The function given to [transform] in the quantity schema. *)
Definition quantityOfString (val : jsstr) : Completion value :=
  match parseInt10 val with
  | None => Abrupt (ErrorObj quantityErrorText)
  | Some num =>
    if (num <=? 0)%Z then Abrupt (ErrorObj quantityErrorText)
    else Normal (Num (inject_Z num))
  end.

Definition itemSchema : Zod.ZodType :=
  Zod.object
    [ (`"name", Zod.string_min 1 `"Item name is required");
      (`"quantity",
       Zod.or (Zod.number_int_positive `"Quantity must be a positive integer")
              (Zod.string_transform quantityOfString)) ].

Definition orderSchema : Zod.ZodType :=
  Zod.object
    [ (`"customerName", Zod.string_min 1 `"Customer name is required");
      (`"pickupAddress", Zod.string_min 1 `"Pickup address is required");
      (`"pickupDateTime", Zod.optional Zod.string_);
      (`"items", Zod.array_min itemSchema 1 `"At least one item is required");
      (`"customerNotes", Zod.optional Zod.string_);
      (`"customerPhone", Zod.optional Zod.string_) ].

(** [validationResult.data as PickupOrderRequest]: the members of the
    parsed object, read at the types the schema has given them. *)
Definition asString (v : value) : jsstr :=
  match v with Str s => s | _ => [] end.

Definition asOptionalString (v : value) : option jsstr :=
  match v with Str s => Some s | _ => None end.

Definition asItem (v : value) : OrderItem :=
  {| name := asString (get `"name" v);
     quantity := match get `"quantity" v with Num q => toZ q | _ => 0%Z end |}.

Definition asPickupOrderRequest (data : value) : PickupOrderRequest :=
  {| customerName := asString (get `"customerName" data);
     pickupAddress := asString (get `"pickupAddress" data);
     pickupDateTime := asOptionalString (get `"pickupDateTime" data);
     items := match get `"items" data with
              | Arr l => map asItem l
              | _ => []
              end;
     customerNotes := asOptionalString (get `"customerNotes" data);
     customerPhone := asOptionalString (get `"customerPhone" data) |}.

Definition generateOrderId (w : World) : jsstr :=
  let timestamp := Date_now_toString36 w in
  let random := substring 2 8 (Math_random_toString36 w) in
  toUpperCase (`"ORD-" ++ timestamp ++ `"-" ++ random).

Record Request : Type := {
  method : jsstr;
  body : value
}.

(** [res.status(code).json(payload)] *)
Record Reply : Type := {
  statusCode : Z;
  payload : OrderSubmissionResponse
}.

Definition rejected (code : Z) (orderId : option jsstr) (e : jsstr) : Reply :=
  {| statusCode := code;
     payload := {| os_success := false; os_orderId := orderId;
                   os_messageId := None; os_message := None;
                   os_error := Some e |} |}.

Definition accepted (orderId : jsstr) (messageId : option jsstr) : Reply :=
  {| statusCode := 200;
     payload := {| os_success := true; os_orderId := Some orderId;
                   os_messageId := messageId;
                   os_message := Some `"Order submitted successfully";
                   os_error := None |} |}.

(* ---------------------------------------------------------------- *)
(** *** The serverless handler (hardened) *)

(** The loop over the items: the reply of the first item it rejects. *)
Fixpoint checkItems (i : nat) (l : list OrderItem) : option Reply :=
  match l with
  | [] => None
  | item :: l' =>
    if negb (truthy (name item)) || negb (truthy (trim (name item))) then
      Some (rejected 400 None
              (`"Item at index " ++ numberToString (Z.of_nat i)
               ++ `" has an empty or invalid name."))
    else if negb (isFiniteNumber (quantity item))
            || (quantity item <=? 0)%Z then
      Some (rejected 400 None
              (`"Item " ++ quote ++ name item ++ quote
               ++ `" has an invalid quantity. Must be a positive integer."))
    else checkItems (S i) l'
  end.

(** Received to Validated: the reply of a rejected request, or the
    sanitised order. *)
Definition validate (w : World) (req : Request)
  : M (Reply + PickupOrderRequest) :=
  if negb (str_eqb (method req) `"POST") then
    ret (inl (rejected 405 None
                (`"Method not allowed. Expected POST, got " ++ method req
                 ++ `".")))
  else
    let parsed :=
      if falsy (body req) then Some (Obj [])
      else match body req with
           | Str s => JSON_parse w s
           | b => Some b
           end in
    match parsed with
    | None => ret (inl (rejected 400 None `"Invalid JSON format in request body."))
    | Some body =>
      match body with
      | Obj _ =>
        validationResult <- Zod.safeParse orderSchema body ;;
        match validationResult with
        | Zod.SafeParseError errors =>
          let errorMessages :=
            join `", "
              (map (fun e =>
                      (match Zod.path e with
                       | [] => `"root"
                       | p => Zod.joinPath p
                       end) ++ `": " ++ Zod.message e) errors) in
          ret (inl (rejected 400 None (`"Validation failed: " ++ errorMessages)))
        | Zod.SafeParseSuccess data =>
          let order := asPickupOrderRequest data in
          let order :=
            {| customerName := trim (customerName order);
               pickupAddress := trim (pickupAddress order);
               pickupDateTime := pickupDateTime order;
               items := items order;
               customerNotes :=
                 match customerNotes order with
                 | Some ((_ :: _) as notes) => Some (trim notes)
                 | _ => None
                 end;
               customerPhone := customerPhone order |} in
          if negb (truthy (customerName order)) then
            ret (inl (rejected 400 None
                        `"Customer name is required and cannot be empty."))
          else if negb (truthy (pickupAddress order)) then
            ret (inl (rejected 400 None
                        `"Pickup address is required and cannot be empty."))
          else if (length (items order) =? 0)%nat then
            ret (inl (rejected 400 None
                        `"At least one item is required in the order."))
          else
            match checkItems 0 (items order) with
            | Some reply => ret (inl reply)
            | None => ret (inr order)
            end
        end
      | _ => ret (inl (rejected 400 None
                         `"Request body must be a valid JSON object."))
      end
    end.

(** Validated to Responded. *)
Definition notify (w : World) (order : PickupOrderRequest) : M Reply :=
  let orderId := generateOrderId w in
  dryCleanerResponse <- sendPickupOrderToDryCleaner w order ;;
  if negb (success dryCleanerResponse) then
    log {| log_level := LogError;
           log_label := `"Failed to send order to dry cleaner:";
           log_orderId := Some orderId;
           log_error := error dryCleanerResponse |} ;;;
    ret (rejected 500 (Some orderId)
           (`"Failed to send order notification. Please contact support with order ID: "
            ++ orderId))
  else
    (if present (customerPhone order) then
       try_catch
         (customerResponse <-
            sendCustomerConfirmation w
              (orElse (customerPhone order) []) (customerName order)
              (orElse (pickupDateTime order) []) ;;
          if success customerResponse then ret tt
          else
            log {| log_level := LogWarn;
                   log_label := `"Failed to send customer confirmation:";
                   log_orderId := Some orderId;
                   log_error := error customerResponse |})
         (fun customerError =>
            log {| log_level := LogWarn;
                   log_label := `"Exception while sending customer confirmation:";
                   log_orderId := Some orderId;
                   log_error :=
                     match customerError with
                     | ErrorObj m => Some m
                     | BareError => None
                     | NonError => Some `"Unknown error"
                     end |})
     else ret tt) ;;;
    ret (accepted orderId (messageId dryCleanerResponse)).

Definition handler (w : World) (req : Request) : M Reply :=
  try_catch
    (validated <- validate w req ;;
     match validated with
     | inl reply => ret reply
     | inr order => notify w order
     end)
    (fun err =>
       log {| log_level := LogError;
              log_label := `"Order handler error:";
              log_orderId := None;
              log_error :=
                match err with ErrorObj m => Some m | _ => None end |} ;;;
       ret (rejected 500 None
              `"An unexpected server error occurred. Please try again or contact support.")).

(* ---------------------------------------------------------------- *)
(** *** The Express handler ([handlePickupOrder]) *)

Definition validatePickupOrder (req : Request)
  : M (Reply + PickupOrderRequest) :=
  validationResult <- Zod.safeParse orderSchema (body req) ;;
  match validationResult with
  | Zod.SafeParseError errors =>
    ret (inl (rejected 400 None
                (join `", "
                   (map (fun e => Zod.joinPath (Zod.path e) ++ `": "
                                    ++ Zod.message e) errors))))
  | Zod.SafeParseSuccess data => ret (inr (asPickupOrderRequest data))
  end.

Definition notifyPickupOrder (w : World) (order : PickupOrderRequest)
  : M Reply :=
  let orderId := generateOrderId w in
  dryCleanerResponse <- sendPickupOrderToDryCleaner w order ;;
  if negb (success dryCleanerResponse) then
    ret (rejected 500 (Some orderId)
           (`"Failed to send order to dry cleaner: "
            ++ match error dryCleanerResponse with
               | Some e => e
               | None => `"undefined"
               end))
  else
    (if present (customerPhone order) then
       customerResponse <-
         sendCustomerConfirmation w
           (orElse (customerPhone order) []) (customerName order)
           (orElse (pickupDateTime order) []) ;;
       ret tt
     else ret tt) ;;;
    ret (accepted orderId (messageId dryCleanerResponse)).

Definition handlePickupOrder (w : World) (req : Request) : M Reply :=
  try_catch
    (validated <- validatePickupOrder req ;;
     match validated with
     | inl reply => ret reply
     | inr order => notifyPickupOrder w order
     end)
    (fun error =>
       let errorMessage :=
         match error with
         | ErrorObj m => m
         | BareError => `"undefined"   (* a template literal's [undefined] *)
         | NonError => `"Unknown error occurred"
         end in
       ret (rejected 500 None (`"Internal server error: " ++ errorMessage))).

(** The serverless adapter in front of [handlePickupOrder]: a falsy
    body of a POST becomes the empty object. *)
Definition adapter (w : World) (req : Request) : M Reply :=
  let req :=
    if falsy (body req) && str_eqb (method req) `"POST"
    then {| method := method req; body := Obj [] |}
    else req in
  handlePickupOrder w req.

End Intake.

(* ================================================================== *)
(** ** The earlier [whatsapp] module: its phone normaliser *)

Module Legacy.

(** The class [[\s+\-()]]. *)
Definition isSeparator (c : N) : bool :=
  (Phone.isSeparator c || (c =? 43))%N.

(** [normalizePhoneNumber] before it was hardened: it removes every
    [+] and returns what is left without checking it. *)
Definition normalizePhoneNumber (phone defaultCountryCode : jsstr) : jsstr :=
  let cleaned := trim (removeAll isSeparator phone) in
  let cleaned :=
    if startsWith `"0" cleaned && (length cleaned =? 10)%nat
    then defaultCountryCode ++ skipn 1 cleaned else cleaned in
  let cleaned :=
    if (length cleaned =? 9)%nat && testDigits 9 9 cleaned
    then defaultCountryCode ++ cleaned else cleaned in
  cleaned.

End Legacy.

(* ================================================================== *)
(** ** The earlier serverless handler *)

Module Simple.

Import Json Intake.

(** It parses a body that came as text and hands everything else to
    the schema; the steps after the parse are those of
    [handlePickupOrder]. *)
Definition handler (w : World) (req : Request) : M Reply :=
  try_catch
    (if negb (str_eqb (method req) `"POST") then
       ret (rejected 405 None `"Method not allowed")
     else
       let parsed :=
         if falsy (body req) then Some (Obj [])
         else match body req with
              | Str s => JSON_parse w s
              | b => Some b
              end in
       match parsed with
       | None => ret (rejected 400 None `"Invalid JSON")
       | Some body =>
         validationResult <- Zod.safeParse orderSchema body ;;
         match validationResult with
         | Zod.SafeParseError errors =>
           ret (rejected 400 None
                  (join `", "
                     (map (fun e => Zod.joinPath (Zod.path e) ++ `": "
                                      ++ Zod.message e) errors)))
         | Zod.SafeParseSuccess data =>
           let order := asPickupOrderRequest data in
           let orderId := generateOrderId w in
           dryCleanerResponse <- Gateway.sendPickupOrderToDryCleaner w order ;;
           if negb (success dryCleanerResponse) then
             ret (rejected 500 (Some orderId)
                    (`"Failed to send order to dry cleaner: "
                     ++ match error dryCleanerResponse with
                        | Some e => e
                        | None => `"undefined"
                        end))
           else
             (if present (customerPhone order) then
                customerResponse <-
                  Gateway.sendCustomerConfirmation w
                    (orElse (customerPhone order) []) (customerName order)
                    (orElse (pickupDateTime order) []) ;;
                ret tt
              else ret tt) ;;;
             ret (accepted orderId (messageId dryCleanerResponse))
         end
       end)
    (fun err =>
       ret (rejected 500 None
              match err with
              | ErrorObj ((_ :: _) as m) => m
              | _ => `"An unexpected server error occurred"
              end)).

End Simple.

(* ================================================================== *)
(** ** The Express server: the allow-list of origins *)

Module Server.

(** [s.split(",")] *)
Fixpoint split (sep : N) (s : jsstr) : list jsstr :=
  match s with
  | [] => [[]]
  | c :: s' =>
    if (c =? sep)%N then [] :: split sep s'
    else match split sep s' with
         | piece :: pieces => (c :: piece) :: pieces
         | [] => [[c]]
         end
  end.

Definition defaultOrigins : jsstr :=
  `"http://localhost:8080,http://127.0.0.1:8080".

(** [(process.env.ALLOWED_ORIGINS ?? default).split(",")
      .map((origin) => origin.trim()).filter(Boolean)] *)
Definition corsOrigins (w : World) : list jsstr :=
  filter truthy
    (map trim
       (split 44 match getenv w `"ALLOWED_ORIGINS" with
                 | Some s => s
                 | None => defaultOrigins
                 end)).

(** The [origin] function given to [cors]: what it passes to the
    callback for the [Origin] of a request. *)
Definition origin (w : World) (requestOrigin : option jsstr) : bool :=
  if negb (present requestOrigin) then true
  else if existsb (str_eqb (orElse requestOrigin [])) (corsOrigins w) then true
  else false.

(** The answer of [GET /api/ping]. *)
Definition ping (w : World) : jsstr :=
  match getenv w `"PING_MESSAGE" with
  | Some s => s
  | None => `"ping"
  end.

End Server.

(* ================================================================== *)
(** ** Sample worlds *)

Module Scenario.

Import Json Intake.

Definition sampleEnv : list (jsstr * jsstr) :=
  [ (`"DRY_CLEANER_WHATSAPP_NUMBER", `"0792875310");
    (`"TWILIO_ACCOUNT_SID", `"AC0123456789");
    (`"TWILIO_AUTH_TOKEN", `"secret");
    (`"TWILIO_WHATSAPP_NUMBER", `"whatsapp:+14155238886");
    (`"WHATSAPP_ACCESS_TOKEN", `"token");
    (`"WHATSAPP_PHONE_NUMBER_ID", `"1029384756") ].

(** A world with the configuration above, a date library that knows
    one timestamp, and the given behaviour of the two providers. *)
Definition world
    (create : nat -> TwilioOutcome) (graph : nat -> FetchOutcome) : World :=
  {| env := sampleEnv;
     Date_parse := fun s =>
       if str_eqb s `"2024-05-01T10:00:00Z" then Some 1714557600000%Z
       else None;
     Date_toLocaleString := fun style _ =>
       match style with
       | ShortStyle => Normal `"Wed, May 1, 2024, 10:00 AM"
       | LongStyle => Normal `"Wednesday, May 1, 2024 at 10:00 AM"
       end;
     new_Date_toLocaleString := `"4/30/2024, 9:15:02 PM";
     Date_now_toString36 := `"lvmzr4k9";
     Math_random_toString36 := `"0.k3j9x2p7q";
     twilio := fun _ _ => None;
     messages_create := fun n _ => create n;
     fetch := fun n _ => graph n;
     JSON_parse := fun _ => None;
     TypeError_message :=
       `"Cannot read properties of undefined (reading 'includes')" |}.

(** The world [w] at another reading of the clock. *)
Definition at_time (w : World) (now : jsstr) : World :=
  {| env := env w;
     Date_parse := Date_parse w;
     Date_toLocaleString := Date_toLocaleString w;
     new_Date_toLocaleString := now;
     Date_now_toString36 := Date_now_toString36 w;
     Math_random_toString36 := Math_random_toString36 w;
     twilio := twilio w;
     messages_create := messages_create w;
     fetch := fetch w;
     JSON_parse := JSON_parse w;
     TypeError_message := TypeError_message w |}.

Definition delivered (id : jsstr) : TwilioOutcome :=
  Resolved (Some {| sid := Some id |}).

Definition graphFailure (code : Z) (text : jsstr) (e : GraphError)
  : FetchOutcome :=
  FetchResolved
    {| ok := false; status := code; statusText := text;
       json := JsonData {| data_error := Some e; data_message_id := None |} |}.

Definition notAllowed : GraphError :=
  {| err_message := Some `"(#131030) Recipient phone number not in allowed list";
     err_code := Some 131030%Z;
     err_json := `"{...}" |}.

Definition invalidParameter : GraphError :=
  {| err_message := Some `"(#100) Invalid parameter";
     err_code := Some 100%Z;
     err_json := `"{...}" |}.

Definition shirts : PickupOrderRequest :=
  {| customerName := `"Amahoro";
     pickupAddress := `"KG 11 Ave, Kigali";
     pickupDateTime := Some `"not-a-date";
     items := [ {| name := `"Shirt"; quantity := 2 |};
                {| name := `"Suit"; quantity := 1 |} ];
     customerNotes := Some `" no starch ";
     customerPhone := Some `"0788123456" |}.

(** An order that lists the same item twice. *)
Definition shirtsTwice : PickupOrderRequest :=
  {| customerName := `"Amahoro";
     pickupAddress := `"KG 11 Ave, Kigali";
     pickupDateTime := None;
     items := [ {| name := `"Shirt"; quantity := 2 |};
                {| name := `"Shirt"; quantity := 2 |} ];
     customerNotes := None;
     customerPhone := None |}.

Definition shirtsBody (quantity : value) : value :=
  Obj [ (`"customerName", Str `"Amahoro");
        (`"pickupAddress", Str `"KG 11 Ave, Kigali");
        (`"items", Arr [ Obj [ (`"name", Str `"Shirt");
                               (`"quantity", quantity) ] ]);
        (`"customerPhone", Str `"0788123456") ].

(** The first request to Twilio is delivered, the later ones are
    rejected. *)
Definition flaky : World :=
  world (fun n => match n with
                  | 0 => delivered `"SM1"
                  | _ => Rejected (ErrorObj `"boom")
                  end)
        (fun _ => FetchRejected NonError).

Definition regionError : jsstr :=
  `"Permission to send an SMS has not been enabled for the region indicated by the 'To' number".

(** Twilio rejects every request. *)
Definition refusing : World :=
  world (fun _ => Rejected (ErrorObj regionError))
        (fun _ => FetchRejected NonError).

(** Twilio and the Graph API reject every request with an error that
    has no message. *)
Definition mute : World :=
  world (fun _ => Rejected BareError) (fun _ => FetchRejected BareError).

(** The first request to Twilio is delivered, the later ones are
    rejected with an error that has no message. *)
Definition muteLater : World :=
  world (fun n => match n with
                  | 0 => delivered `"SM1"
                  | _ => Rejected BareError
                  end)
        (fun _ => FetchRejected NonError).

(** The order of [shirtsBody] once validated. *)
Definition shirtsOrder (n : Z) : PickupOrderRequest :=
  {| customerName := `"Amahoro";
     pickupAddress := `"KG 11 Ave, Kigali";
     pickupDateTime := None;
     items := [ {| name := `"Shirt"; quantity := n |} ];
     customerNotes := None;
     customerPhone := Some `"0788123456" |}.

Definition postRequest (b : value) : Request := {| method := `"POST"; body := b |}.

End Scenario.

(* ================================================================== *)
(** ** Vocabulary of the properties *)

Module Terms.

(** The cleaned string of the design document: the input without
    white space, hyphens and parentheses, and without one leading [+]. *)
Definition cleanedDigits (phone : jsstr) : jsstr :=
  let s := removeAll Phone.isSeparator phone in
  match s with
  | 43%N :: rest => rest
  | _ => s
  end.

(** The message and the code of a failed Graph API response, as the
    webhook gateway reads them. *)
Definition responseErrorMessage (r : HttpResponse) (d : GraphData) : jsstr :=
  orElse (match data_error d with
          | Some e => err_message e
          | None => None
          end)
         (`"HTTP " ++ numberToString (status r) ++ `": " ++ statusText r).

Definition responseErrorCode (d : GraphData) : option Z :=
  match data_error d with
  | Some e => err_code e
  | None => None
  end.

(** [needle] sits in [hay] at the offset [p]. *)
Definition occursAt (needle hay : jsstr) (p : nat) : Prop :=
  exists pre post, hay = pre ++ needle ++ post /\ length pre = p.

(** What the message says of one item: its quantity and its name. *)
Definition entry (item : OrderItem) : jsstr :=
  numberToString (quantity item) ++ `"x " ++ name item.

(** The line of one item as the design document has it: two spaces, a
    bullet, a space and the entry. *)
Definition row (item : OrderItem) : jsstr :=
  [32%N; 32%N; 8226%N; 32%N] ++ entry item.

(** The lines of the items, one below the other. *)
Fixpoint rows (l : list OrderItem) : jsstr :=
  match l with
  | [] => []
  | item :: rest =>
    match rest with
    | [] => row item
    | _ :: _ => row item ++ [10%N] ++ rows rest
    end
  end.

(** The offsets of the entries of [l] in a text whose lines of items
    begin at [start]: an entry begins after the four characters that
    open its line, and a line begins after the line break of the line
    before. *)
Fixpoint entryOffsets (start : nat) (l : list OrderItem) : list nat :=
  match l with
  | [] => []
  | item :: rest =>
    (start + 4) :: entryOffsets (start + length (row item) + 1) rest
  end.

(** The number of places of [hay] at which [needle] begins. *)
Fixpoint occurrences (needle hay : jsstr) : nat :=
  match hay with
  | [] => 0
  | _ :: rest =>
    (if startsWith needle hay then 1 else 0) + occurrences needle rest
  end.

(** How many items of [l] have the entry [e]. *)
Definition listed (e : jsstr) (l : list OrderItem) : nat :=
  count_occ (list_eq_dec N.eq_dec) (map entry l) e.

(** The text of the order message before its list of items, and the
    text between the list and the closing line. *)
Definition beforeItems (w : World) (order : PickupOrderRequest) : jsstr :=
  Formatter.basket ++ `" *NEW PICKUP ORDER*" ++ Formatter.nl ++ Formatter.nl
  ++ Formatter.clipboard ++ `" *Customer:* " ++ customerName order
  ++ Formatter.nl
  ++ Formatter.pin ++ `" *Address:* " ++ pickupAddress order ++ Formatter.nl
  ++ Formatter.alarm ++ `" *Preferred Pickup:* "
  ++ Formatter.pickupTimeFormatted w ShortStyle `"Not specified"
       (pickupDateTime order)
  ++ Formatter.nl ++ Formatter.nl
  ++ Formatter.package ++ `" *Items:*" ++ Formatter.nl.

Definition closingLine (w : World) : jsstr :=
  `"_Order received at " ++ new_Date_toLocaleString w ++ `"_".

(** The text of an order message that the template does not fix. *)
Definition suppliedText (w : World) (order : PickupOrderRequest) : jsstr :=
  customerName order ++ pickupAddress order
  ++ Formatter.pickupTimeFormatted w ShortStyle `"Not specified"
       (pickupDateTime order)
  ++ concat (map name (items order))
  ++ Formatter.notesBlock order
  ++ new_Date_toLocaleString w.

(** The number of bullets in a text. *)
Definition bullets (s : jsstr) : nat := count_occ N.eq_dec s 8226%N.

(** The text of a message up to its last line break, and the line
    after it. *)
Fixpoint afterLineBreak (s : jsstr) : jsstr :=
  match s with
  | [] => []
  | c :: s' => if (c =? 10)%N then s' else afterLineBreak s'
  end.

Fixpoint firstLine (s : jsstr) : jsstr :=
  match s with
  | [] => []
  | c :: s' => if (c =? 10)%N then [] else c :: firstLine s'
  end.

Definition withoutLastLine (s : jsstr) : jsstr := rev (afterLineBreak (rev s)).
Definition lastLine (s : jsstr) : jsstr := rev (firstLine (rev s)).

Definition singleLine (s : jsstr) : bool :=
  forallb (fun c => negb (c =? 10)%N) s.

(** The sections of the order message. *)
Definition customerAndAddress (order : PickupOrderRequest) : jsstr :=
  Formatter.basket ++ `" *NEW PICKUP ORDER*" ++ Formatter.nl ++ Formatter.nl
  ++ Formatter.clipboard ++ `" *Customer:* " ++ customerName order
  ++ Formatter.nl
  ++ Formatter.pin ++ `" *Address:* " ++ pickupAddress order ++ Formatter.nl.

Definition preferredPickup (w : World) (order : PickupOrderRequest) : jsstr :=
  Formatter.alarm ++ `" *Preferred Pickup:* "
  ++ Formatter.pickupTimeFormatted w ShortStyle `"Not specified"
       (pickupDateTime order)
  ++ Formatter.nl ++ Formatter.nl.

Definition itemsAndNotes (order : PickupOrderRequest) : jsstr :=
  Formatter.package ++ `" *Items:*" ++ Formatter.nl
  ++ Formatter.itemsList order ++ Formatter.nl
  ++ Formatter.notesBlock order.

(** What the order schema asks of a request body. *)
Definition acceptableQuantity (v : Json.value) : Prop :=
  (exists q, v = Json.Num q /\ Json.isInteger q = true /\ Qle_bool q 0 = false)
  \/ (exists s n,
        v = Json.Str s /\ Intake.parseInt10 s = Some n /\ (0 < n)%Z).

Definition acceptableItem (v : Json.value) : Prop :=
  (exists nm, Json.get `"name" v = Json.Str nm /\ nm <> [])
  /\ acceptableQuantity (Json.get `"quantity" v).

Definition acceptableOrder (body : Json.value) : Prop :=
  (exists cn, Json.get `"customerName" body = Json.Str cn /\ cn <> [])
  /\ (exists pa, Json.get `"pickupAddress" body = Json.Str pa /\ pa <> [])
  /\ (exists its,
        Json.get `"items" body = Json.Arr its /\ its <> []
        /\ Forall acceptableItem its).

(** The issues of a parse that returned. *)
Definition issuesOf (r : Zod.ParseReturn) : list Zod.ZodIssue :=
  match r with
  | Zod.Parsed _ issues => issues
  | Zod.Threw _ => []
  end.

(** One issue as the serverless handler prints it. *)
Definition printIssue (e : Zod.ZodIssue) : jsstr :=
  (match Zod.path e with
   | [] => `"root"
   | p => Zod.joinPath p
   end) ++ `": " ++ Zod.message e.

End Terms.

Import Terms.

(* ================================================================== *)
(** ** Vocabulary of the further properties *)

Module MoreTerms.

(** What the normaliser does to a cleaned string that passed the first
    test: the trunk prefix replaced, or the country code put in front. *)
Definition expanded (code cleaned : jsstr) : jsstr :=
  let cleaned :=
    if startsWith `"0" cleaned && (length cleaned =? 10)%nat
    then code ++ skipn 1 cleaned else cleaned in
  if (length cleaned =? 9)%nat && testDigits 9 9 cleaned
  then code ++ cleaned else cleaned.

(** The shape of a result of a send: an identifier and no error on
    success, an error and no identifier on failure. *)
Definition wellFormed (r : WhatsAppResponse) : Prop :=
  (success r = true /\ error r = None
   /\ exists id, id <> [] /\ messageId r = Some id)
  \/ (success r = false /\ messageId r = None
      /\ exists e, error r = Some e).

(** The provider has thrown an error without a message between the
    stores [st] and [st']: the constructor of the client, before any
    request, or the one request that [st'] has on top of [st]. *)
Definition providerThrewBare (w : World) (st st' : Store) : Prop :=
  (st' = st
   /\ exists accountSid authToken,
        twilio w accountSid authToken = Some BareError)
  \/ exists request,
       calls st' = calls st ++ [request]
       /\ messages_create w (length (calls st)) request = Rejected BareError.

(** A send that started in [st] and returns a well-formed result, or
    is left by the [TypeError] of the [catch] clause after the provider
    has thrown an error without a message. *)
Definition completesWellFormed (w : World) (st : Store)
    (o : Completion WhatsAppResponse * Store) : Prop :=
  match o with
  | (Normal r, _) => wellFormed r
  | (Abrupt e, st') =>
    e = ErrorObj (TypeError_message w) /\ providerThrewBare w st st'
  end.

(** The destination the Twilio sender validates. *)
Definition cleanTo (to : jsstr) : jsstr :=
  trim (stripPrefix `"+" (stripPrefix `"whatsapp:" to)).

(** What the [catch] clause of the Twilio sender makes of an exception
    in the store [st]. *)
Definition caught (w : World) (e : Thrown) (st : Store)
  : Completion WhatsAppResponse * Store :=
  match Gateway.twilioErrorMessage w e with
  | Normal errorMessage => (Normal (failure errorMessage), st)
  | Abrupt e' => (Abrupt e', st)
  end.

(** The Twilio variables that are not set, in the order of the message. *)
Definition missingVars (w : World) : list jsstr :=
  (if present (getenv w `"TWILIO_ACCOUNT_SID") then []
   else [`"TWILIO_ACCOUNT_SID"])
  ++ (if present (getenv w `"TWILIO_AUTH_TOKEN") then []
      else [`"TWILIO_AUTH_TOKEN"])
  ++ (if present (getenv w `"TWILIO_WHATSAPP_NUMBER") then []
      else [`"TWILIO_WHATSAPP_NUMBER"]).

(** The destination the webhook gateway computes. *)
Definition digitsOf (to : jsstr) : jsstr :=
  trim (removeAll (fun c => Phone.isSeparator c || (c =? 43)%N) to).

(** What an environment shows of itself when the values are hidden: the
    names in their order, and for each whether its value is empty. *)
Definition masked (e : list (jsstr * jsstr)) : list (jsstr * bool) :=
  map (fun kv => (fst kv, truthy (snd kv))) e.

(** The shape of a reply of an order handler: 200 with the success
    flag, an order id and no error; 400 or 405 with an error and neither
    an order id nor a message id; 500 with an error and no message id. *)
Definition wellFormedReply (r : Intake.Reply) : Prop :=
  let p := Intake.payload r in
  (Intake.statusCode r = 200%Z /\ os_success p = true
   /\ (exists id, os_orderId p = Some id) /\ os_error p = None
   /\ os_message p = Some `"Order submitted successfully")
  \/ ((Intake.statusCode r = 400%Z \/ Intake.statusCode r = 405%Z)
      /\ os_success p = false /\ os_orderId p = None
      /\ os_messageId p = None /\ os_message p = None
      /\ exists e, os_error p = Some e)
  \/ (Intake.statusCode r = 500%Z /\ os_success p = false
      /\ os_messageId p = None /\ os_message p = None
      /\ exists e, os_error p = Some e).

(** A handler that answers, with a well-formed reply. *)
Definition answersWellFormed (o : Completion Intake.Reply * Store) : Prop :=
  match fst o with
  | Normal r => wellFormedReply r
  | Abrupt _ => False
  end.

(** The replies that blame the request: 400 and 405. *)
Definition clientError (r : Intake.Reply) : bool :=
  ((Intake.statusCode r =? 400) || (Intake.statusCode r =? 405))%Z.

(** What a handler that has validated [order] in the store [st] may
    have handed to the provider when it ends in [out]: nothing; or the
    order, to the dry cleaner; or the order and then the confirmation,
    to the customer, and then it ends as [answer] says. *)
Definition ordersSent (w : World) (order : PickupOrderRequest) (st : Store)
    (out : Completion Intake.Reply * Store)
    (answer : Completion Intake.Reply -> Prop) : Prop :=
  calls (snd out) = calls st
  \/ exists from r,
       Phone.normalizePhoneNumber
         (getenv w `"DRY_CLEANER_WHATSAPP_NUMBER") `"250" = Some r
       /\ let first :=
            TwilioCreate from (`"whatsapp:+" ++ r)
              (Formatter.formatPickupOrderMessage w order) in
          calls (snd out) = calls st ++ [first]
          \/ exists from' r' phone,
               customerPhone order = Some phone
               /\ Phone.normalizePhoneNumber (Some phone) `"250" = Some r'
               /\ answer (fst out)
               /\ calls (snd out)
                  = calls st
                    ++ [first;
                        TwilioCreate from' (`"whatsapp:+" ++ r')
                          (Formatter.formatCustomerConfirmationMessage w
                             (substring 0 100 (trim (customerName order)))
                             (orElse (pickupDateTime order) []))].

(** The reply that accepts an order. *)
Definition acceptance (w : World) (c : Completion Intake.Reply) : Prop :=
  exists messageId,
    c = Normal (Intake.accepted (Intake.generateOrderId w) messageId).

(** The acceptance, or the 500 by which the Express handler answers the
    [TypeError] that left the confirmation. *)
Definition acceptanceOrFault (w : World) (c : Completion Intake.Reply) : Prop :=
  acceptance w c
  \/ c = Normal (Intake.rejected 500 None
                   (`"Internal server error: " ++ TypeError_message w)).


(** [order] with other notes. *)
Definition withNotes (order : PickupOrderRequest) (notes : option jsstr)
  : PickupOrderRequest :=
  {| customerName := customerName order;
     pickupAddress := pickupAddress order;
     pickupDateTime := pickupDateTime order;
     items := items order;
     customerNotes := notes;
     customerPhone := customerPhone order |}.

(** A lower-case letter of ASCII. *)
Definition isLowerCase (c : N) : bool := ((97 <=? c) && (c <=? 122))%N.

(** A digit of base 36 as [toString(36)] writes it, and as an order
    identifier has it. *)
Definition isBase36 (c : N) : bool := isDigit c || isLowerCase c.

Definition isUpperBase36 (c : N) : bool :=
  isDigit c || ((65 <=? c) && (c <=? 90))%N.

(** A capital letter of ASCII put into lower case. *)
Definition lowerChar (c : N) : N :=
  (if (65 <=? c) && (c <=? 90) then c + 32 else c)%N.

(** The four entry points for an order. *)
Inductive EntryPoint : Type :=
| Hardened          (* the serverless handler that sanitises *)
| Express           (* [handlePickupOrder] *)
| Adapter           (* the serverless adapter of [handlePickupOrder] *)
| Serverless.       (* the simple serverless handler *)

Definition entryPoint (e : EntryPoint)
  : World -> Intake.Request -> M Intake.Reply :=
  match e with
  | Hardened => Intake.handler
  | Express => Intake.handlePickupOrder
  | Adapter => Intake.adapter
  | Serverless => Simple.handler
  end.

End MoreTerms.

Import MoreTerms.

(* ================================================================== *)
(** ** Further sample worlds *)

Module MoreScenario.

(** The world [w] with another environment. *)
Definition withEnv (w : World) (e : list (jsstr * jsstr)) : World :=
  {| env := e;
     Date_parse := Date_parse w;
     Date_toLocaleString := Date_toLocaleString w;
     new_Date_toLocaleString := new_Date_toLocaleString w;
     Date_now_toString36 := Date_now_toString36 w;
     Math_random_toString36 := Math_random_toString36 w;
     twilio := twilio w;
     messages_create := messages_create w;
     fetch := fetch w;
     JSON_parse := JSON_parse w;
     TypeError_message := TypeError_message w |}.

(** A deployment that has the account only. *)
Definition accountOnly : list (jsstr * jsstr) :=
  [ (`"DRY_CLEANER_WHATSAPP_NUMBER", `"0792875310");
    (`"TWILIO_ACCOUNT_SID", `"AC0123456789") ].

(** Two deployments without the number of the dry cleaner, with
    different secrets. *)
Definition withoutDryCleaner (token : jsstr) : list (jsstr * jsstr) :=
  [ (`"TWILIO_ACCOUNT_SID", `"AC0123456789");
    (`"TWILIO_AUTH_TOKEN", token);
    (`"TWILIO_WHATSAPP_NUMBER", `"whatsapp:+14155238886");
    (`"WHATSAPP_ACCESS_TOKEN", token);
    (`"DRY_CLEANING_MODE", []) ].

(** A provider that never answers. *)
Definition silent : World :=
  Scenario.world (fun _ => Pending) (fun _ => FetchRejected NonError).

End MoreScenario.

(* ================================================================== *)
(** * Properties *)

(** ** Strings *)

Section StringFacts.

Lemma dropWhile_none (p : N -> bool) (s : jsstr) :
  (forall c, In c s -> p c = false) -> dropWhile p s = s.
Proof.
  destruct s as [|c s]; intro H; [reflexivity|].
  simpl. now rewrite (H c (or_introl eq_refl)).
Qed.

Lemma trim_without_whitespace (s : jsstr) :
  (forall c, In c s -> isWhiteSpace c = false) -> trim s = s.
Proof.
  intro H. unfold trim, trimStart, trimEnd.
  rewrite (dropWhile_none _ s H).
  rewrite dropWhile_none.
  - apply rev_involutive.
  - intros c Hc. apply H. now apply in_rev.
Qed.

Lemma startsWith_app (p s : jsstr) : startsWith p (p ++ s) = true.
Proof.
  induction p as [|a p IH]; simpl; [reflexivity|].
  now rewrite N.eqb_refl, IH.
Qed.

Lemma includes_here (p s : jsstr) : includes (p ++ s) p = true.
Proof.
  destruct (p ++ s) eqn:E; simpl; rewrite <- E, startsWith_app; reflexivity.
Qed.

Lemma includes_cons (c : N) (hay needle : jsstr) :
  includes hay needle = true -> includes (c :: hay) needle = true.
Proof. intro H. simpl. rewrite H. apply orb_true_r. Qed.

Lemma includes_app_r (pre hay needle : jsstr) :
  includes hay needle = true -> includes (pre ++ hay) needle = true.
Proof.
  intro H. induction pre as [|c pre IH]; [exact H|].
  simpl app. now apply includes_cons.
Qed.

(** What [includes] means: the needle sits between two other strings. *)
Lemma includes_middle (pre needle post : jsstr) :
  includes (pre ++ needle ++ post) needle = true.
Proof. apply includes_app_r, includes_here. Qed.

Lemma includes_split (hay needle : jsstr) :
  includes hay needle = true ->
  exists pre post, hay = pre ++ needle ++ post.
Proof.
  induction hay as [|c hay IH]; simpl.
  - rewrite orb_false_r. destruct needle; [|discriminate].
    intros _. now exists [], [].
  - intro H. apply orb_true_iff in H. destruct H as [H|H].
    + exists [].
      revert H. generalize (c :: hay). clear.
      induction needle as [|a needle IH]; intros l H.
      * now exists l.
      * destruct l as [|b l]; [discriminate|]. simpl in H.
        apply andb_true_iff in H. destruct H as [Hab H].
        apply N.eqb_eq in Hab. subst b.
        destruct (IH l H) as [post Hpost]. simpl in Hpost.
        exists post. simpl. now f_equal.
    + destruct (IH H) as (pre & post & ->). now exists (c :: pre), post.
Qed.

Lemma forallb_skipn (A : Type) (p : A -> bool) (n : nat) (l : list A) :
  forallb p l = true -> forallb p (skipn n l) = true.
Proof.
  revert l. induction n as [|n IH]; intros [|x l]; simpl; auto.
  intro H. apply andb_true_iff in H. now apply IH.
Qed.

Lemma testDigits_spec (lo hi : nat) (s : jsstr) :
  testDigits lo hi s = true <->
  forallb isDigit s = true /\ lo <= length s <= hi.
Proof.
  unfold testDigits. rewrite !andb_true_iff, !Nat.leb_le. tauto.
Qed.

Lemma lit_app (a b : string) : lit (a ++ b)%string = lit a ++ lit b.
Proof.
  unfold lit. induction a as [|c a IH]; simpl; [reflexivity|].
  now rewrite IH.
Qed.

Lemma uint_digits (d : Decimal.uint) :
  Forall (fun c => isDigit c = true) (lit (NilEmpty.string_of_uint d)).
Proof.
  induction d; simpl; constructor; (reflexivity || assumption).
Qed.

(** An integer prints as digits, after a minus sign when negative. *)
Lemma decimal_chars (z : Z) (c : N) :
  In c (decimal z) -> c = 45%N \/ isDigit c = true.
Proof.
  unfold decimal, NilZero.string_of_int, NilZero.string_of_uint.
  assert (D : forall d c,
             In c (lit match d with
                       | Decimal.Nil => "0"%string
                       | _ => NilEmpty.string_of_uint d
                       end) -> isDigit c = true).
  { intros d c'. destruct d;
      try (intro H; exact (proj1 (Forall_forall _ _) (uint_digits _) _ H)).
    simpl. intros [<-|[]]. reflexivity. }
  destruct (Z.to_int z) as [d|d].
  - intro H. right. exact (D _ _ H).
  - intros [<-|H]; [now left|]. right. exact (D _ _ H).
Qed.

Lemma decimal_plain (z : Z) : Forall (fun c => (c < 128)%N) (decimal z).
Proof.
  apply Forall_forall. intros c H.
  destruct (decimal_chars _ _ H) as [->|Hd]; [reflexivity|].
  unfold isDigit in Hd. apply andb_true_iff in Hd. destruct Hd as [_ Hd].
  apply N.leb_le in Hd. lia.
Qed.

Lemma lit_plain_e : Forall (fun c => (c < 128)%N) (lit "e+").
Proof. repeat constructor. Qed.

Lemma bigToString_plain (d : Z) : Forall (fun c => (c < 128)%N) (bigToString d).
Proof.
  unfold bigToString.
  destruct (shortestDigits 17 d (Z.of_nat (length (decimal d))) 1) as [s n].
  pose proof (decimal_plain s) as Hs.
  destruct (n <=? 21)%Z.
  - apply Forall_app. split; [exact Hs|].
    apply Forall_forall. intros c Hc. apply repeat_spec in Hc. now subst c.
  - destruct (decimal s) as [|first [|second rest]]; [constructor| |].
    + inversion Hs; subst. constructor; [assumption|].
      apply Forall_app. split; [exact lit_plain_e|apply decimal_plain].
    + inversion Hs; subst. constructor; [assumption|].
      apply Forall_app. split; [repeat constructor|].
      apply Forall_app. split; [assumption|].
      apply Forall_app. split; [exact lit_plain_e|apply decimal_plain].
Qed.

(** A number prints in ASCII. *)
Lemma numberToString_plain (z : Z) :
  Forall (fun c => (c < 128)%N) (numberToString z).
Proof.
  unfold numberToString. cbv zeta.
  destruct (Z.abs (toNumber z) <? 2 ^ 53)%Z; [apply decimal_plain|].
  apply Forall_app. split.
  - destruct (z <? 0)%Z; repeat constructor.
  - destruct (infinity <=? Z.abs (toNumber z))%Z;
      [repeat constructor|apply bigToString_plain].
Qed.

(** Below 2^53 a number prints as its digits, and parsing leaves it as
    it is. *)
Lemma roundToDouble_small (a : Z) :
  (0 <= a < 2 ^ 53)%Z -> roundToDouble a = a.
Proof.
  intro H. unfold roundToDouble. cbv zeta.
  assert (Hbits : (Z.log2 a + 1 <=? 53)%Z = true).
  { apply Z.leb_le. destruct (Z.eq_dec a 0) as [->|Hne]; [discriminate|].
    assert (Z.log2 a < 53)%Z by (apply Z.log2_lt_pow2; lia). lia. }
  now rewrite Hbits.
Qed.

Lemma toNumber_small (z : Z) :
  (0 <= z < 2 ^ 53)%Z -> toNumber z = z.
Proof.
  intro H. unfold toNumber. cbv zeta.
  rewrite Z.abs_eq by lia. rewrite (roundToDouble_small H).
  assert (Hfin : (infinity <=? z)%Z = false).
  { apply Z.leb_gt. unfold infinity.
    assert (2 ^ 53 < 2 ^ 1024)%Z by (apply Z.pow_lt_mono_r; lia). lia. }
  assert (Hpos : (z <? 0)%Z = false) by (apply Z.ltb_ge; lia).
  now rewrite Hfin, Hpos.
Qed.


Lemma substring_all (n : nat) (s : jsstr) :
  length s <= n -> substring 0 n s = s.
Proof.
  intro H. unfold substring. simpl. rewrite Nat.sub_0_r.
  now apply firstn_all2.
Qed.

End StringFacts.

(** ** Phone normaliser *)

Section PhoneFacts.

Import Phone.

Lemma separators_removed (phone : jsstr) :
  trim (removeAll isSeparator phone) = removeAll isSeparator phone.
Proof.
  apply trim_without_whitespace. intros c Hc.
  apply filter_In in Hc. destruct Hc as [_ Hc].
  unfold isSeparator in Hc.
  destruct (isWhiteSpace c); [discriminate|reflexivity].
Qed.

Lemma strip_plus (s : jsstr) :
  (if startsWith `"+" s then skipn 1 s else s)
  = match s with 43%N :: rest => rest | _ => s end.
Proof.
  destruct s as [|c s]; [reflexivity|].
  change (startsWith `"+" (c :: s)) with ((43 =? c)%N && true).
  rewrite andb_true_r.
  destruct (N.eqb_spec 43 c) as [<-|Hne]; [reflexivity|].
  destruct c as [|p]; [reflexivity|].
  do 6 (destruct p as [p|p|]; try reflexivity); exfalso; now apply Hne.
Qed.

(** The normaliser in terms of the cleaned string. *)
Lemma normalizePhoneNumber_cleaned (phone code : jsstr) :
  normalizePhoneNumber (Some phone) code =
  let cleaned := cleanedDigits phone in
  if negb (truthy phone) then None else
  if negb (testDigits 9 15 cleaned) then None else
  let cleaned :=
    if startsWith `"0" cleaned && (length cleaned =? 10)%nat
    then code ++ skipn 1 cleaned else cleaned in
  let cleaned :=
    if (length cleaned =? 9)%nat && testDigits 9 9 cleaned
    then code ++ cleaned else cleaned in
  if negb (testDigits 10 15 cleaned) then None else Some cleaned.
Proof.
  unfold normalizePhoneNumber, cleanedDigits.
  rewrite separators_removed, strip_plus. reflexivity.
Qed.

Lemma cleanedDigits_nil : cleanedDigits [] = [].
Proof. reflexivity. Qed.

Lemma normalize_invalid (phone : jsstr) :
  forallb isDigit (cleanedDigits phone) = false
  \/ length (cleanedDigits phone) < 9
  \/ 15 < length (cleanedDigits phone) ->
  normalizePhoneNumber (Some phone) `"250" = None.
Proof.
  intro H. rewrite normalizePhoneNumber_cleaned. cbv zeta.
  destruct (negb (truthy phone)); [reflexivity|].
  destruct (testDigits 9 15 (cleanedDigits phone)) eqn:E; [|reflexivity].
  apply testDigits_spec in E. destruct E as [E1 E2].
  destruct H as [H|[H|H]]; [congruence|lia|lia].
Qed.

Lemma normalize_trunk_prefix (phone : jsstr) :
  forallb isDigit (cleanedDigits phone) = true ->
  length (cleanedDigits phone) = 10 ->
  startsWith `"0" (cleanedDigits phone) = true ->
  normalizePhoneNumber (Some phone) `"250"
  = Some (`"250" ++ skipn 1 (cleanedDigits phone)).
Proof.
  intros Hd Hl H0. rewrite normalizePhoneNumber_cleaned. cbv zeta.
  destruct phone as [|c phone]; [discriminate Hl|].
  change (negb (truthy (c :: phone))) with false. cbv iota.
  assert (T : testDigits 9 15 (cleanedDigits (c :: phone)) = true)
    by (apply testDigits_spec; split; [assumption|lia]).
  rewrite T, H0, Hl, Nat.eqb_refl. cbn [negb andb].
  assert (L : length (`"250" ++ skipn 1 (cleanedDigits (c :: phone))) = 12)
    by (rewrite length_app, length_skipn, Hl; reflexivity).
  rewrite L. change (12 =? 9)%nat with false. cbn [andb].
  assert (T2 : testDigits 10 15
                 (`"250" ++ skipn 1 (cleanedDigits (c :: phone))) = true).
  { apply testDigits_spec. split; [|lia].
    rewrite forallb_app. rewrite forallb_skipn by assumption. reflexivity. }
  now rewrite T2.
Qed.

Lemma normalize_nine_digits (phone : jsstr) :
  forallb isDigit (cleanedDigits phone) = true ->
  length (cleanedDigits phone) = 9 ->
  normalizePhoneNumber (Some phone) `"250"
  = Some (`"250" ++ cleanedDigits phone).
Proof.
  intros Hd Hl. rewrite normalizePhoneNumber_cleaned. cbv zeta.
  destruct phone as [|c phone]; [discriminate Hl|].
  change (negb (truthy (c :: phone))) with false. cbv iota.
  assert (T : testDigits 9 15 (cleanedDigits (c :: phone)) = true)
    by (apply testDigits_spec; split; [assumption|lia]).
  assert (T9 : testDigits 9 9 (cleanedDigits (c :: phone)) = true)
    by (apply testDigits_spec; split; [assumption|lia]).
  rewrite T, Hl. change (9 =? 10)%nat with false.
  rewrite andb_false_r. cbn [negb]. rewrite Hl, T9, Nat.eqb_refl.
  cbn [andb].
  assert (T2 : testDigits 10 15 (`"250" ++ cleanedDigits (c :: phone)) = true).
  { apply testDigits_spec. split.
    - rewrite forallb_app, Hd. reflexivity.
    - rewrite length_app, Hl. simpl. lia. }
  now rewrite T2.
Qed.

Lemma normalize_range (phone : option jsstr) (code r : jsstr) :
  normalizePhoneNumber phone code = Some r ->
  forallb isDigit r = true /\ 10 <= length r <= 15.
Proof.
  destruct phone as [phone|]; [|discriminate].
  unfold normalizePhoneNumber.
  destruct (negb (truthy phone)); [discriminate|].
  destruct (negb (testDigits 9 15 _)); [discriminate|].
  match goal with
  | |- (if negb (testDigits 10 15 ?x) then _ else _) = _ -> _ =>
    destruct (testDigits 10 15 x) eqn:E; [|discriminate]
  end.
  intro H. injection H as <-. now apply testDigits_spec.
Qed.

End PhoneFacts.

(** C2. With the default country code "250", [normalizePhoneNumber]
    returns null when the input, stripped of white space, hyphens,
    parentheses and a leading [+], is not all digits or has a length
    outside 9..15; it replaces the leading zero of a cleaned string of
    exactly 10 digits by "250"; it puts "250" in front of a cleaned
    string of exactly 9 digits; and every result it returns is all
    digits, of a length in 10..15.  Both "0792875310" and "792875310"
    give "250792875310". *)
Theorem normalizePhoneNumber_contract (phone : jsstr) :
  let cleaned := cleanedDigits phone in
  let result := Phone.normalizePhoneNumber (Some phone) `"250" in
  (forallb isDigit cleaned = false \/ length cleaned < 9 \/ 15 < length cleaned ->
   result = None)
  /\ (forallb isDigit cleaned = true -> length cleaned = 10 ->
      startsWith `"0" cleaned = true ->
      result = Some (`"250" ++ skipn 1 cleaned))
  /\ (forallb isDigit cleaned = true -> length cleaned = 9 ->
      result = Some (`"250" ++ cleaned))
  /\ (forall r, result = Some r ->
      forallb isDigit r = true /\ 10 <= length r <= 15)
  /\ Phone.normalizePhoneNumber (Some `"0792875310") `"250"
     = Some `"250792875310"
  /\ Phone.normalizePhoneNumber (Some `"792875310") `"250"
     = Some `"250792875310".
Proof.
  cbv zeta. repeat split.
  - apply normalize_invalid.
  - apply normalize_trunk_prefix.
  - apply normalize_nine_digits.
  - now apply normalize_range in H.
  - now apply normalize_range in H.
  - now apply normalize_range in H.
Qed.

(** The contract on four inputs. *)
Lemma normalizePhoneNumber_contract_witness :
  Phone.normalizePhoneNumber (Some `"abc123") `"250" = None
  /\ Phone.normalizePhoneNumber (Some `"(079) 287-5310") `"250"
     = Some `"250792875310"
  /\ Phone.normalizePhoneNumber (Some `"+792 875 310") `"250"
     = Some `"250792875310"
  /\ (forallb isDigit `"250792875310" = true
      /\ 10 <= length `"250792875310" <= 15).
Proof.
  split; [|split; [|split]].
  - apply (proj1 (normalizePhoneNumber_contract `"abc123")).
    left. reflexivity.
  - apply (proj1 (proj2 (normalizePhoneNumber_contract `"(079) 287-5310")));
      reflexivity.
  - apply (proj1 (proj2 (proj2 (normalizePhoneNumber_contract `"+792 875 310"))));
      reflexivity.
  - apply (proj1 (proj2 (proj2 (proj2
             (normalizePhoneNumber_contract `"0792875310")))) `"250792875310").
    reflexivity.
Defined.

(** ** Messaging gateway *)

(** One step of running a body of the embedding: split on the
    condition or the scrutinee in head position. *)
Ltac split_head :=
  match goal with
  | |- context [if ?b then _ else _] =>
    lazymatch b with
    | context [if _ then _ else _] => fail
    | context [match _ with _ => _ end] => fail
    | _ => destruct b eqn:?
    end
  | |- context [match ?x with _ => _ end] =>
    lazymatch x with
    | context [if _ then _ else _] => fail
    | context [match _ with _ => _ end] => fail
    | _ => destruct x eqn:?
    end
  end.

Ltac split_head_in H :=
  match type of H with
  | context [if ?b then _ else _] =>
    lazymatch b with
    | context [if _ then _ else _] => fail
    | context [match _ with _ => _ end] => fail
    | _ => destruct b eqn:?
    end
  | context [match ?x with _ => _ end] =>
    lazymatch x with
    | context [if _ then _ else _] => fail
    | context [match _ with _ => _ end] => fail
    | _ => destruct x eqn:?
    end
  end.

Ltac run := cbv beta iota delta [bind ret throw try_catch record_call call_count log].

#[local] Opaque lit.

Section GatewayFacts.

Import Gateway.

Variable w : World.

Lemma getTwilioClient_store (st : Store) :
  snd (getTwilioClient w st) = st.
Proof.
  unfold getTwilioClient. run.
  repeat split_head; reflexivity.
Qed.

(** The [catch] clause of the Twilio sender is left by an exception on
    an error without a message, and only then. *)
Lemma twilioErrorMessage_throws (error e : Thrown) :
  twilioErrorMessage w error = Abrupt e ->
  error = BareError /\ e = ErrorObj (TypeError_message w).
Proof.
  destruct error; try discriminate. intro H. injection H as <-. now split.
Qed.

(** The Twilio sender returns a result, or is left by the [TypeError]
    of its [catch] clause. *)
Lemma sendWhatsAppMessageTwilio_completes (to message : jsstr) (st : Store) :
  (exists r st', sendWhatsAppMessageTwilio w to message st = (Normal r, st'))
  \/ (exists st',
        sendWhatsAppMessageTwilio w to message st
        = (Abrupt (ErrorObj (TypeError_message w)), st')).
Proof.
  unfold sendWhatsAppMessageTwilio, race_create, getTwilioClient. run.
  repeat split_head; eauto.
  all: match goal with
       | H : twilioErrorMessage w _ = Abrupt _ |- _ =>
         apply twilioErrorMessage_throws in H; destruct H as [_ ->]; eauto
       end.
Qed.

(** It is left by an exception only when the provider has thrown an
    error without a message, from the constructor of the client or
    from the request. *)
Lemma sendWhatsAppMessageTwilio_throws (to message : jsstr) (st : Store)
    (e : Thrown) (st' : Store) :
  sendWhatsAppMessageTwilio w to message st = (Abrupt e, st') ->
  e = ErrorObj (TypeError_message w)
  /\ ((st' = st
       /\ exists accountSid authToken,
            twilio w accountSid authToken = Some BareError)
      \/ exists request,
           calls st' = calls st ++ [request]
           /\ messages_create w (length (calls st)) request
              = Rejected BareError).
Proof.
  unfold sendWhatsAppMessageTwilio, race_create, getTwilioClient. run.
  repeat split_head; intro E; inversion E; subst; clear E.
  all: match goal with
       | H : twilioErrorMessage w _ = Abrupt _ |- _ =>
         apply twilioErrorMessage_throws in H; destruct H as [Hb He];
           try discriminate Hb; subst
       end.
  all: split; [reflexivity|].
  all: first [left; split; [reflexivity|eauto]
             |right; eexists; split; [reflexivity|eassumption]
             |discriminate].
Qed.

(** The webhook sender returns a result in every case. *)
Lemma sendWhatsAppMessage_returns (to message : jsstr) (st : Store) :
  exists r st', sendWhatsAppMessage w to message st = (Normal r, st').
Proof.
  unfold sendWhatsAppMessage, post, response_json, getWhatsAppConfig. run.
  repeat split_head; eauto.
Qed.

End GatewayFacts.

Section SenderFacts.

Import Gateway.

Variable w : World.

Lemma sendCustomerConfirmation_completes
    (customerPhone customerName pickupDateTime : jsstr) (st : Store) :
  (exists r st',
     sendCustomerConfirmation w customerPhone customerName pickupDateTime st
     = (Normal r, st'))
  \/ (exists st',
        sendCustomerConfirmation w customerPhone customerName pickupDateTime st
        = (Abrupt (ErrorObj (TypeError_message w)), st')).
Proof.
  unfold sendCustomerConfirmation. run.
  repeat split_head; eauto using sendWhatsAppMessageTwilio_completes.
Qed.

Lemma sendPickupOrderToDryCleaner_completes
    (order : PickupOrderRequest) (st : Store) :
  (exists r st', sendPickupOrderToDryCleaner w order st = (Normal r, st'))
  \/ (exists st',
        sendPickupOrderToDryCleaner w order st
        = (Abrupt (ErrorObj (TypeError_message w)), st')).
Proof.
  unfold sendPickupOrderToDryCleaner. run.
  repeat split_head; eauto using sendWhatsAppMessageTwilio_completes.
Qed.

End SenderFacts.

(** C6 fails on the Twilio sender.  When the provider rejects the
    request with an [Error] whose [message] is not a string, the [catch]
    clause of [sendWhatsAppMessageTwilio] calls [includes] on that
    message and is left by the [TypeError] of the engine: the exception
    crosses the boundary of the gateway, and of the two senders built
    on it.  The webhook sender, which reads the message without calling
    a method on it, returns a result on the same fault. *)
Theorem twilio_gateway_throws_without_message :
  let w := Scenario.mute in
  let typeError :=
    ErrorObj `"Cannot read properties of undefined (reading 'includes')" in
  let request :=
    TwilioCreate `"whatsapp:+14155238886" `"whatsapp:+250792875310" `"hello" in
  messages_create w 0 request = Rejected BareError
  /\ Gateway.sendWhatsAppMessageTwilio w `"+250792875310" `"hello" emptyStore
     = (Abrupt typeError, {| calls := [request]; console := [] |})
  /\ fst (Gateway.sendPickupOrderToDryCleaner w Scenario.shirts emptyStore)
     = Abrupt typeError
  /\ fst (Gateway.sendCustomerConfirmation w `"0788123456" `"Amahoro" []
            emptyStore)
     = Abrupt typeError
  /\ fst (Gateway.sendWhatsAppMessage w `"+250792875310" `"hello" emptyStore)
     = Normal {| success := false; messageId := None; error := None |}.
Proof. vm_compute. repeat split. Qed.

Section TwilioFacts.

Import Gateway.

Variable w : World.

Lemma no_new_call (A : Type) (l : list A) (c : A) : l = l ++ [c] -> False.
Proof.
  intro H. apply (f_equal (@length A)) in H.
  rewrite length_app in H. simpl in H. lia.
Qed.

(** What the Twilio sender leaves in the store: nothing, or the one
    request it made. *)
Lemma sendWhatsAppMessageTwilio_calls (to message : jsstr) (st : Store) :
  let st' := snd (sendWhatsAppMessageTwilio w to message st) in
  console st' = console st
  /\ (calls st' = calls st
      \/ exists from,
           calls st' = calls st
                         ++ [TwilioCreate from (`"whatsapp:" ++ trim to) message]).
Proof.
  unfold sendWhatsAppMessageTwilio, race_create, getTwilioClient. run.
  repeat split_head; cbn [snd console calls]; split; auto;
    right; eexists; rewrite substring_all;
      try reflexivity; now apply Nat.ltb_ge.
Qed.

(** A successful Twilio send carries the identifier the provider
    assigned to this very request. *)
Lemma sendWhatsAppMessageTwilio_success (to message : jsstr) (st : Store)
    (r : WhatsAppResponse) (st' : Store) :
  sendWhatsAppMessageTwilio w to message st = (Normal r, st') ->
  success r = true ->
  exists id request,
    id <> []
    /\ messageId r = Some id
    /\ calls st' = calls st ++ [request]
    /\ messages_create w (length (calls st)) request
       = Resolved (Some {| sid := Some id |}).
Proof.
  unfold sendWhatsAppMessageTwilio, race_create, getTwilioClient. run.
  repeat split_head; intros E S; inversion E; subst; clear E;
    try discriminate S.
  all: cbn [whatsAppNumber] in *.
  all: eexists; eexists; repeat split; try eassumption; try reflexivity;
    discriminate.
Qed.

(** A response without a message identifier is a failure. *)
Lemma sendWhatsAppMessageTwilio_missing_sid (to message : jsstr) (st : Store)
    (r : WhatsAppResponse) (st' : Store) (request : ProviderCall)
    (response : option TwilioMessage) :
  sendWhatsAppMessageTwilio w to message st = (Normal r, st') ->
  calls st' = calls st ++ [request] ->
  messages_create w (length (calls st)) request = Resolved response ->
  match response with
  | Some {| sid := Some (_ :: _) |} => False
  | _ => True
  end ->
  r = failure `"Twilio returned an invalid response (missing message SID).".
Proof.
  unfold sendWhatsAppMessageTwilio, race_create, getTwilioClient. run.
  repeat split_head; intros E C R S; inversion E; subst; clear E;
    cbn [calls] in C;
    try (exfalso; exact (no_new_call _ C));
    try reflexivity;
    apply app_inv_head in C; injection C as <-;
    cbn [whatsAppNumber] in *; try congruence.
  match goal with
  | H : _ = Resolved (Some _) |- _ => rewrite H in R; injection R as <-
  end.
  contradiction.
Qed.

End TwilioFacts.

Section WebhookFacts.

Import Gateway.

Lemma allowedListHelp_plain (phoneNumber : jsstr) (e : option GraphError) :
  includes (allowedListHelp phoneNumber e) phoneNumber = true.
Proof.
  unfold allowedListHelp. do 4 apply includes_app_r. apply includes_here.
Qed.

Lemma allowedListHelp_plus (phoneNumber : jsstr) (e : option GraphError) :
  includes (allowedListHelp phoneNumber e) (`"+" ++ phoneNumber) = true.
Proof.
  unfold allowedListHelp. do 6 apply includes_app_r.
  change "Number with + prefix: +"%string
    with ("Number with + prefix: " ++ "+")%string.
  rewrite lit_app, <- app_assoc. apply includes_app_r.
  rewrite app_assoc. apply includes_here.
Qed.

Lemma allowedListHelp_remedy (phoneNumber : jsstr) (e : option GraphError) :
  includes (allowedListHelp phoneNumber e)
    `"IMPORTANT: Make sure this number is in your Meta allowed recipient list."
  = true.
Proof.
  unfold allowedListHelp. do 10 apply includes_app_r. apply includes_here.
Qed.

End WebhookFacts.

(** C3, as the code has it. When the first attempt of the webhook
    gateway fails with the "recipient not in allowed list" condition
    (the substring in the error message, or the code 131031), the
    gateway issues exactly one more request, to the destination with a
    leading [+], and none after it, whatever that retry does.  When the
    retry fails with the allowed-list condition too, the result carries
    the one consolidated message, which includes the plain and the
    [+]-prefixed destination and the remediation steps; when the retry
    fails with another provider error, the result carries the message
    of that error. *)
Theorem webhook_retry_contract
    (w : World) (to message : jsstr) (st : Store)
    (config : Gateway.WhatsAppConfig) (r1 : HttpResponse) (d1 : GraphData)
    (e1 : GraphError) :
  let phoneNumber :=
    trim (removeAll (fun c => Phone.isSeparator c || (c =? 43)%N) to) in
  let request destination :=
    GraphPost (Gateway.baseUrl config)
      (`"Bearer " ++ Gateway.accessToken config) destination message in
  Gateway.getWhatsAppConfig w st = (Normal config, st) ->
  testDigits 10 15 phoneNumber = true ->
  fetch w (length (calls st)) (request phoneNumber) = FetchResolved r1 ->
  ok r1 = false ->
  json r1 = JsonData d1 ->
  data_error d1 = Some e1 ->
  Gateway.notInAllowedList (err_message e1) (err_code e1) = true ->
  let outcome := Gateway.sendWhatsAppMessage w to message st in
  calls (snd outcome)
  = calls st ++ [request phoneNumber; request (`"+" ++ phoneNumber)]
  /\ forall r2 d2,
       fetch w (S (length (calls st))) (request (`"+" ++ phoneNumber))
       = FetchResolved r2 ->
       ok r2 = false ->
       json r2 = JsonData d2 ->
       (Gateway.notInAllowedList (Some (responseErrorMessage r2 d2))
          (responseErrorCode d2) = true ->
        let help := Gateway.allowedListHelp phoneNumber (data_error d2) in
        fst outcome = Normal (failure help)
        /\ includes help phoneNumber = true
        /\ includes help (`"+" ++ phoneNumber) = true
        /\ includes help
             `"IMPORTANT: Make sure this number is in your Meta allowed recipient list."
           = true)
       /\ (Gateway.notInAllowedList (Some (responseErrorMessage r2 d2))
             (responseErrorCode d2) = false ->
           fst outcome = Normal (failure (responseErrorMessage r2 d2))).
Proof.
  intros phoneNumber request Hconfig Hvalid Hfirst Hok Hjson Herror Hcond outcome.
  assert (Hnext : forall c : ProviderCall,
             length (calls st ++ [c]) = S (length (calls st)))
    by (intro c; rewrite length_app; simpl; lia).
  subst outcome. unfold Gateway.sendWhatsAppMessage, Gateway.post,
    Gateway.response_json. run.
  rewrite Hconfig. fold phoneNumber. rewrite Hvalid. cbn [negb].
  fold (request phoneNumber). rewrite Hfirst, Hjson, Hok, Herror, Hcond.
  cbn [negb andb calls console]. rewrite Hnext.
  fold (request (`"+" ++ phoneNumber)).
  split.
  - repeat split_head; cbn [snd calls]; rewrite <- app_assoc; reflexivity.
  - intros r2 d2 Hretry Hok2 Hjson2.
    rewrite Hretry, Hjson2, Hok2. cbn [negb].
    fold (responseErrorMessage r2 d2). fold (responseErrorCode d2).
    split.
    + intros ->. cbn [fst]. repeat split.
      * apply allowedListHelp_plain.
      * apply allowedListHelp_plus.
      * apply allowedListHelp_remedy.
    + intros ->. reflexivity.
Qed.

(** The retry contract on a provider that keeps answering "not in
    allowed list". *)
Lemma webhook_retry_contract_witness :
  let w :=
    Scenario.world (fun _ => Pending)
      (fun _ => Scenario.graphFailure 400 `"Bad Request" Scenario.notAllowed) in
  let outcome :=
    Gateway.sendWhatsAppMessage w `"+250 792 875 310" `"hello" emptyStore in
  length (calls (snd outcome)) = 2
  /\ fst outcome
     = Normal (failure (Gateway.allowedListHelp `"250792875310"
                          (Some Scenario.notAllowed))).
Proof.
  intros w outcome. subst outcome.
  destruct (@webhook_retry_contract w `"+250 792 875 310" `"hello" emptyStore
              {| Gateway.accessToken := `"token";
                 Gateway.phoneNumberId := `"1029384756";
                 Gateway.apiVersion := `"v18.0";
                 Gateway.baseUrl :=
                   `"https://graph.facebook.com/v18.0/1029384756/messages" |}
              {| ok := false; status := 400; statusText := `"Bad Request";
                 json := JsonData {| data_error := Some Scenario.notAllowed;
                                     data_message_id := None |} |}
              {| data_error := Some Scenario.notAllowed;
                 data_message_id := None |}
              Scenario.notAllowed
              eq_refl eq_refl eq_refl eq_refl eq_refl eq_refl eq_refl)
    as [Hcalls Hretry].
  split.
  - rewrite Hcalls. reflexivity.
  - destruct (Hretry _ _ eq_refl eq_refl eq_refl) as [Hsame _].
    exact (proj1 (Hsame eq_refl)).
Defined.

(** C3, as the design document states it, fails: the first attempt fails with the
    allowed-list condition, the retry fails with another error of the
    provider, and the result carries the raw message of that error,
    which names neither form of the destination. *)
Lemma webhook_retry_other_failure :
  let w :=
    Scenario.world (fun _ => Pending)
      (fun n => match n with
                | 0 => Scenario.graphFailure 400 `"Bad Request" Scenario.notAllowed
                | _ => Scenario.graphFailure 400 `"Bad Request"
                         Scenario.invalidParameter
                end) in
  let outcome :=
    Gateway.sendWhatsAppMessage w `"250792875310" `"hello" emptyStore in
  length (calls (snd outcome)) = 2
  /\ fst outcome = Normal (failure `"(#100) Invalid parameter")
  /\ includes `"(#100) Invalid parameter" `"250792875310" = false
  /\ includes `"(#100) Invalid parameter" `"+250792875310" = false.
Proof. vm_compute. repeat split. Qed.

(** C4 fails on the webhook gateway. The provider answers "ok" with a
    body that has no message identifier, and [sendWhatsAppMessage]
    returns [success = true] with no [messageId], where the Twilio
    gateway returns a failure (lemma
    [sendWhatsAppMessageTwilio_missing_sid]). *)
Theorem webhook_success_without_message_id :
  let w :=
    Scenario.world (fun _ => Pending)
      (fun _ => FetchResolved
                  {| ok := true; status := 200; statusText := `"OK";
                     json := JsonData {| data_error := None;
                                         data_message_id := None |} |}) in
  fst (Gateway.sendWhatsAppMessage w `"250792875310" `"hello" emptyStore)
  = Normal {| success := true; messageId := None; error := None |}.
Proof. vm_compute. reflexivity. Qed.

Section ConfirmationFacts.

Import Phone Formatter Gateway.

Lemma digit_not_whitespace (c : N) : isDigit c = true -> isWhiteSpace c = false.
Proof.
  unfold isDigit. intro H. apply andb_true_iff in H. destruct H as [H1 H2].
  apply N.leb_le in H1, H2.
  assert (C : (c = 48 \/ c = 49 \/ c = 50 \/ c = 51 \/ c = 52 \/ c = 53
               \/ c = 54 \/ c = 55 \/ c = 56 \/ c = 57)%N) by lia.
  repeat (destruct C as [->|C]; [reflexivity|]). now subst c.
Qed.

Lemma trim_plus_digits (n : jsstr) :
  forallb isDigit n = true -> trim (`"+" ++ n) = `"+" ++ n.
Proof.
  intro H. apply trim_without_whitespace. intros c [<-|Hc]; [reflexivity|].
  apply digit_not_whitespace. rewrite forallb_forall in H. now apply H.
Qed.

Lemma dropWhile_all (p : N -> bool) (s : jsstr) :
  forallb p s = true -> dropWhile p s = [].
Proof.
  induction s as [|c s IH]; simpl; [reflexivity|].
  intro H. apply andb_true_iff in H. destruct H as [-> H]. now apply IH.
Qed.

Lemma trim_whitespace_only (s : jsstr) :
  forallb isWhiteSpace s = true -> trim s = [].
Proof.
  intro H. unfold trim, trimStart. now rewrite (dropWhile_all _ _ H).
Qed.

Lemma confirmation_greets (w : World) (customerName pickupDateTime : jsstr) :
  includes (formatCustomerConfirmationMessage w customerName pickupDateTime)
    (`"Hi " ++ customerName ++ `"! ") = true.
Proof.
  unfold formatCustomerConfirmationMessage. cbv zeta.
  rewrite <- !app_assoc. do 4 apply includes_app_r.
  rewrite (app_assoc customerName), (app_assoc `"Hi ").
  apply includes_here.
Qed.

Lemma store_eq (st st' : Store) :
  calls st' = calls st -> console st' = console st -> st' = st.
Proof. destruct st, st'; simpl; intros -> ->; reflexivity. Qed.

End ConfirmationFacts.


(** ** Message formatter *)

Section FormatterFacts.

Import Formatter.

Lemma formatPickupOrderMessage_shape (w : World) (order : PickupOrderRequest) :
  formatPickupOrderMessage w order
  = beforeItems w order ++ itemsList order
      ++ (nl ++ notesBlock order) ++ nl ++ closingLine w.
Proof.
  unfold formatPickupOrderMessage, beforeItems, closingLine. cbv zeta.
  rewrite <- !app_assoc. reflexivity.
Qed.

Lemma itemLine_row (item : OrderItem) : itemLine item = row item.
Proof. reflexivity. Qed.

Lemma rows_cons (first second : OrderItem) (rest : list OrderItem) :
  rows (first :: second :: rest) = row first ++ nl ++ rows (second :: rest).
Proof. reflexivity. Qed.

Lemma itemsList_rows (l : list OrderItem) :
  join nl (map itemLine l) = rows l.
Proof.
  induction l as [|first rest IH]; [reflexivity|].
  destruct rest as [|second rest]; [reflexivity|].
  rewrite rows_cons, <- IH. reflexivity.
Qed.

Lemma formatPickupOrderMessage_rows (w : World) (order : PickupOrderRequest) :
  formatPickupOrderMessage w order
  = beforeItems w order ++ rows (items order)
      ++ nl ++ notesBlock order ++ nl ++ closingLine w.
Proof.
  rewrite formatPickupOrderMessage_shape. unfold itemsList.
  now rewrite itemsList_rows, <- !app_assoc.
Qed.

Lemma length_row (item : OrderItem) :
  length (row item) = 4 + length (entry item).
Proof. unfold row. rewrite length_app. reflexivity. Qed.

Lemma length_entryOffsets (start : nat) (l : list OrderItem) :
  length (entryOffsets start l) = length l.
Proof.
  revert start. induction l as [|item l IH]; intro start; simpl;
    [reflexivity|]. now rewrite IH.
Qed.

Lemma join_cons (sep x : jsstr) (l : list jsstr) :
  l <> [] -> join sep (x :: l) = x ++ sep ++ join sep l.
Proof. destruct l; [contradiction|reflexivity]. Qed.

(** Every item has its entry at its offset. *)
Lemma entries_occur (l : list OrderItem) :
  forall (head tail : jsstr) (i : nat) (item : OrderItem) (p : nat),
    nth_error l i = Some item ->
    nth_error (entryOffsets (length head) l) i = Some p ->
    occursAt (entry item) (head ++ rows l ++ tail) p.
Proof.
  induction l as [|first rest IH]; intros head tail i item p Hi Hp.
  - destruct i; discriminate.
  - destruct i as [|i].
    + injection Hi as ->. injection Hp as <-.
      exists (head ++ [32%N; 32%N; 8226%N; 32%N]).
      destruct rest as [|second rest].
      * exists tail. split.
        -- cbn [rows]. unfold row. rewrite <- !app_assoc. reflexivity.
        -- rewrite length_app. reflexivity.
      * exists (nl ++ rows (second :: rest) ++ tail). split.
        -- rewrite rows_cons. unfold row. rewrite <- !app_assoc. reflexivity.
        -- rewrite length_app. reflexivity.
    + destruct rest as [|second rest]; [destruct i; discriminate|].
      cbn [nth_error entryOffsets] in Hi, Hp.
      rewrite rows_cons.
      replace (head ++ (row first ++ nl ++ rows (second :: rest)) ++ tail)
        with ((head ++ row first ++ nl) ++ rows (second :: rest) ++ tail)
        by (rewrite <- !app_assoc; reflexivity).
      apply IH with (i := i); [assumption|].
      rewrite !length_app. simpl length at 3.
      now rewrite Nat.add_assoc.
Qed.

(** The entries follow one another in the order of the items. *)
Lemma entries_ordered (l : list OrderItem) :
  forall (start i : nat) (item : OrderItem) (p q : nat),
    nth_error l i = Some item ->
    nth_error (entryOffsets start l) i = Some p ->
    nth_error (entryOffsets start l) (S i) = Some q ->
    p + length (entry item) < q.
Proof.
  induction l as [|first rest IH]; intros start i item p q Hi Hp Hq.
  - destruct i; discriminate.
  - destruct i as [|i].
    + injection Hi as ->. injection Hp as <-.
      destruct rest as [|second rest]; [discriminate|].
      cbn [entryOffsets nth_error] in Hq.
      assert (E : q = start + length (row item) + 1 + 4) by congruence.
      rewrite E, length_row. lia.
    + simpl in Hi, Hp, Hq. eapply IH; eassumption.
Qed.

(** Counting the places where a text begins. *)
Lemma startsWith_longer (needle a b : jsstr) :
  startsWith needle a = true -> startsWith needle (a ++ b) = true.
Proof.
  revert a. induction needle as [|c needle IH]; intros a H; [reflexivity|].
  destruct a as [|d a]; [discriminate|].
  cbn [startsWith app] in *. apply andb_true_iff in H. destruct H as [-> H].
  exact (IH _ H).
Qed.

Lemma occurrences_app (needle a b : jsstr) :
  occurrences needle a + occurrences needle b <= occurrences needle (a ++ b).
Proof.
  induction a as [|c a IH]; [reflexivity|].
  cbn [app occurrences].
  destruct (startsWith needle (c :: a)) eqn:E.
  - change (c :: a ++ b) with ((c :: a) ++ b).
    rewrite (startsWith_longer _ _ b E). lia.
  - destruct (startsWith needle (c :: a ++ b)); lia.
Qed.

Lemma occurrences_here (needle pre post : jsstr) :
  needle <> [] -> 1 <= occurrences needle (pre ++ needle ++ post).
Proof.
  intro Hne. induction pre as [|c pre IH].
  - destruct needle as [|c needle]; [contradiction|].
    cbn [app occurrences].
    change (c :: needle ++ post) with ((c :: needle) ++ post).
    rewrite startsWith_app. lia.
  - cbn [app occurrences]. lia.
Qed.

Lemma entry_not_empty (item : OrderItem) : entry item <> [].
Proof.
  unfold entry. intro E. apply (f_equal (@length N)) in E.
  rewrite !length_app in E.
  replace (length `"x ") with 2 in E by (vm_compute; reflexivity).
  simpl in E. lia.
Qed.

Lemma listed_cons (e : jsstr) (item : OrderItem) (l : list OrderItem) :
  listed e (item :: l)
  = (if list_eq_dec N.eq_dec (entry item) e then 1 else 0) + listed e l.
Proof.
  unfold listed. cbn [map count_occ].
  destruct (list_eq_dec N.eq_dec (entry item) e); reflexivity.
Qed.

Lemma occurrences_row (e : jsstr) (item : OrderItem) :
  (if list_eq_dec N.eq_dec (entry item) e then 1 else 0)
  <= occurrences e (row item).
Proof.
  destruct (list_eq_dec N.eq_dec (entry item) e) as [<-|_]; [|lia].
  unfold row.
  rewrite <- (app_nil_r (entry item)) at 2.
  apply occurrences_here, entry_not_empty.
Qed.

(** An entry is in the lines of the items as often as it is listed, at
    the least. *)
Lemma occurrences_rows (e : jsstr) (l : list OrderItem) :
  listed e l <= occurrences e (rows l).
Proof.
  induction l as [|first rest IH]; [reflexivity|].
  rewrite listed_cons. pose proof (occurrences_row e first) as Hrow.
  destruct rest as [|second rest].
  - cbn [rows]. change (listed e []) with 0. lia.
  - rewrite rows_cons.
    pose proof (occurrences_app e (row first) (nl ++ rows (second :: rest))).
    pose proof (occurrences_app e nl (rows (second :: rest))).
    lia.
Qed.

Lemma occurrences_message (w : World) (order : PickupOrderRequest) (e : jsstr) :
  listed e (items order) <= occurrences e (formatPickupOrderMessage w order).
Proof.
  rewrite formatPickupOrderMessage_rows.
  pose proof (occurrences_rows e (items order)).
  pose proof (occurrences_app e (beforeItems w order)
                (rows (items order)
                   ++ nl ++ notesBlock order ++ nl ++ closingLine w)).
  pose proof (occurrences_app e (rows (items order))
                (nl ++ notesBlock order ++ nl ++ closingLine w)).
  lia.
Qed.

Lemma bullets_app (a b : jsstr) : bullets (a ++ b) = bullets a + bullets b.
Proof. apply count_occ_app. Qed.

Lemma bullets_number (z : Z) : bullets (numberToString z) = 0.
Proof.
  apply count_occ_not_In. intro H.
  pose proof (proj1 (Forall_forall _ _) (numberToString_plain z) _ H) as E.
  discriminate E.
Qed.

Lemma bullets_itemLine (item : OrderItem) :
  bullets (itemLine item) = 1 + bullets (name item).
Proof.
  unfold itemLine. rewrite !bullets_app, bullets_number. reflexivity.
Qed.

Lemma bullets_itemsList (l : list OrderItem) :
  bullets (join nl (map itemLine l))
  = length l + bullets (concat (map name l)).
Proof.
  induction l as [|first rest IH]; [reflexivity|].
  destruct rest as [|second rest].
  - simpl. rewrite bullets_itemLine, app_nil_r. lia.
  - change (map itemLine (first :: second :: rest))
      with (itemLine first :: map itemLine (second :: rest)).
    rewrite join_cons by discriminate.
    rewrite !bullets_app, IH, bullets_itemLine.
    change (concat (map name (first :: second :: rest)))
      with (name first ++ concat (map name (second :: rest))).
    rewrite bullets_app. simpl length.
    change (bullets nl) with 0. lia.
Qed.

Lemma bullets_message (w : World) (order : PickupOrderRequest) :
  bullets (formatPickupOrderMessage w order)
  = length (items order) + bullets (suppliedText w order).
Proof.
  rewrite formatPickupOrderMessage_shape.
  unfold beforeItems, closingLine, suppliedText, itemsList.
  rewrite !bullets_app, bullets_itemsList.
  change (bullets basket) with 0. change (bullets nl) with 0.
  change (bullets clipboard) with 0. change (bullets pin) with 0.
  change (bullets alarm) with 0. change (bullets package) with 0.
  replace (bullets `" *NEW PICKUP ORDER*") with 0 by (vm_compute; reflexivity).
  replace (bullets `" *Customer:* ") with 0 by (vm_compute; reflexivity).
  replace (bullets `" *Address:* ") with 0 by (vm_compute; reflexivity).
  replace (bullets `" *Preferred Pickup:* ") with 0
    by (vm_compute; reflexivity).
  replace (bullets `" *Items:*") with 0 by (vm_compute; reflexivity).
  replace (bullets `"_Order received at ") with 0 by (vm_compute; reflexivity).
  replace (bullets `"_") with 0 by (vm_compute; reflexivity).
  lia.
Qed.

Lemma message_includes_pickup_time (w : World) (order : PickupOrderRequest) :
  includes (formatPickupOrderMessage w order)
    (pickupTimeFormatted w ShortStyle `"Not specified" (pickupDateTime order))
  = true.
Proof.
  rewrite formatPickupOrderMessage_shape. unfold beforeItems.
  rewrite <- !app_assoc. do 14 apply includes_app_r. apply includes_here.
Qed.

End FormatterFacts.

(** C8 as it is written fails: an order may list the same item twice,
    and the message then has the entry of that item twice. *)
Lemma formatPickupOrderMessage_entry_twice :
  let w := Scenario.world (fun _ => Pending) (fun _ => FetchRejected NonError) in
  let shirt := {| name := `"Shirt"; quantity := 2 |} in
  let message := Formatter.formatPickupOrderMessage w Scenario.shirtsTwice in
  In shirt (items Scenario.shirtsTwice)
  /\ entry shirt = `"2x Shirt"
  /\ occurrences (entry shirt) message = 2
  /\ occurrences (name shirt) message = 2.
Proof.
  cbv zeta. split; [now left|]. vm_compute. repeat split.
Qed.

(** C8, amended.  For every order, the message of
    [formatPickupOrderMessage] is its heading, then one line per item
    of the input list, in the order of the list and with nothing in
    between (two spaces, a bullet, a space, the quantity, "x " and the
    name), then the notes and the closing line.  So the entry of every
    item is in the message at an offset of its own, the offsets grow
    with the position of the item in the list and the entries do not
    overlap; an entry is in the message as often as it is listed, at
    the least; and the message has one bullet per item, on top of the
    bullets of the text the order itself supplies.  A [pickupDateTime]
    that does not parse as a date is in the message as it was given
    (the formatter is a total function: it does not throw), and an
    absent one gives the placeholder "Not specified". *)
Theorem formatPickupOrderMessage_contents (w : World) (order : PickupOrderRequest) :
  let message := Formatter.formatPickupOrderMessage w order in
  let offsets := entryOffsets (length (beforeItems w order)) (items order) in
  message
  = beforeItems w order ++ rows (items order) ++ Formatter.nl
      ++ Formatter.notesBlock order ++ Formatter.nl ++ closingLine w
  /\ length offsets = length (items order)
  /\ (forall i item p,
        nth_error (items order) i = Some item ->
        nth_error offsets i = Some p ->
        occursAt (entry item) message p)
  /\ (forall i item p q,
        nth_error (items order) i = Some item ->
        nth_error offsets i = Some p ->
        nth_error offsets (S i) = Some q ->
        p + length (entry item) < q)
  /\ (forall item,
        In item (items order) ->
        1 <= listed (entry item) (items order)
        /\ listed (entry item) (items order)
           <= occurrences (entry item) message)
  /\ bullets message = length (items order) + bullets (suppliedText w order)
  /\ (forall s,
        pickupDateTime order = Some s -> Date_parse w s = None ->
        includes message s = true)
  /\ (pickupDateTime order = None ->
      includes message `"Not specified" = true).
Proof.
  cbv zeta.
  split; [apply formatPickupOrderMessage_rows|].
  split; [apply length_entryOffsets|].
  split.
  { intros i item p Hi Hp. rewrite formatPickupOrderMessage_rows.
    now apply entries_occur with (i := i). }
  split; [intros i item p q; apply entries_ordered|].
  split.
  { intros item Hin. split; [|apply occurrences_message].
    unfold listed. apply count_occ_In. now apply in_map. }
  split; [apply bullets_message|].
  split.
  - intros s Hs Hparse.
    pose proof (message_includes_pickup_time w order) as H.
    rewrite Hs in H. unfold Formatter.pickupTimeFormatted in H.
    destruct s as [|c s]; [now destruct (Formatter.formatPickupOrderMessage w order)|].
    now rewrite Hparse in H.
  - intro Hs. pose proof (message_includes_pickup_time w order) as H.
    now rewrite Hs in H.
Qed.

(** The message of the sample order. *)
Lemma formatPickupOrderMessage_contents_witness :
  let w := Scenario.world (fun _ => Pending) (fun _ => FetchRejected NonError) in
  let message := Formatter.formatPickupOrderMessage w Scenario.shirts in
  occursAt `"2x Shirt" message 128
  /\ occursAt `"1x Suit" message 141
  /\ 128 + length `"2x Shirt" < 141
  /\ 1 <= occurrences `"2x Shirt" message
  /\ includes message `"not-a-date" = true.
Proof.
  intros w message.
  pose proof (formatPickupOrderMessage_contents w Scenario.shirts) as H.
  cbv zeta in H. destruct H as (_ & _ & Hat & Hlt & Hoften & _ & Hraw & _).
  split; [|split; [|split; [|split]]].
  - exact (Hat 0 {| name := `"Shirt"; quantity := 2 |} 128 eq_refl eq_refl).
  - exact (Hat 1 {| name := `"Suit"; quantity := 1 |} 141 eq_refl eq_refl).
  - exact (Hlt 0 {| name := `"Shirt"; quantity := 2 |} 128 141
             eq_refl eq_refl eq_refl).
  - destruct (Hoften {| name := `"Shirt"; quantity := 2 |} (or_introl eq_refl))
      as [Hone Hle].
    exact (Nat.le_trans _ _ _ Hone Hle).
  - exact (Hraw `"not-a-date" eq_refl eq_refl).
Defined.

Section ClosingLineFacts.

Import Formatter.

Lemma afterLineBreak_app (a b : jsstr) :
  singleLine a = true -> afterLineBreak (a ++ 10%N :: b) = b.
Proof.
  induction a as [|c a IH]; simpl; [reflexivity|].
  intro H. apply andb_true_iff in H. destruct H as [Hc Ha].
  apply negb_true_iff in Hc. rewrite Hc. now apply IH.
Qed.

Lemma firstLine_app (a b : jsstr) :
  singleLine a = true -> firstLine (a ++ 10%N :: b) = a.
Proof.
  induction a as [|c a IH]; simpl; [reflexivity|].
  intro H. apply andb_true_iff in H. destruct H as [Hc Ha].
  apply negb_true_iff in Hc. rewrite Hc. now rewrite IH.
Qed.

Lemma singleLine_rev (s : jsstr) : singleLine (rev s) = singleLine s.
Proof.
  unfold singleLine. induction s as [|c s IH]; [reflexivity|].
  simpl. rewrite forallb_app, IH. simpl. rewrite andb_true_r.
  apply andb_comm.
Qed.

Lemma withoutLastLine_app (a t : jsstr) :
  singleLine t = true -> withoutLastLine (a ++ nl ++ t) = a.
Proof.
  intro H. unfold withoutLastLine, nl.
  rewrite !rev_app_distr. simpl rev. rewrite <- app_assoc. simpl app.
  rewrite afterLineBreak_app by now rewrite singleLine_rev.
  apply rev_involutive.
Qed.

Lemma lastLine_app (a t : jsstr) :
  singleLine t = true -> lastLine (a ++ nl ++ t) = t.
Proof.
  intro H. unfold lastLine, nl.
  rewrite !rev_app_distr. simpl rev. rewrite <- app_assoc. simpl app.
  rewrite firstLine_app by now rewrite singleLine_rev.
  apply rev_involutive.
Qed.

Lemma singleLine_closingLine (w : World) :
  singleLine (new_Date_toLocaleString w) = true ->
  singleLine (closingLine w) = true.
Proof.
  intro H. unfold closingLine, singleLine.
  rewrite !forallb_app. fold (singleLine (new_Date_toLocaleString w)).
  rewrite H. reflexivity.
Qed.

Lemma formatPickupOrderMessage_sections (w : World) (order : PickupOrderRequest) :
  formatPickupOrderMessage w order
  = (customerAndAddress order ++ preferredPickup w order ++ itemsAndNotes order)
      ++ nl ++ closingLine w.
Proof.
  unfold formatPickupOrderMessage, customerAndAddress, preferredPickup,
    itemsAndNotes, closingLine.
  cbv zeta. rewrite <- !app_assoc. reflexivity.
Qed.

End ClosingLineFacts.

(** C9. Two calls of [formatPickupOrderMessage] on the same order, at
    two readings of the clock: the message is made of the section of the
    customer and the address, the preferred pickup, the section of the
    items and the notes, and the closing line, and only the last depends
    on the clock.  With the same date library and a time stamp of one
    line, the two messages are equal up to their last line, which is
    the "Order received at" line of each call. *)
Theorem formatPickupOrderMessage_twice
    (w1 w2 : World) (order : PickupOrderRequest) :
  let m1 := Formatter.formatPickupOrderMessage w1 order in
  let m2 := Formatter.formatPickupOrderMessage w2 order in
  m1 = (customerAndAddress order ++ preferredPickup w1 order
          ++ itemsAndNotes order) ++ Formatter.nl ++ closingLine w1
  /\ m2 = (customerAndAddress order ++ preferredPickup w2 order
             ++ itemsAndNotes order) ++ Formatter.nl ++ closingLine w2
  /\ (preferredPickup w1 order = preferredPickup w2 order ->
      singleLine (new_Date_toLocaleString w1) = true ->
      singleLine (new_Date_toLocaleString w2) = true ->
      withoutLastLine m1 = withoutLastLine m2
      /\ lastLine m1 = closingLine w1
      /\ lastLine m2 = closingLine w2).
Proof.
  cbv zeta. rewrite !formatPickupOrderMessage_sections.
  split; [reflexivity|]. split; [reflexivity|].
  intros Htime H1 H2.
  apply singleLine_closingLine in H1, H2.
  rewrite !withoutLastLine_app, !lastLine_app by assumption.
  rewrite Htime. repeat split.
Qed.

(** The sample order at two readings of the clock. *)
Lemma formatPickupOrderMessage_twice_witness :
  let w1 := Scenario.world (fun _ => Pending) (fun _ => FetchRejected NonError) in
  let w2 := Scenario.at_time w1 `"4/30/2024, 9:15:03 PM" in
  withoutLastLine (Formatter.formatPickupOrderMessage w1 Scenario.shirts)
  = withoutLastLine (Formatter.formatPickupOrderMessage w2 Scenario.shirts)
  /\ lastLine (Formatter.formatPickupOrderMessage w1 Scenario.shirts)
     = `"_Order received at 4/30/2024, 9:15:02 PM_"
  /\ lastLine (Formatter.formatPickupOrderMessage w2 Scenario.shirts)
     = `"_Order received at 4/30/2024, 9:15:03 PM_".
Proof.
  intros w1 w2.
  exact (proj2 (proj2 (formatPickupOrderMessage_twice w1 w2 Scenario.shirts))
           eq_refl eq_refl eq_refl).
Defined.

(** ** The order schema *)

Section SchemaFacts.

Import Json Zod Intake.

Lemma isValid_inv (r : ParseReturn) :
  isValid r = true -> exists v, r = Parsed (Some v) [].
Proof.
  destruct r as [e|[v|] [|i issues]]; try discriminate. intros _. now exists v.
Qed.

Lemma parseShape_valid (shape : list (jsstr * ZodType)) (p : list PathSeg)
    (data : value) :
  isValid (fst (parseShape shape p data)) = true ->
  Forall (fun ks => isValid (snd ks (p ++ [Key (fst ks)]) (get (fst ks) data))
                    = true) shape.
Proof.
  induction shape as [|[k schema] shape IH]; intro H; constructor.
  - simpl in *.
    destruct (schema (p ++ [Key k]) (get k data)) as [e|v issues];
      [discriminate|].
    destruct (parseShape shape p data) as [[e|v' issues'] ms];
      [discriminate|].
    simpl in H. destruct v, v', issues; try discriminate. reflexivity.
  - apply IH. simpl in H.
    destruct (schema (p ++ [Key k]) (get k data)) as [e|v issues];
      [discriminate|].
    destruct (parseShape shape p data) as [[e|v' issues'] ms];
      [discriminate|].
    simpl in *. destruct v, v', issues, issues'; try discriminate. reflexivity.
Qed.

Lemma parseElements_valid (schema : ZodType) (p : list PathSeg) (l : list value) :
  forall i,
    isValid (fst (parseElements schema p i l)) = true ->
    Forall (fun x => exists p', isValid (schema p' x) = true) l.
Proof.
  induction l as [|x l IH]; intros i H; constructor.
  - exists (p ++ [Index i]). simpl in H.
    destruct (schema (p ++ [Index i]) x) as [e|v issues]; [discriminate|].
    destruct (parseElements schema p (S i) l) as [[e|v' issues'] vs];
      [discriminate|].
    simpl in H. destruct v, v', issues; try discriminate. reflexivity.
  - apply (IH (S i)). simpl in H.
    destruct (schema (p ++ [Index i]) x) as [e|v issues]; [discriminate|].
    destruct (parseElements schema p (S i) l) as [[e|v' issues'] vs];
      [discriminate|].
    simpl in *. destruct v, v', issues, issues'; try discriminate. reflexivity.
Qed.

Lemma object_valid (shape : list (jsstr * ZodType)) (p : list PathSeg)
    (data : value) :
  isValid (object shape p data) = true ->
  isValid (fst (parseShape shape p data)) = true.
Proof.
  unfold object. destruct data; try discriminate.
  destruct (parseShape shape p (Obj members)) as [[e|[v|] [|i issues]] ms];
    try discriminate.
  reflexivity.
Qed.

Lemma string_min_valid (msg : jsstr) (p : list PathSeg) (data : value) :
  isValid (string_min 1 msg p data) = true ->
  exists s, data = Str s /\ s <> [].
Proof.
  unfold string_min. destruct data; try discriminate.
  destruct s as [|c s]; [discriminate|].
  intros _. eexists. split; [reflexivity|discriminate].
Qed.

Lemma array_min_valid (schema : ZodType) (msg : jsstr) (p : list PathSeg)
    (data : value) :
  isValid (array_min schema 1 msg p data) = true ->
  exists l, data = Arr l /\ l <> []
            /\ Forall (fun x => exists p', isValid (schema p' x) = true) l.
Proof.
  unfold array_min. destruct data; try discriminate.
  intro H. exists elements. split; [reflexivity|].
  destruct (parseElements schema p 0 elements) as [[e|v issues] vs] eqn:E;
    [discriminate|].
  split.
  - destruct elements; [|discriminate]. simpl in H. now destruct v.
  - apply parseElements_valid with (p := p) (i := 0). rewrite E. simpl.
    destruct v as [v|]; destruct (length elements <? 1)%nat, issues;
      try discriminate; reflexivity.
Qed.

Lemma or_valid (a b : ZodType) (p : list PathSeg) (data : value) :
  isValid (or a b p data) = true ->
  isValid (a p data) = true \/ isValid (b p data) = true.
Proof.
  unfold or.
  destruct (a p data) as [e|va ia] eqn:Ea; [discriminate|].
  destruct (isValid (Parsed va ia)) eqn:Va; [now left|].
  destruct (b p data) as [e|vb ib] eqn:Eb; [discriminate|].
  destruct (isValid (Parsed vb ib)) eqn:Vb; [now right|].
  destruct (isDirty (Parsed va ia)); [congruence|].
  destruct (isDirty (Parsed vb ib)); [congruence|].
  discriminate.
Qed.

Lemma quantity_valid (p : list PathSeg) (data : value) :
  isValid (or (number_int_positive `"Quantity must be a positive integer")
              (string_transform quantityOfString) p data) = true ->
  acceptableQuantity data.
Proof.
  intro H. apply or_valid in H. destruct H as [H|H].
  - left. unfold number_int_positive in H. destruct data; try discriminate.
    exists q. destruct (isInteger q), (Qle_bool q 0); try discriminate.
    now repeat split.
  - right. unfold string_transform, quantityOfString in H.
    destruct data; try discriminate.
    destruct (parseInt10 s) as [n|] eqn:E; [|discriminate].
    destruct (Z.leb_spec n 0); [discriminate|].
    now exists s, n.
Qed.

Lemma itemSchema_valid (p : list PathSeg) (data : value) :
  isValid (itemSchema p data) = true -> acceptableItem data.
Proof.
  intro H. apply object_valid, parseShape_valid in H.
  inversion H as [|? ? Hname H']; subst. inversion H' as [|? ? Hq _]; subst.
  split.
  - now apply string_min_valid in Hname.
  - now apply quantity_valid in Hq.
Qed.

(** The schema accepts a body only if it has the required members. *)
Lemma orderSchema_accepts_only (body : value) :
  isValid (orderSchema [] body) = true -> acceptableOrder body.
Proof.
  intro H. apply object_valid, parseShape_valid in H.
  inversion H as [|? ? Hname H1]; subst.
  inversion H1 as [|? ? Haddress H2]; subst.
  inversion H2 as [|? ? _ H3]; subst.
  inversion H3 as [|? ? Hitems _]; subst.
  repeat split.
  - now apply string_min_valid in Hname.
  - now apply string_min_valid in Haddress.
  - apply array_min_valid in Hitems.
    destruct Hitems as (l & Hl & Hne & Hall). exists l. repeat split; trivial.
    eapply Forall_impl; [|exact Hall].
    intros x [p' Hx]. now apply itemSchema_valid in Hx.
Qed.

Lemma safeParse_success (schema : ZodType) (body data : value) (st st' : Store) :
  safeParse schema body st = (Normal (SafeParseSuccess data), st') ->
  isValid (schema [] body) = true.
Proof.
  unfold safeParse.
  destruct (schema [] body) as [e|[v|] [|i issues]]; try discriminate;
    reflexivity.
Qed.

Variable w : World.

(** The serverless handler lets a request through only if its body,
    parsed when it came as text, has the required members. *)
Lemma validate_accepts_only (req : Request) (order : PickupOrderRequest)
    (st st' : Store) :
  validate w req st = (Normal (inr order), st') ->
  method req = `"POST"
  /\ exists parsed,
       (parsed = body req
        \/ exists s, body req = Str s /\ JSON_parse w s = Some parsed)
       /\ acceptableOrder parsed.
Proof.
  unfold validate.
  unfold str_eqb. destruct (list_eq_dec N.eq_dec (method req) `"POST") as [Hm|Hm];
    [|discriminate].
  cbn [negb]. intro H. split; [assumption|].
  assert (P : exists parsed,
             (parsed = body req
              \/ exists s, body req = Str s /\ JSON_parse w s = Some parsed)
             /\ exists data, safeParse orderSchema parsed st
                             = (Normal (SafeParseSuccess data), st')).
  { destruct (falsy (body req)).
    - exfalso. revert H. run. vm_compute. discriminate.
    - destruct (body req) as [| |b|q|s|l|m] eqn:B; try discriminate H.
      + destruct (JSON_parse w s) as [parsed|] eqn:J; [|discriminate H].
        exists parsed. split; [right; now exists s|].
        destruct parsed; try discriminate H.
        revert H. run.
        destruct (safeParse orderSchema (Obj members) st)
          as [[[data|errors]|e] st1]; try discriminate.
        intro H. exists data.
        repeat split_head_in H; try discriminate H;
          now injection H as _ ->.
      + exists (Obj m). split; [now left|].
        revert H. run.
        destruct (safeParse orderSchema (Obj m) st)
          as [[[data|errors]|e] st1]; try discriminate.
        intro H. exists data.
        repeat split_head_in H; try discriminate H;
          now injection H as _ ->. }
  destruct P as (parsed & Hparsed & data & Hdata).
  exists parsed. split; [assumption|].
  eapply orderSchema_accepts_only, safeParse_success, Hdata.
Qed.

(** When the schema reports issues, the serverless handler answers 400
    and prints every issue behind the path of its field. *)
Lemma validate_prints_issues (body : value) (errors : list ZodIssue)
    (members : list (jsstr * value)) (st st' : Store) :
  body = Obj members ->
  safeParse orderSchema body st = (Normal (SafeParseError errors), st') ->
  validate w {| method := `"POST"; body := body |} st
  = (Normal (inl (rejected 400 None
                    (`"Validation failed: "
                     ++ join `", " (map printIssue errors)))),
     st').
Proof.
  intros -> H. unfold validate. cbn [method Intake.body falsy].
  change (str_eqb `"POST" `"POST") with true. cbn [negb]. run.
  rewrite H. reflexivity.
Qed.

End SchemaFacts.

Section EmptyItems.

Import Json Zod Intake.

Lemma in_join_includes (sep x : jsstr) (l : list jsstr) :
  In x l -> includes (join sep l) x = true.
Proof.
  induction l as [|y l IH]; [contradiction|].
  intros [->|H].
  - destruct l; [simpl; rewrite <- (app_nil_r x) at 1; apply includes_here|].
    change (join sep (x :: j :: l)) with (x ++ sep ++ join sep (j :: l)).
    apply includes_here.
  - destruct l as [|z l]; [contradiction|].
    change (join sep (y :: z :: l)) with (y ++ sep ++ join sep (z :: l)).
    now apply includes_app_r, includes_app_r, IH.
Qed.

Lemma parseShape_issues (shape : list (jsstr * ZodType)) (p : list PathSeg)
    (data : value) :
  Forall (fun ks => exists v i,
            snd ks (p ++ [Key (fst ks)]) (get (fst ks) data) = Parsed v i)
    shape ->
  exists v ms,
    parseShape shape p data
    = (Parsed v
         (flat_map (fun ks => issuesOf (snd ks (p ++ [Key (fst ks)])
                                          (get (fst ks) data))) shape),
       ms).
Proof.
  induction 1 as [|[k schema] shape (v & i & E) _ (v' & ms & IH)].
  - now exists (Some Undefined), [].
  - simpl in *. rewrite E, IH. simpl. eauto.
Qed.

Lemma object_issues (shape : list (jsstr * ZodType)) (p : list PathSeg)
    (members : list (jsstr * value)) :
  Forall (fun ks => exists v i,
            snd ks (p ++ [Key (fst ks)]) (get (fst ks) (Obj members))
            = Parsed v i)
    shape ->
  exists v,
    object shape p (Obj members)
    = Parsed v
        (flat_map (fun ks => issuesOf (snd ks (p ++ [Key (fst ks)])
                                         (get (fst ks) (Obj members)))) shape).
Proof.
  intro H. destruct (@parseShape_issues shape p (Obj members) H) as (v & ms & E).
  unfold object. rewrite E. destruct v; eauto.
Qed.

Lemma string_min_returns (n : nat) (msg : jsstr) (p : list PathSeg)
    (data : value) :
  exists v i, string_min n msg p data = Parsed v i.
Proof. unfold string_min, invalid_type. destruct data; eauto. Qed.

Lemma optional_string_returns (p : list PathSeg) (data : value) :
  exists v i, optional string_ p data = Parsed v i.
Proof. unfold optional, string_, invalid_type. destruct data; eauto. Qed.

Lemma safeParse_issues (schema : ZodType) (body : value) (v : option value)
    (first : ZodIssue) (rest : list ZodIssue) (st : Store) :
  schema [] body = Parsed v (first :: rest) ->
  safeParse schema body st = (Normal (SafeParseError (first :: rest)), st).
Proof. unfold safeParse. intros ->. now destruct v. Qed.

(** A body without items is answered 400, with a message that names
    the member and says "At least one item is required". *)
Lemma empty_items_answer (w : World) (members : list (jsstr * value))
    (st : Store) :
  get `"items" (Obj members) = Arr [] ->
  exists text,
    handler w {| method := `"POST"; body := Obj members |} st
    = (Normal (rejected 400 None text), st)
    /\ includes text `"items: At least one item is required" = true.
Proof.
  intro Hitems.
  set (missing := {| path := [Key `"items"];
                     message := `"At least one item is required" |}).
  assert (Hschema : exists v issues,
             orderSchema [] (Obj members) = Parsed v issues
             /\ In missing issues).
  { destruct (@object_issues
                [ (`"customerName", string_min 1 `"Customer name is required");
                  (`"pickupAddress", string_min 1 `"Pickup address is required");
                  (`"pickupDateTime", optional string_);
                  (`"items", array_min itemSchema 1 `"At least one item is required");
                  (`"customerNotes", optional string_);
                  (`"customerPhone", optional string_) ] [] members)
      as (v & E).
    - repeat constructor; cbn [fst snd];
        try apply string_min_returns; try apply optional_string_returns.
      rewrite Hitems. eexists. eexists. reflexivity.
    - exists v. eexists. split; [exact E|].
      apply in_flat_map.
      exists (`"items", array_min itemSchema 1 `"At least one item is required").
      split; [simpl; tauto|].
      cbn [fst snd]. rewrite Hitems. left. reflexivity. }
  destruct Hschema as (v & issues & Hschema & Hin).
  destruct issues as [|first rest]; [contradiction|].
  exists (`"Validation failed: " ++ join `", " (map printIssue (first :: rest))).
  split.
  - unfold handler. run.
    rewrite (@validate_prints_issues w (Obj members) (first :: rest) members
               st st eq_refl
               (@safeParse_issues orderSchema (Obj members) v first rest st
                  Hschema)).
    reflexivity.
  - apply includes_app_r.
    replace `"items: At least one item is required" with (printIssue missing)
      by (vm_compute; reflexivity).
    apply in_join_includes, in_map, Hin.
Qed.

End EmptyItems.

(** ** Order intake *)


Section HandlerFacts.

Import Gateway Intake.

Variable w : World.

(** The hardened handler on a failed critical send: the reply is made
    of the order id alone, and the error of the gateway goes to the
    console. *)
Lemma handler_critical_failure
    (req : Request) (order : PickupOrderRequest) (st st1 st2 : Store)
    (r : WhatsAppResponse) :
  validate w req st = (Normal (inr order), st1) ->
  sendPickupOrderToDryCleaner w order st1 = (Normal r, st2) ->
  success r = false ->
  handler w req st
  = (Normal
       (rejected 500 (Some (generateOrderId w))
          (`"Failed to send order notification. Please contact support with order ID: "
           ++ generateOrderId w)),
     {| calls := calls st2;
        console :=
          console st2
          ++ [{| log_level := LogError;
                 log_label := `"Failed to send order to dry cleaner:";
                 log_orderId := Some (generateOrderId w);
                 log_error := error r |}] |}).
Proof.
  intros Hvalid Hsend Hfail. unfold handler, notify. run.
  rewrite Hvalid, Hsend, Hfail. reflexivity.
Qed.

(** The Express handler on a failed critical send: the reply repeats
    the error of the gateway. *)
Lemma handlePickupOrder_critical_failure
    (req : Request) (order : PickupOrderRequest) (st st1 st2 : Store)
    (r : WhatsAppResponse) (e : jsstr) :
  validatePickupOrder req st = (Normal (inr order), st1) ->
  sendPickupOrderToDryCleaner w order st1 = (Normal r, st2) ->
  success r = false ->
  error r = Some e ->
  handlePickupOrder w req st
  = (Normal
       (rejected 500 (Some (generateOrderId w))
          (`"Failed to send order to dry cleaner: " ++ e)),
     st2).
Proof.
  intros Hvalid Hsend Hfail Herror. unfold handlePickupOrder, notifyPickupOrder.
  run. rewrite Hvalid, Hsend, Hfail, Herror. reflexivity.
Qed.

(** After a successful critical send, both handlers answer 200
    whatever the confirmation does. *)
Lemma notify_accepts
    (order : PickupOrderRequest) (st st1 : Store) (r : WhatsAppResponse) :
  sendPickupOrderToDryCleaner w order st = (Normal r, st1) ->
  success r = true ->
  fst (notify w order st)
  = Normal (accepted (generateOrderId w) (messageId r)).
Proof.
  intros Hsend Hok. unfold notify. run. rewrite Hsend, Hok. cbn [negb].
  repeat split_head; reflexivity.
Qed.

(** The Express handler has no [try] around the confirmation: it
    answers 200 when the confirmation returns, with whatever result,
    and is left by the exception when the confirmation throws. *)
Lemma notifyPickupOrder_accepts
    (order : PickupOrderRequest) (st st1 : Store) (r : WhatsAppResponse) :
  sendPickupOrderToDryCleaner w order st = (Normal r, st1) ->
  success r = true ->
  fst (notifyPickupOrder w order st)
  = if present (customerPhone order) then
      match fst (sendCustomerConfirmation w
                   (orElse (customerPhone order) []) (customerName order)
                   (orElse (pickupDateTime order) []) st1) with
      | Normal _ => Normal (accepted (generateOrderId w) (messageId r))
      | Abrupt e => Abrupt e
      end
    else Normal (accepted (generateOrderId w) (messageId r)).
Proof.
  intros Hsend Hok. unfold notifyPickupOrder. run. rewrite Hsend, Hok.
  cbn [negb].
  destruct (present (customerPhone order)); [|reflexivity].
  destruct (sendCustomerConfirmation w _ _ _ st1) as [[c|e] st2]; reflexivity.
Qed.

(** The serverless handler answers 200 after a dry-cleaner send that
    succeeded, whatever the confirmation does: a result that reports a
    failure, or an exception. *)
Lemma handler_confirmation_not_critical
    (req : Request) (order : PickupOrderRequest) (st st1 st2 : Store)
    (r : WhatsAppResponse) :
  validate w req st = (Normal (inr order), st1) ->
  sendPickupOrderToDryCleaner w order st1 = (Normal r, st2) ->
  success r = true ->
  fst (handler w req st)
  = Normal (accepted (generateOrderId w) (messageId r)).
Proof.
  intros Hvalid Hsend Hok.
  pose proof (notify_accepts order st1 Hsend Hok) as H.
  unfold handler. run. rewrite Hvalid.
  destruct (notify w order st1) as [[reply|e] st']; simpl in H.
  - now injection H as ->.
  - discriminate H.
Qed.

(** The Express handler answers 200 when the confirmation returns a
    result that reports a failure. *)
Lemma handlePickupOrder_confirmation_result
    (req : Request) (order : PickupOrderRequest) (st st1 st2 st3 : Store)
    (r c : WhatsAppResponse) :
  validatePickupOrder req st = (Normal (inr order), st1) ->
  sendPickupOrderToDryCleaner w order st1 = (Normal r, st2) ->
  success r = true ->
  sendCustomerConfirmation w (orElse (customerPhone order) [])
    (customerName order) (orElse (pickupDateTime order) []) st2
  = (Normal c, st3) ->
  fst (handlePickupOrder w req st)
  = Normal (accepted (generateOrderId w) (messageId r)).
Proof.
  intros Hvalid Hsend Hok Hconfirm.
  pose proof (notifyPickupOrder_accepts order st1 Hsend Hok) as H.
  rewrite Hconfirm in H. cbn [fst] in H.
  assert (H' : fst (notifyPickupOrder w order st1)
               = Normal (accepted (generateOrderId w) (messageId r)))
    by (rewrite H; now destruct (present (customerPhone order))).
  unfold handlePickupOrder. run. rewrite Hvalid.
  destruct (notifyPickupOrder w order st1) as [[reply|e] st']; simpl in H'.
  - now injection H' as ->.
  - discriminate H'.
Qed.

End HandlerFacts.

(** C5 fails on the Express handler.  The dry-cleaner send of a valid
    order with a customer phone succeeds, and the confirmation faults:
    the provider rejects it with an error that has no message, and the
    exception leaves the gateway.  The serverless handler, whose
    confirmation sits in a [try], answers 200 with the order id and the
    [messageId] of the dry-cleaner send; [handlePickupOrder], which has
    no [try] around it, answers 500.  Both have handed the order and
    the confirmation to the provider. *)
Theorem handlePickupOrder_confirmation_fault_answers_500 :
  let w := Scenario.muteLater in
  let req := Scenario.postRequest (Scenario.shirtsBody (Json.Num 2)) in
  let sent :=
    snd (Gateway.sendPickupOrderToDryCleaner w (Scenario.shirtsOrder 2)
           emptyStore) in
  fst (Gateway.sendPickupOrderToDryCleaner w (Scenario.shirtsOrder 2)
         emptyStore)
  = Normal {| success := true; messageId := Some `"SM1"; error := None |}
  /\ fst (Gateway.sendCustomerConfirmation w `"0788123456" `"Amahoro" [] sent)
     = Abrupt (ErrorObj
                 `"Cannot read properties of undefined (reading 'includes')")
  /\ fst (Intake.handlePickupOrder w req emptyStore)
     = Normal (Intake.rejected 500 None
                 `"Internal server error: Cannot read properties of undefined (reading 'includes')")
  /\ fst (Intake.handler w req emptyStore)
     = Normal (Intake.accepted `"ORD-LVMZR4K9-K3J9X2" (Some `"SM1"))
  /\ length (calls (snd (Intake.handlePickupOrder w req emptyStore))) = 2
  /\ length (calls (snd (Intake.handler w req emptyStore))) = 2.
Proof. vm_compute. repeat split. Qed.

(** C1 fails on the Express handler. Twilio rejects the dry-cleaner
    send of a valid order with a message of its own; [handlePickupOrder]
    answers 500 with the order id and puts that message, as the gateway
    returned it, into the [error] of the body.  The serverless handler
    answers the same request with the support message and the order id
    only (lemma [handler_critical_failure]). *)
Theorem handlePickupOrder_echoes_provider_error :
  let req := Scenario.postRequest (Scenario.shirtsBody (Json.Num 2)) in
  let reply := fst (Intake.handlePickupOrder Scenario.refusing req emptyStore) in
  reply
  = Normal (Intake.rejected 500 (Some `"ORD-LVMZR4K9-K3J9X2")
              (`"Failed to send order to dry cleaner: " ++ Scenario.regionError))
  /\ fst (Gateway.sendPickupOrderToDryCleaner Scenario.refusing
            (Scenario.shirtsOrder 2) emptyStore)
     = Normal (failure Scenario.regionError)
  /\ fst (Intake.handler Scenario.refusing req emptyStore)
     = Normal (Intake.rejected 500 (Some `"ORD-LVMZR4K9-K3J9X2")
                 `"Failed to send order notification. Please contact support with order ID: ORD-LVMZR4K9-K3J9X2").
Proof. vm_compute. repeat split. Qed.

(** C7 fails on a quantity that is a string and not a positive
    integer: the function given to [transform] throws, the exception
    leaves [safeParse], and the serverless handler answers 500 with its
    generic message, the Express handler 500 with the text of the
    exception; neither answers 400. *)
Theorem string_quantity_violation_answers_500 :
  let generic :=
    Intake.rejected 500 None
      `"An unexpected server error occurred. Please try again or contact support." in
  let text (q : jsstr) :=
    Scenario.postRequest (Scenario.shirtsBody (Json.Str q)) in
  fst (Intake.handler Scenario.flaky (text `"abc") emptyStore) = Normal generic
  /\ fst (Intake.handler Scenario.flaky (text `"0") emptyStore) = Normal generic
  /\ fst (Intake.handler Scenario.flaky (text `"-2") emptyStore) = Normal generic
  /\ fst (Intake.handlePickupOrder Scenario.flaky (text `"abc") emptyStore)
     = Normal (Intake.rejected 500 None
                 (`"Internal server error: " ++ Intake.quantityErrorText)).
Proof. vm_compute. repeat split. Qed.

(** The scenarios of the design document on the serverless handler. *)
Example empty_items_rejected :
  fst (Intake.handler Scenario.flaky
         (Scenario.postRequest
            (Json.Obj [ (`"customerName", Json.Str `"Amahoro");
                        (`"pickupAddress", Json.Str `"KG 11 Ave");
                        (`"items", Json.Arr []) ]))
         emptyStore)
  = Normal (Intake.rejected 400 None
              `"Validation failed: items: At least one item is required").
Proof. vm_compute. reflexivity. Qed.

Example numeric_string_coerced :
  fst (Intake.validate Scenario.flaky
         (Scenario.postRequest (Scenario.shirtsBody (Json.Str `" 3 shirts")))
         emptyStore)
  = Normal (inr (Scenario.shirtsOrder 3)).
Proof. vm_compute. reflexivity. Qed.

Example zero_quantity_rejected :
  fst (Intake.handler Scenario.flaky
         (Scenario.postRequest (Scenario.shirtsBody (Json.Num 0)))
         emptyStore)
  = Normal (Intake.rejected 400 None
              `"Validation failed: items.0.quantity: Quantity must be a positive integer").
Proof. vm_compute. reflexivity. Qed.

Example wrong_method_rejected :
  fst (Intake.handler Scenario.flaky
         {| Intake.method := `"GET"; Intake.body := Json.Undefined |} emptyStore)
  = Normal (Intake.rejected 405 None
              `"Method not allowed. Expected POST, got GET.").
Proof. vm_compute. reflexivity. Qed.

(** ** The scenarios of the design document, run on the embedding *)

(** Scenario 1: one item, no customer phone, the dry-cleaner send
    succeeds. *)
Example scenario_order_accepted :
  Intake.handler Scenario.flaky
    (Scenario.postRequest
       (Json.Obj [ (`"customerName", Json.Str `"Amahoro");
                   (`"pickupAddress", Json.Str `"KG 11 Ave");
                   (`"items", Json.Arr [ Json.Obj [ (`"name", Json.Str `"Suit");
                                                    (`"quantity", Json.Num 1) ] ]) ]))
    emptyStore
  = (Normal (Intake.accepted `"ORD-LVMZR4K9-K3J9X2" (Some `"SM1")),
     {| calls :=
          [ TwilioCreate `"whatsapp:+14155238886" `"whatsapp:+250792875310"
              (Formatter.basket ++ `" *NEW PICKUP ORDER*" ++ Formatter.nl
               ++ Formatter.nl
               ++ Formatter.clipboard ++ `" *Customer:* Amahoro" ++ Formatter.nl
               ++ Formatter.pin ++ `" *Address:* KG 11 Ave" ++ Formatter.nl
               ++ Formatter.alarm ++ `" *Preferred Pickup:* Not specified"
               ++ Formatter.nl ++ Formatter.nl
               ++ Formatter.package ++ `" *Items:*" ++ Formatter.nl
               ++ `"  " ++ Formatter.bullet ++ `" 1x Suit" ++ Formatter.nl
               ++ Formatter.nl
               ++ `"_Order received at 4/30/2024, 9:15:02 PM_") ];
        console := [] |}).
Proof. vm_compute. reflexivity. Qed.

(** A send that does not settle in 30 seconds. *)
Example twilio_timeout :
  fst (Gateway.sendWhatsAppMessageTwilio
         (Scenario.world (fun _ => Pending) (fun _ => FetchRejected NonError))
         `"+250792875310" `"hello" emptyStore)
  = Normal (failure
              `"Request timeout: The messaging service did not respond in time. Please try again.").
Proof. vm_compute. reflexivity. Qed.

(** The confirmation of the design document's round trip. *)
Example confirmation_for_amahoro :
  let message :=
    Formatter.formatCustomerConfirmationMessage Scenario.flaky `"Amahoro"
      `"2024-05-01T10:00:00Z" in
  includes message `"Amahoro" = true
  /\ includes message `"Wednesday, May 1, 2024" = true.
Proof. vm_compute. split; reflexivity. Qed.

Example normalize_examples :
  Phone.normalizePhoneNumber (Some `"+250 792-875 310") `"250"
  = Some `"250792875310"
  /\ Phone.normalizePhoneNumber (Some `"07928") `"250" = None
  /\ Phone.normalizePhoneNumber (Some `"++250792875310") `"250" = None
  /\ Phone.normalizePhoneNumber None `"250" = None.
Proof. vm_compute. repeat split. Qed.

(* ================================================================== *)
(** * Further properties of the code *)

(** ** Trimming *)

Section TrimFacts.

Lemma dropWhile_head (p : N -> bool) (s : jsstr) (c : N) (r : jsstr) :
  dropWhile p s = c :: r -> p c = false.
Proof.
  induction s as [|x s IH]; simpl; [discriminate|].
  destruct (p x) eqn:E; [exact IH|].
  intro H. injection H as <- _. exact E.
Qed.

Lemma dropWhile_keeps_last (p : N -> bool) (s : jsstr) (c : N) :
  p c = false -> exists l, dropWhile p (s ++ [c]) = l ++ [c].
Proof.
  intro H. induction s as [|x s [l IH]]; simpl.
  - rewrite H. now exists [].
  - destruct (p x); [now exists l|]. now exists (x :: s).
Qed.

Lemma dropWhile_suffix (p : N -> bool) (s : jsstr) :
  exists pre, s = pre ++ dropWhile p s /\ forallb p pre = true.
Proof.
  induction s as [|x s (pre & E & H)]; simpl; [now exists []|].
  destruct (p x) eqn:Px.
  - exists (x :: pre). simpl. now rewrite Px, <- E.
  - now exists [].
Qed.

(** A trimmed string does not begin with white space. *)
Lemma trim_head (s : jsstr) (c : N) (r : jsstr) :
  trim s = c :: r -> isWhiteSpace c = false.
Proof.
  unfold trim, trimEnd, trimStart.
  destruct (dropWhile isWhiteSpace s) as [|x t] eqn:E; [discriminate|].
  pose proof (dropWhile_head _ _ E) as Hx.
  destruct (dropWhile_suffix isWhiteSpace (rev (x :: t))) as (pre & Hrev & _).
  assert (Hlast : exists l, dropWhile isWhiteSpace (rev (x :: t)) = l ++ [x]).
  { simpl rev. now apply dropWhile_keeps_last. }
  destruct Hlast as [l ->]. rewrite rev_app_distr. simpl.
  intro H. now injection H as <- _.
Qed.

(** A trimmed string does not end with white space. *)
Lemma trim_last (s : jsstr) (r : jsstr) (c : N) :
  trim s = r ++ [c] -> isWhiteSpace c = false.
Proof.
  unfold trim, trimEnd. intro H.
  apply (f_equal (@rev N)) in H. rewrite rev_involutive, rev_app_distr in H.
  simpl in H. now apply dropWhile_head in H.
Qed.

Lemma trimStart_id (s : jsstr) :
  match s with c :: _ => isWhiteSpace c = false | [] => True end ->
  trimStart s = s.
Proof.
  destruct s as [|c s]; [reflexivity|]. intro H.
  unfold trimStart. cbn [dropWhile]. now rewrite H.
Qed.

Lemma trimEnd_id (s : jsstr) :
  (forall r c, s = r ++ [c] -> isWhiteSpace c = false) -> trimEnd s = s.
Proof.
  intro H. unfold trimEnd.
  destruct (rev s) as [|c t] eqn:E.
  - simpl. apply (f_equal (@rev N)) in E. now rewrite rev_involutive in E.
  - assert (Hs : s = rev t ++ [c]).
    { apply (f_equal (@rev N)) in E. now rewrite rev_involutive in E. }
    cbn [dropWhile]. rewrite (H _ _ Hs). cbn [rev]. now rewrite <- Hs.
Qed.

(** Trimming twice is trimming once. *)
Lemma trim_trim (s : jsstr) : trim (trim s) = trim s.
Proof.
  unfold trim at 1.
  rewrite trimStart_id.
  - apply trimEnd_id. intros r c. apply trim_last.
  - destruct (trim s) as [|c r] eqn:E; [exact I|]. exact (trim_head _ E).
Qed.

Lemma removeAll_id (cls : N -> bool) (s : jsstr) :
  forallb (fun c => negb (cls c)) s = true -> removeAll cls s = s.
Proof.
  unfold removeAll. induction s as [|c s IH]; simpl; [reflexivity|].
  intro H. apply andb_true_iff in H. destruct H as [-> H]. now rewrite IH.
Qed.

End TrimFacts.

(** ** Phone numbers *)

Section MorePhoneFacts.

Import Phone.

Lemma digit_not_separator (c : N) : isDigit c = true -> isSeparator c = false.
Proof.
  intro H. unfold isSeparator. rewrite (digit_not_whitespace _ H).
  unfold isDigit in H. apply andb_true_iff in H. destruct H as [H1 H2].
  apply N.leb_le in H1, H2.
  destruct (N.eqb_spec c 45); [lia|].
  destruct (N.eqb_spec c 40); [lia|].
  destruct (N.eqb_spec c 41); [lia|]. reflexivity.
Qed.

Lemma digit_not_plus (c : N) : isDigit c = true -> (c =? 43)%N = false.
Proof.
  unfold isDigit. intro H. apply andb_true_iff in H. destruct H as [H1 H2].
  apply N.leb_le in H1, H2. destruct (N.eqb_spec c 43); [lia|reflexivity].
Qed.

Lemma cleanedDigits_digits (r : jsstr) :
  forallb isDigit r = true -> cleanedDigits r = r.
Proof.
  intro H. unfold cleanedDigits.
  rewrite removeAll_id.
  - destruct r as [|c r]; [reflexivity|].
    simpl in H. apply andb_true_iff in H. destruct H as [Hc _].
    apply digit_not_plus in Hc.
    destruct (N.eqb_spec c 43) as [->|Hne]; [discriminate|].
    destruct c as [|p]; [reflexivity|].
    do 6 (destruct p as [p|p|]; try reflexivity); exfalso; now apply Hne.
  - rewrite forallb_forall in *. intros c Hc.
    now rewrite (digit_not_separator _ (H c Hc)).
Qed.

Lemma normalizePhoneNumber_steps (phone code : jsstr) :
  normalizePhoneNumber (Some phone) code =
  if negb (truthy phone) then None
  else if negb (testDigits 9 15 (cleanedDigits phone)) then None
  else if negb (testDigits 10 15 (expanded code (cleanedDigits phone)))
       then None
       else Some (expanded code (cleanedDigits phone)).
Proof. rewrite normalizePhoneNumber_cleaned. reflexivity. Qed.

Lemma normalizePhoneNumber_expanded (phone code r : jsstr) :
  normalizePhoneNumber (Some phone) code = Some r ->
  testDigits 9 15 (cleanedDigits phone) = true
  /\ r = expanded code (cleanedDigits phone)
  /\ testDigits 10 15 r = true.
Proof.
  rewrite normalizePhoneNumber_steps.
  destruct (negb (truthy phone)); [discriminate|].
  destruct (testDigits 9 15 (cleanedDigits phone)); [|discriminate].
  destruct (testDigits 10 15 (expanded code (cleanedDigits phone))) eqn:E;
    [|discriminate].
  intro H. injection H as <-. auto.
Qed.

Lemma expanded_250 (c : jsstr) :
  testDigits 9 15 c = true ->
  testDigits 10 15 (expanded `"250" c) = true
  /\ (startsWith `"0" (expanded `"250" c)
      && (length (expanded `"250" c) =? 10)%nat = false)
  /\ (length (expanded `"250" c) =? 9)%nat = false.
Proof.
  intro H. apply testDigits_spec in H. destruct H as [Hd Hl].
  assert (Long : forall x, forallb isDigit x = true -> length x = 9 ->
                   testDigits 10 15 (`"250" ++ x) = true
                   /\ (startsWith `"0" (`"250" ++ x)
                       && (length (`"250" ++ x) =? 10)%nat = false)
                   /\ (length (`"250" ++ x) =? 9)%nat = false).
  { intros x Hx Lx.
    assert (L : length (`"250" ++ x) = 12)
      by (rewrite length_app, Lx; reflexivity).
    rewrite L. split; [|split; [apply andb_false_r|reflexivity]].
    apply testDigits_spec. split; [|lia].
    rewrite forallb_app, Hx. reflexivity. }
  unfold expanded.
  destruct (startsWith `"0" c && (length c =? 10)%nat) eqn:E0.
  - apply andb_true_iff in E0. destruct E0 as [_ E0]. apply Nat.eqb_eq in E0.
    assert (L : length (skipn 1 c) = 9) by (rewrite length_skipn, E0; reflexivity).
    destruct (Long (skipn 1 c) (forallb_skipn _ 1 _ Hd) L) as (A & B & C).
    rewrite C. cbn [andb]. auto.
  - destruct (Nat.eqb_spec (length c) 9) as [E9|E9].
    + assert (T9 : testDigits 9 9 c = true)
        by (apply testDigits_spec; split; [assumption|lia]).
      rewrite T9. cbn [andb]. now apply Long.
    + cbn [andb]. rewrite E0. split; [|split].
      * apply testDigits_spec. split; [assumption|lia].
      * reflexivity.
      * now apply Nat.eqb_neq.
Qed.

End MorePhoneFacts.

(** X1. The phone normaliser is idempotent: a number it has returned
    (with the default country code "250") normalises to itself. *)
Theorem normalizePhoneNumber_idempotent (phone r : jsstr) :
  Phone.normalizePhoneNumber (Some phone) `"250" = Some r ->
  Phone.normalizePhoneNumber (Some r) `"250" = Some r.
Proof.
  intro H. apply normalizePhoneNumber_expanded in H.
  destruct H as (Hc & -> & Hr).
  destruct (expanded_250 _ Hc) as (_ & H0 & H9).
  set (r := expanded `"250" (cleanedDigits phone)) in *.
  pose proof (proj1 (testDigits_spec _ _ _) Hr) as [Hd Hl].
  assert (T : testDigits 9 15 r = true)
    by (apply testDigits_spec; split; [assumption|lia]).
  assert (E : expanded `"250" r = r)
    by (unfold expanded; rewrite H0, H9; reflexivity).
  rewrite normalizePhoneNumber_steps, (cleanedDigits_digits _ Hd), E, T, Hr.
  destruct r; [simpl in Hl; lia|reflexivity].
Qed.

(** A local number, normalised, normalises to itself. *)
Lemma normalizePhoneNumber_idempotent_witness :
  Phone.normalizePhoneNumber (Some `"250792875310") `"250"
  = Some `"250792875310".
Proof.
  exact (@normalizePhoneNumber_idempotent `"(079) 287-5310" `"250792875310"
           eq_refl).
Defined.

(** X2. A number is valid exactly when, without its white space,
    hyphens, parentheses and one leading [+], it is made of 9 to 15
    digits; the last test of [isValidPhoneNumber] never decides. *)
Theorem isValidPhoneNumber_characterised (phone : jsstr) :
  Phone.isValidPhoneNumber phone = testDigits 9 15 (cleanedDigits phone)
  /\ (Phone.isValidPhoneNumber phone = true <->
      exists r, Phone.normalizePhoneNumber (Some phone) `"250" = Some r).
Proof.
  assert (A : forall r, Phone.normalizePhoneNumber (Some phone) `"250" = Some r ->
                        Phone.isValidPhoneNumber phone = true).
  { intros r H. unfold Phone.isValidPhoneNumber, Phone.defaultCountryCode.
    rewrite H. now apply normalizePhoneNumber_expanded in H. }
  assert (B : testDigits 9 15 (cleanedDigits phone) = true ->
              exists r, Phone.normalizePhoneNumber (Some phone) `"250" = Some r).
  { intro H. rewrite normalizePhoneNumber_steps.
    destruct (expanded_250 _ H) as (Hr & _). rewrite H, Hr.
    destruct phone as [|c phone]; [|cbn; eauto].
    apply testDigits_spec in H. simpl in H. lia. }
  assert (C : Phone.isValidPhoneNumber phone = true ->
              testDigits 9 15 (cleanedDigits phone) = true).
  { unfold Phone.isValidPhoneNumber, Phone.defaultCountryCode.
    destruct (Phone.normalizePhoneNumber (Some phone) `"250") as [r|] eqn:E;
      [|discriminate].
    intros _. now apply normalizePhoneNumber_expanded in E. }
  split.
  - destruct (testDigits 9 15 (cleanedDigits phone)) eqn:T.
    + destruct (B eq_refl) as [r Hr]. exact (A r Hr).
    + destruct (Phone.isValidPhoneNumber phone) eqn:V; [|reflexivity].
      discriminate (C eq_refl).
  - split.
    + intro V. exact (B (C V)).
    + intros [r Hr]. exact (A r Hr).
Qed.

Section LegacyFacts.

Lemma removeAll_legacy (phone : jsstr) :
  removeAll Legacy.isSeparator phone
  = removeAll (fun c => (c =? 43)%N) (removeAll Phone.isSeparator phone).
Proof.
  unfold removeAll, Legacy.isSeparator.
  induction phone as [|c phone IH]; [reflexivity|]. simpl.
  destruct (Phone.isSeparator c); simpl; [exact IH|].
  destruct (c =? 43)%N; simpl; now rewrite IH.
Qed.

Lemma legacy_cleaned (phone : jsstr) :
  forallb isDigit (cleanedDigits phone) = true ->
  trim (removeAll Legacy.isSeparator phone) = cleanedDigits phone.
Proof.
  intro H.
  assert (P : forall s, forallb isDigit s = true ->
                        removeAll (fun c => (c =? 43)%N) s = s).
  { intros s Hs. apply removeAll_id. rewrite forallb_forall in *.
    intros c Hc. now rewrite (digit_not_plus _ (Hs c Hc)). }
  assert (E : removeAll Legacy.isSeparator phone = cleanedDigits phone).
  { rewrite removeAll_legacy. revert H. unfold cleanedDigits. cbv zeta.
    destruct (removeAll Phone.isSeparator phone) as [|c s]; [reflexivity|].
    destruct (N.eqb_spec c 43) as [->|Hne].
    - intro H. unfold removeAll. cbn [filter N.eqb Pos.eqb negb].
      now apply P.
    - destruct c as [|p]; [apply P|].
      do 6 (destruct p as [p|p|]; try apply P); exfalso; now apply Hne. }
  rewrite E. apply trim_without_whitespace.
  intros c Hc. apply digit_not_whitespace.
  rewrite forallb_forall in H. now apply H.
Qed.

End LegacyFacts.

(** X3. Hardening the normaliser only added rejections: every number
    the hardened [normalizePhoneNumber] returns is the result of the
    earlier version on the same input and country code. *)
Theorem normalizePhoneNumber_refines_legacy (phone code r : jsstr) :
  Phone.normalizePhoneNumber (Some phone) code = Some r ->
  Legacy.normalizePhoneNumber phone code = r.
Proof.
  intro H. apply normalizePhoneNumber_expanded in H.
  destruct H as (Hc & -> & _).
  apply testDigits_spec in Hc. destruct Hc as [Hd _].
  unfold Legacy.normalizePhoneNumber. cbv zeta.
  rewrite (legacy_cleaned _ Hd). reflexivity.
Qed.

(** The two normalisers on a local number. *)
Lemma normalizePhoneNumber_refines_legacy_witness :
  Legacy.normalizePhoneNumber `"+250 792-875-310" `"250" = `"250792875310".
Proof.
  exact (@normalizePhoneNumber_refines_legacy `"+250 792-875-310" `"250"
           `"250792875310" eq_refl).
Defined.

(** ** The Twilio sender *)

Section MoreTwilioFacts.

Import Gateway.

Variable w : World.

(** The sender, step by step. *)
Lemma sendWhatsAppMessageTwilio_steps (to message : jsstr) (st : Store) :
  sendWhatsAppMessageTwilio w to message st =
  if negb (truthy to) || negb (truthy (trim to)) then
    (Normal (failure `"Recipient phone number is required."), st)
  else if negb (truthy message) || negb (truthy (trim message)) then
    (Normal (failure `"Message content is required."), st)
  else if (messageLimit <? length message)%nat then
    (Normal (failure
               (`"Message is too long ("
                ++ numberToString (Z.of_nat (length message))
                ++ `" characters). Maximum allowed is 4096 characters.")), st)
  else
    match getTwilioClient w st with
    | (Abrupt e, st1) => caught w e st1
    | (Normal c, st1) =>
      if negb (testDigits 10 15 (cleanTo to)) then
        (Normal (failure (`"Invalid phone number format: " ++ to
                          ++ `". Expected 10-15 digits.")), st1)
      else
        let request :=
          TwilioCreate (trim (whatsAppNumber c)) (`"whatsapp:" ++ trim to)
            (substring 0 messageLimit message) in
        let st2 := {| calls := calls st1 ++ [request]; console := console st1 |} in
        match messages_create w (length (calls st1)) request with
        | Resolved (Some {| sid := Some ((_ :: _) as id) |}) =>
          (Normal {| success := true; messageId := Some id; error := None |}, st2)
        | Resolved _ =>
          (Normal (failure
                     `"Twilio returned an invalid response (missing message SID)."),
           st2)
        | Rejected e => caught w e st2
        | Pending =>
          caught w
            (ErrorObj `"Request timeout: Twilio API call exceeded 30 seconds")
            st2
        end
    end.
Proof.
  unfold sendWhatsAppMessageTwilio, race_create, cleanTo, caught. run.
  repeat split_head; reflexivity.
Qed.

Lemma getTwilioClient_missing (st : Store) :
  missingVars w <> [] ->
  getTwilioClient w st
  = (Abrupt (ErrorObj
               (`"Missing required Twilio environment variables: "
                ++ join `", " (missingVars w) ++ `". "
                ++ `"Please set these in your deployment environment variables.")),
     st).
Proof.
  unfold getTwilioClient, missingVars. run.
  destruct (present (getenv w `"TWILIO_ACCOUNT_SID"));
    destruct (present (getenv w `"TWILIO_AUTH_TOKEN"));
    destruct (present (getenv w `"TWILIO_WHATSAPP_NUMBER"));
    cbn [negb orb app]; intro H; try reflexivity.
  now contradiction H.
Qed.

Lemma getTwilioClient_present (st : Store) (c : TwilioClient) (st1 : Store) :
  getTwilioClient w st = (Normal c, st1) ->
  missingVars w = [] /\ st1 = st.
Proof.
  unfold getTwilioClient, missingVars. run.
  destruct (present (getenv w `"TWILIO_ACCOUNT_SID"));
    destruct (present (getenv w `"TWILIO_AUTH_TOKEN"));
    destruct (present (getenv w `"TWILIO_WHATSAPP_NUMBER"));
    cbn [negb orb app]; try discriminate.
  destruct (twilio w _ _); [discriminate|].
  intro H. injection H as _ <-. now split.
Qed.

(** The message about missing variables goes through the [catch]
    clause as it is. *)
Lemma missing_message_kept (st : Store) :
  missingVars w <> [] ->
  caught w
    (ErrorObj (`"Missing required Twilio environment variables: "
               ++ join `", " (missingVars w) ++ `". "
               ++ `"Please set these in your deployment environment variables."))
    st
  = (Normal
       (failure
          (`"Missing required Twilio environment variables: "
           ++ join `", " (missingVars w) ++ `". "
           ++ `"Please set these in your deployment environment variables.")),
     st).
Proof.
  unfold missingVars.
  destruct (present (getenv w `"TWILIO_ACCOUNT_SID"));
    destruct (present (getenv w `"TWILIO_AUTH_TOKEN"));
    destruct (present (getenv w `"TWILIO_WHATSAPP_NUMBER"));
    intro H; try (now contradiction H); vm_compute; reflexivity.
Qed.

(** The [catch] clause leaves the store as it is. *)
Lemma caught_store (e : Thrown) (st : Store) : snd (caught w e st) = st.
Proof. unfold caught. now destruct (twilioErrorMessage w e). Qed.

End MoreTwilioFacts.

(** What the Twilio sender checks before it hands a request over. *)
Lemma sendWhatsAppMessageTwilio_checked
    (w : World) (to message : jsstr) (st : Store) :
  let st' := snd (Gateway.sendWhatsAppMessageTwilio w to message st) in
  console st' = console st
  /\ (calls st' = calls st
      \/ (exists from,
            calls st'
            = calls st ++ [TwilioCreate from (`"whatsapp:" ++ trim to) message])
         /\ truthy (trim to) = true
         /\ truthy (trim message) = true
         /\ length message <= Gateway.messageLimit
         /\ missingVars w = []
         /\ testDigits 10 15 (cleanTo to) = true).
Proof.
  cbv zeta. rewrite sendWhatsAppMessageTwilio_steps.
  destruct (negb (truthy to) || negb (truthy (trim to))) eqn:Hto;
    [now split; [|left]|].
  destruct (negb (truthy message) || negb (truthy (trim message))) eqn:Hm;
    [now split; [|left]|].
  destruct (Gateway.messageLimit <? length message)%nat eqn:Hlen;
    [now split; [|left]|].
  destruct (Gateway.getTwilioClient w st) as [[c|e] st1] eqn:Hc.
  - destruct (getTwilioClient_present w st Hc) as [Hmissing ->].
    destruct (testDigits 10 15 (cleanTo to)) eqn:Hd; cbn [negb];
      [|now split; [|left]].
    apply orb_false_iff in Hto, Hm. destruct Hto as [_ Hto], Hm as [_ Hm].
    apply negb_false_iff in Hto, Hm. apply Nat.ltb_ge in Hlen.
    rewrite (substring_all _ Hlen).
    cbv zeta.
    repeat split_head; rewrite ?caught_store; cbn [snd calls console];
      (split; [reflexivity|right; repeat split; try assumption; now eexists]).
  - assert (Hst : st1 = st).
    { pose proof (getTwilioClient_store w st) as Hs. rewrite Hc in Hs.
      exact Hs. }
    subst st1. rewrite caught_store. now split; [|left].
Qed.

(** X4. The Twilio sender hands a request to the provider only after
    every check has passed: a destination and a body that are not
    blank, a body of at most 4096 code units, the three Twilio
    variables set, and a destination of 10 to 15 digits once the
    [whatsapp:] prefix and a leading [+] are removed.  It issues at most
    that one request and writes nothing to the console. *)
Theorem twilio_request_only_after_checks
    (w : World) (to message : jsstr) (st : Store) :
  let st' := snd (Gateway.sendWhatsAppMessageTwilio w to message st) in
  console st' = console st
  /\ (calls st' = calls st
      \/ (exists from,
            calls st'
            = calls st ++ [TwilioCreate from (`"whatsapp:" ++ trim to) message])
         /\ truthy (trim to) = true
         /\ truthy (trim message) = true
         /\ length message <= Gateway.messageLimit
         /\ missingVars w = []
         /\ testDigits 10 15 (cleanTo to) = true).
Proof. exact (sendWhatsAppMessageTwilio_checked w to message st). Qed.

Section ResultFacts.

Import Gateway.

Variable w : World.

Lemma wellFormed_failure (e : jsstr) : wellFormed (failure e).
Proof. right. repeat split. now exists e. Qed.

Lemma truthy_trim (s : jsstr) : truthy (trim s) = true -> truthy s = true.
Proof. destruct s; [discriminate|reflexivity]. Qed.

Lemma caught_wellFormed (e : Thrown) (st st' : Store) (r : WhatsAppResponse) :
  caught w e st = (Normal r, st') -> wellFormed r.
Proof.
  unfold caught. destruct (twilioErrorMessage w e); [|discriminate].
  intro H. injection H as <- _. apply wellFormed_failure.
Qed.

Lemma sendWhatsAppMessageTwilio_wellFormed (to message : jsstr) (st : Store) :
  completesWellFormed w st (sendWhatsAppMessageTwilio w to message st).
Proof.
  unfold completesWellFormed.
  destruct (sendWhatsAppMessageTwilio w to message st) as [[r|e] st'] eqn:E;
    [|exact (sendWhatsAppMessageTwilio_throws w _ _ _ E)].
  revert E. rewrite sendWhatsAppMessageTwilio_steps. cbv zeta.
  repeat split_head; intro E;
    try (injection E as <- _; apply wellFormed_failure);
    try (exact (caught_wellFormed _ _ E)).
  injection E as <- _.
  left. repeat split. eexists. split; [|reflexivity]. discriminate.
Qed.

Lemma checks_passed (to message : jsstr) :
  truthy (trim to) = true -> truthy (trim message) = true ->
  length message <= messageLimit ->
  negb (truthy to) || negb (truthy (trim to)) = false
  /\ negb (truthy message) || negb (truthy (trim message)) = false
  /\ (messageLimit <? length message)%nat = false.
Proof.
  intros Hto Hm Hlen.
  rewrite Hto, Hm, (truthy_trim _ Hto), (truthy_trim _ Hm).
  repeat split. now apply Nat.ltb_ge.
Qed.

End ResultFacts.

Section SenderResultFacts.

Import Gateway.

Variable w : World.

Lemma sendPickupOrderToDryCleaner_wellFormed
    (order : PickupOrderRequest) (st : Store) :
  completesWellFormed w st (sendPickupOrderToDryCleaner w order st).
Proof.
  unfold sendPickupOrderToDryCleaner. run.
  repeat split_head;
    first [apply sendWhatsAppMessageTwilio_wellFormed
          |apply wellFormed_failure].
Qed.

Lemma sendCustomerConfirmation_wellFormed
    (customerPhone customerName pickupDateTime : jsstr) (st : Store) :
  completesWellFormed w st
    (sendCustomerConfirmation w customerPhone customerName pickupDateTime st).
Proof.
  unfold sendCustomerConfirmation. run.
  repeat split_head;
    first [apply sendWhatsAppMessageTwilio_wellFormed
          |apply wellFormed_failure].
Qed.

End SenderResultFacts.

(** X5. A result of the Twilio sender, of the dry-cleaner sender and of
    the confirmation sender is well formed: on success it has a message
    identifier that is not empty and no error, on failure it has an
    error and no identifier.  The three return such a result for every
    input and every behaviour of the provider but one: when the
    constructor of the client or the request throws an error whose
    message is not a string, they are left by the [TypeError] that the
    [catch] clause runs into. *)
Theorem twilio_results_well_formed
    (w : World) (to message customerName pickupDateTime : jsstr)
    (order : PickupOrderRequest) (st : Store) :
  completesWellFormed w st (Gateway.sendWhatsAppMessageTwilio w to message st)
  /\ completesWellFormed w st (Gateway.sendPickupOrderToDryCleaner w order st)
  /\ completesWellFormed w st
       (Gateway.sendCustomerConfirmation w to customerName pickupDateTime st).
Proof.
  split; [apply sendWhatsAppMessageTwilio_wellFormed|]. split.
  - apply sendPickupOrderToDryCleaner_wellFormed.
  - apply sendCustomerConfirmation_wellFormed.
Qed.

(** X6. A request to Twilio that has not settled after 30 seconds is
    reported as the failure "Request timeout: The messaging service did
    not respond in time. Please try again."; the request stays in the
    trace and is not repeated. *)
Theorem twilio_timeout_reported
    (w : World) (to message : jsstr) (st : Store) (c : Gateway.TwilioClient) :
  let request :=
    TwilioCreate (trim (Gateway.whatsAppNumber c)) (`"whatsapp:" ++ trim to)
      message in
  truthy (trim to) = true ->
  truthy (trim message) = true ->
  length message <= Gateway.messageLimit ->
  Gateway.getTwilioClient w st = (Normal c, st) ->
  testDigits 10 15 (cleanTo to) = true ->
  messages_create w (length (calls st)) request = Pending ->
  Gateway.sendWhatsAppMessageTwilio w to message st
  = (Normal (failure
               `"Request timeout: The messaging service did not respond in time. Please try again."),
     {| calls := calls st ++ [request]; console := console st |}).
Proof.
  intros request Hto Hm Hlen Hc Hd Hp.
  destruct (checks_passed to message Hto Hm Hlen) as (A & B & C).
  rewrite sendWhatsAppMessageTwilio_steps, A, B, C, Hc, Hd. cbn [negb].
  cbv zeta. rewrite (substring_all _ Hlen). fold request. rewrite Hp.
  reflexivity.
Qed.

(** A provider that never answers. *)
Lemma twilio_timeout_reported_witness :
  let w := MoreScenario.silent in
  fst (Gateway.sendWhatsAppMessageTwilio w `"+250792875310" `"hello" emptyStore)
  = Normal (failure
              `"Request timeout: The messaging service did not respond in time. Please try again.").
Proof.
  intro w.
  rewrite (@twilio_timeout_reported w `"+250792875310" `"hello" emptyStore
             {| Gateway.client := (`"AC0123456789", `"secret");
                Gateway.whatsAppNumber := `"whatsapp:+14155238886" |}
             eq_refl eq_refl (proj1 (Nat.leb_le 5 Gateway.messageLimit) eq_refl) eq_refl eq_refl eq_refl).
  reflexivity.
Defined.

(** X7. When one of the three Twilio variables is not set, the sender
    fails with a message that lists exactly the variables that are
    missing, in the order account, token, number, and hands nothing to
    the provider. *)
Theorem twilio_missing_configuration
    (w : World) (to message : jsstr) (st : Store) :
  truthy (trim to) = true ->
  truthy (trim message) = true ->
  length message <= Gateway.messageLimit ->
  missingVars w <> [] ->
  Gateway.sendWhatsAppMessageTwilio w to message st
  = (Normal (failure
               (`"Missing required Twilio environment variables: "
                ++ join `", " (missingVars w) ++ `". "
                ++ `"Please set these in your deployment environment variables.")),
     st).
Proof.
  intros Hto Hm Hlen Hmissing.
  destruct (checks_passed to message Hto Hm Hlen) as (A & B & C).
  rewrite sendWhatsAppMessageTwilio_steps, A, B, C.
  rewrite (getTwilioClient_missing w st Hmissing).
  now rewrite (missing_message_kept w st Hmissing).
Qed.

(** A deployment without the token and without the sender's number. *)
Lemma twilio_missing_configuration_witness :
  let w := MoreScenario.withEnv MoreScenario.silent MoreScenario.accountOnly in
  Gateway.sendWhatsAppMessageTwilio w `"+250792875310" `"hello" emptyStore
  = (Normal (failure
               `"Missing required Twilio environment variables: TWILIO_AUTH_TOKEN, TWILIO_WHATSAPP_NUMBER. Please set these in your deployment environment variables."),
     emptyStore).
Proof.
  intro w.
  rewrite (@twilio_missing_configuration w `"+250792875310" `"hello" emptyStore
             eq_refl eq_refl (proj1 (Nat.leb_le 5 Gateway.messageLimit) eq_refl)).
  - reflexivity.
  - vm_compute. discriminate.
Defined.

(** ** The two senders over the Twilio sender *)

Section SenderRequestFacts.

Import Phone Formatter Gateway.

Variable w : World.

Lemma trim_starts_black (c : N) (s : jsstr) :
  isWhiteSpace c = false -> truthy (trim (c :: s)) = true.
Proof.
  intro H. unfold trim. rewrite trimStart_id by exact H.
  unfold trimEnd. cbn [rev].
  destruct (dropWhile_keeps_last isWhiteSpace (rev s) c H) as [l ->].
  rewrite rev_app_distr. reflexivity.
Qed.

Lemma trim_digits (r : jsstr) : forallb isDigit r = true -> trim r = r.
Proof.
  intro H. apply trim_without_whitespace. intros c Hc.
  apply digit_not_whitespace. rewrite forallb_forall in H. now apply H.
Qed.

(** The second look at the destination, inside the Twilio sender, finds
    what the normaliser produced. *)
Lemma cleanTo_plus (r : jsstr) :
  forallb isDigit r = true -> cleanTo (`"+" ++ r) = r.
Proof.
  intro H. unfold cleanTo. now rewrite trim_digits.
Qed.

Lemma normalized_present (phone : option jsstr) (code r : jsstr) :
  normalizePhoneNumber phone code = Some r ->
  present phone = true /\ present (Some r) = true.
Proof.
  intro H. pose proof (normalize_range _ _ H) as [_ Hlen]. split.
  - destruct phone as [[|c s]|]; [discriminate H|reflexivity|discriminate H].
  - destruct r; [simpl in Hlen; lia|reflexivity].
Qed.

Lemma formatPickupOrderMessage_not_blank (order : PickupOrderRequest) :
  truthy (trim (formatPickupOrderMessage w order)) = true.
Proof. now apply trim_starts_black. Qed.

Lemma formatCustomerConfirmationMessage_not_blank (name pickupDateTime : jsstr) :
  truthy (trim (formatCustomerConfirmationMessage w name pickupDateTime)) = true.
Proof. now apply trim_starts_black. Qed.

(** The store the Twilio sender leaves when every check passes. *)
Lemma sendWhatsAppMessageTwilio_sends
    (to message : jsstr) (st : Store) (c : TwilioClient) :
  truthy (trim to) = true ->
  truthy (trim message) = true ->
  length message <= messageLimit ->
  getTwilioClient w st = (Normal c, st) ->
  testDigits 10 15 (cleanTo to) = true ->
  snd (sendWhatsAppMessageTwilio w to message st)
  = {| calls := calls st
                ++ [TwilioCreate (trim (whatsAppNumber c))
                      (`"whatsapp:" ++ trim to) message];
       console := console st |}.
Proof.
  intros Hto Hm Hlen Hc Hd.
  destruct (checks_passed to message Hto Hm Hlen) as (A & B & C).
  rewrite sendWhatsAppMessageTwilio_steps, A, B, C, Hc, Hd. cbn [negb].
  cbv zeta. rewrite (substring_all _ Hlen).
  repeat split_head; rewrite ?caught_store; reflexivity.
Qed.

(** A destination made by the normaliser passes the checks of the
    Twilio sender. *)
Lemma normalized_destination (phone : option jsstr) (r : jsstr) :
  normalizePhoneNumber phone defaultCountryCode = Some r ->
  trim (`"+" ++ r) = `"+" ++ r
  /\ truthy (trim (`"+" ++ r)) = true
  /\ testDigits 10 15 (cleanTo (`"+" ++ r)) = true.
Proof.
  intro H. destruct (normalize_range _ _ H) as [Hd Hlen].
  rewrite (trim_plus_digits _ Hd), (cleanTo_plus _ Hd).
  repeat split. now apply testDigits_spec.
Qed.

Lemma sendPickupOrderToDryCleaner_normalized
    (order : PickupOrderRequest) (r : jsstr) :
  normalizePhoneNumber (getenv w `"DRY_CLEANER_WHATSAPP_NUMBER")
    defaultCountryCode = Some r ->
  length (formatPickupOrderMessage w order) <= messageLimit ->
  sendPickupOrderToDryCleaner w order
  = sendWhatsAppMessageTwilio w (`"+" ++ r) (formatPickupOrderMessage w order).
Proof.
  intros Hr Hlen. unfold sendPickupOrderToDryCleaner. cbv zeta.
  destruct (normalized_present _ _ Hr) as [-> Hp]. rewrite Hr, Hp.
  cbn [negb]. apply Nat.ltb_ge in Hlen. rewrite Hlen.
  destruct r; [discriminate Hp|reflexivity].
Qed.

Lemma sendCustomerConfirmation_normalized
    (customerPhone customerName pickupDateTime r : jsstr) :
  let name := substring 0 100 (trim customerName) in
  let message := formatCustomerConfirmationMessage w name pickupDateTime in
  normalizePhoneNumber (Some customerPhone) defaultCountryCode = Some r ->
  truthy name = true ->
  length message <= messageLimit ->
  sendCustomerConfirmation w customerPhone customerName pickupDateTime
  = sendWhatsAppMessageTwilio w (`"+" ++ r) message.
Proof.
  intros name message Hr Hn Hlen. unfold sendCustomerConfirmation. cbv zeta.
  destruct (normalized_present _ _ Hr) as [_ Hp]. rewrite Hr, Hp.
  fold name. rewrite Hn. fold message.
  cbn [negb]. apply Nat.ltb_ge in Hlen. rewrite Hlen.
  destruct r; [discriminate Hp|reflexivity].
Qed.

End SenderRequestFacts.

(** X8. When the number of the dry cleaner in the environment
    normalises, the order message fits into 4096 code units and the
    Twilio variables are set, the dry-cleaner sender hands exactly one
    request to the provider: to [whatsapp:+] followed by the normalised
    number, from the configured sender trimmed, with the formatted
    order as its body.  The validation inside the Twilio sender never
    rejects what the normaliser accepted. *)
Theorem dry_cleaner_request_sent
    (w : World) (order : PickupOrderRequest) (st : Store)
    (c : Gateway.TwilioClient) (r : jsstr) :
  Phone.normalizePhoneNumber (getenv w `"DRY_CLEANER_WHATSAPP_NUMBER") `"250"
  = Some r ->
  length (Formatter.formatPickupOrderMessage w order) <= Gateway.messageLimit ->
  Gateway.getTwilioClient w st = (Normal c, st) ->
  snd (Gateway.sendPickupOrderToDryCleaner w order st)
  = {| calls := calls st
                ++ [TwilioCreate (trim (Gateway.whatsAppNumber c))
                      (`"whatsapp:+" ++ r)
                      (Formatter.formatPickupOrderMessage w order)];
       console := console st |}.
Proof.
  intros Hr Hlen Hc.
  rewrite (@sendPickupOrderToDryCleaner_normalized w order r Hr Hlen).
  destruct (@normalized_destination _ r Hr) as (Ht & Hto & Hd).
  rewrite (@sendWhatsAppMessageTwilio_sends w _ _ st c Hto
             (formatPickupOrderMessage_not_blank w order) Hlen Hc Hd).
  rewrite Ht. reflexivity.
Qed.

(** The sample order on the sample deployment. *)
Lemma dry_cleaner_request_sent_witness :
  let w := MoreScenario.silent in
  calls (snd (Gateway.sendPickupOrderToDryCleaner w Scenario.shirts emptyStore))
  = [TwilioCreate `"whatsapp:+14155238886" `"whatsapp:+250792875310"
       (Formatter.formatPickupOrderMessage w Scenario.shirts)].
Proof.
  intro w.
  rewrite (@dry_cleaner_request_sent w Scenario.shirts emptyStore
             {| Gateway.client := (`"AC0123456789", `"secret");
                Gateway.whatsAppNumber := `"whatsapp:+14155238886" |}
             `"250792875310" eq_refl
             (proj1 (Nat.leb_le
                       (length (Formatter.formatPickupOrderMessage w Scenario.shirts))
                       Gateway.messageLimit) eq_refl)
             eq_refl).
  reflexivity.
Defined.

(** X9. When the customer's phone normalises, the name is not blank,
    the confirmation fits into 4096 code units and the Twilio variables
    are set, the confirmation sender hands exactly one request to the
    provider: to [whatsapp:+] followed by the normalised number, with
    the confirmation for the trimmed name, cut to 100 code units, as its
    body. *)
Theorem confirmation_request_sent
    (w : World) (customerPhone customerName pickupDateTime : jsstr)
    (st : Store) (c : Gateway.TwilioClient) (r : jsstr) :
  let name := substring 0 100 (trim customerName) in
  let message :=
    Formatter.formatCustomerConfirmationMessage w name pickupDateTime in
  Phone.normalizePhoneNumber (Some customerPhone) `"250" = Some r ->
  truthy name = true ->
  length message <= Gateway.messageLimit ->
  Gateway.getTwilioClient w st = (Normal c, st) ->
  snd (Gateway.sendCustomerConfirmation w customerPhone customerName
         pickupDateTime st)
  = {| calls := calls st
                ++ [TwilioCreate (trim (Gateway.whatsAppNumber c))
                      (`"whatsapp:+" ++ r) message];
       console := console st |}.
Proof.
  intros name message Hr Hn Hlen Hc. subst message name.
  rewrite (@sendCustomerConfirmation_normalized w customerPhone customerName
             pickupDateTime r Hr Hn Hlen).
  destruct (@normalized_destination _ r Hr) as (Ht & Hto & Hd).
  rewrite (@sendWhatsAppMessageTwilio_sends w _ _ st c Hto
             (formatCustomerConfirmationMessage_not_blank w _ _) Hlen Hc Hd).
  rewrite Ht. reflexivity.
Qed.

(** A local number and a name with white space around it. *)
Lemma confirmation_request_sent_witness :
  let w := MoreScenario.silent in
  calls (snd (Gateway.sendCustomerConfirmation w `"0788 123 456" `"  Amahoro "
                `"2024-05-01T10:00:00Z" emptyStore))
  = [TwilioCreate `"whatsapp:+14155238886" `"whatsapp:+250788123456"
       (Formatter.formatCustomerConfirmationMessage w `"Amahoro"
          `"2024-05-01T10:00:00Z")].
Proof.
  intro w.
  rewrite (@confirmation_request_sent w `"0788 123 456" `"  Amahoro "
             `"2024-05-01T10:00:00Z" emptyStore
             {| Gateway.client := (`"AC0123456789", `"secret");
                Gateway.whatsAppNumber := `"whatsapp:+14155238886" |}
             `"250788123456" eq_refl eq_refl
             (proj1 (Nat.leb_le
                       (length (Formatter.formatCustomerConfirmationMessage w
                                  `"Amahoro" `"2024-05-01T10:00:00Z"))
                       Gateway.messageLimit) eq_refl)
             eq_refl).
  reflexivity.
Defined.

(** What the dry-cleaner sender checks before a request leaves. *)
Lemma sendPickupOrderToDryCleaner_checked
    (w : World) (order : PickupOrderRequest) (st : Store) :
  let st' := snd (Gateway.sendPickupOrderToDryCleaner w order st) in
  let message := Formatter.formatPickupOrderMessage w order in
  console st' = console st
  /\ (calls st' = calls st
      \/ exists from r,
           Phone.normalizePhoneNumber
             (getenv w `"DRY_CLEANER_WHATSAPP_NUMBER") `"250" = Some r
           /\ length message <= Gateway.messageLimit
           /\ missingVars w = []
           /\ calls st'
              = calls st ++ [TwilioCreate from (`"whatsapp:+" ++ r) message]).
Proof.
  cbv zeta.
  destruct (Phone.normalizePhoneNumber
              (getenv w `"DRY_CLEANER_WHATSAPP_NUMBER") `"250")
    as [r|] eqn:Hr.
  + destruct (Gateway.messageLimit
              <? length (Formatter.formatPickupOrderMessage w order))%nat
      eqn:Hlen.
    * unfold Gateway.sendPickupOrderToDryCleaner. cbv zeta.
      change Phone.defaultCountryCode with `"250".
      destruct (@normalized_present _ _ r Hr) as [-> _].
      rewrite Hr, Hlen. cbn [negb present truthy].
      destruct r; now split; [|left].
    * apply Nat.ltb_ge in Hlen.
      rewrite (@sendPickupOrderToDryCleaner_normalized w order r Hr Hlen).
      destruct (@normalized_destination _ r Hr) as (Ht & _).
      destruct (sendWhatsAppMessageTwilio_checked w (`"+" ++ r)
                  (Formatter.formatPickupOrderMessage w order) st)
        as [Hconsole [Hcalls|([from Hcalls] & _ & _ & _ & Hm & _)]].
      -- now split; [|left].
      -- split; [exact Hconsole|right]. exists from, r.
         rewrite Hcalls, Ht. now repeat split.
  + unfold Gateway.sendPickupOrderToDryCleaner. cbv zeta.
    change Phone.defaultCountryCode with `"250". rewrite Hr.
    destruct (present (getenv w `"DRY_CLEANER_WHATSAPP_NUMBER"));
      now split; [|left].
Qed.

(** What the confirmation sender checks before a request leaves. *)
Lemma sendCustomerConfirmation_checked
    (w : World) (customerPhone customerName pickupDateTime : jsstr)
    (st : Store) :
  let st' :=
    snd (Gateway.sendCustomerConfirmation w customerPhone customerName
           pickupDateTime st) in
  let name := substring 0 100 (trim customerName) in
  let message :=
    Formatter.formatCustomerConfirmationMessage w name pickupDateTime in
  console st' = console st
  /\ (calls st' = calls st
      \/ exists from r,
           Phone.normalizePhoneNumber (Some customerPhone) `"250" = Some r
           /\ truthy name = true
           /\ length message <= Gateway.messageLimit
           /\ missingVars w = []
           /\ calls st'
              = calls st ++ [TwilioCreate from (`"whatsapp:+" ++ r) message]).
Proof.
  cbv zeta.
  destruct (Phone.normalizePhoneNumber (Some customerPhone) `"250")
    as [r|] eqn:Hr.
  + destruct (truthy (substring 0 100 (trim customerName))) eqn:Hn.
    * destruct (Gateway.messageLimit
                <? length (Formatter.formatCustomerConfirmationMessage w
                             (substring 0 100 (trim customerName))
                             pickupDateTime))%nat eqn:Hlen.
      -- unfold Gateway.sendCustomerConfirmation. cbv zeta.
         change Phone.defaultCountryCode with `"250".
         rewrite Hr, Hn, Hlen. cbn [negb present truthy].
         destruct r; now split; [|left].
      -- apply Nat.ltb_ge in Hlen.
         rewrite (@sendCustomerConfirmation_normalized w customerPhone
                    customerName pickupDateTime r Hr Hn Hlen).
         destruct (@normalized_destination _ r Hr) as (Ht & _).
         destruct (sendWhatsAppMessageTwilio_checked w (`"+" ++ r)
                     (Formatter.formatCustomerConfirmationMessage w
                        (substring 0 100 (trim customerName))
                        pickupDateTime) st)
           as [Hconsole [Hcalls|([from Hcalls] & _ & _ & _ & Hm & _)]].
         ++ now split; [|left].
         ++ split; [exact Hconsole|right]. exists from, r.
            rewrite Hcalls, Ht. now repeat split.
    * unfold Gateway.sendCustomerConfirmation. cbv zeta.
      change Phone.defaultCountryCode with `"250".
      rewrite Hr, Hn. cbn [negb present truthy].
      destruct r; now split; [|left].
  + unfold Gateway.sendCustomerConfirmation. cbv zeta.
    change Phone.defaultCountryCode with `"250". rewrite Hr.
    now split; [|left].
Qed.

(** X10. Neither sender reaches the provider unless its own checks and
    those of the Twilio sender pass: any request of the dry-cleaner
    sender goes to the normalised number of the environment with the
    formatted order as body, any request of the confirmation sender to
    the normalised phone of the customer with the confirmation for the
    sanitised name, which then is not blank; in both cases the message
    fits the limit and the Twilio variables are set.  Otherwise the
    store is as it was. *)
Theorem senders_request_only_when_valid
    (w : World) (order : PickupOrderRequest)
    (customerPhone customerName pickupDateTime : jsstr) (st : Store) :
  (let st' := snd (Gateway.sendPickupOrderToDryCleaner w order st) in
   let message := Formatter.formatPickupOrderMessage w order in
   console st' = console st
   /\ (calls st' = calls st
       \/ exists from r,
            Phone.normalizePhoneNumber
              (getenv w `"DRY_CLEANER_WHATSAPP_NUMBER") `"250" = Some r
            /\ length message <= Gateway.messageLimit
            /\ missingVars w = []
            /\ calls st'
               = calls st ++ [TwilioCreate from (`"whatsapp:+" ++ r) message]))
  /\ (let st' :=
        snd (Gateway.sendCustomerConfirmation w customerPhone customerName
               pickupDateTime st) in
      let name := substring 0 100 (trim customerName) in
      let message :=
        Formatter.formatCustomerConfirmationMessage w name pickupDateTime in
      console st' = console st
      /\ (calls st' = calls st
          \/ exists from r,
               Phone.normalizePhoneNumber (Some customerPhone) `"250" = Some r
               /\ truthy name = true
               /\ length message <= Gateway.messageLimit
               /\ missingVars w = []
               /\ calls st'
                  = calls st
                    ++ [TwilioCreate from (`"whatsapp:+" ++ r) message])).
Proof.
  split.
  - exact (sendPickupOrderToDryCleaner_checked w order st).
  - exact (sendCustomerConfirmation_checked w customerPhone customerName
             pickupDateTime st).
Qed.

(** ** The name in the confirmation *)

Section NameFacts.

Lemma dropWhile_nil (p : N -> bool) (s : jsstr) :
  dropWhile p s = [] -> forallb p s = true.
Proof.
  induction s as [|c s IH]; [reflexivity|]. cbn [dropWhile forallb].
  destruct (p c); [exact IH|discriminate].
Qed.

Lemma forallb_rev (p : N -> bool) (s : jsstr) :
  forallb p (rev s) = true -> forallb p s = true.
Proof.
  rewrite !forallb_forall. intros H c Hc. apply H. now apply -> in_rev.
Qed.

(** A string that [trim] empties is made of white space. *)
Lemma trim_nil (s : jsstr) : trim s = [] -> forallb isWhiteSpace s = true.
Proof.
  unfold trim, trimEnd, trimStart. intro H.
  apply (f_equal (@rev N)) in H. rewrite rev_involutive in H. cbn [rev] in H.
  apply dropWhile_nil, forallb_rev in H.
  destruct (dropWhile_suffix isWhiteSpace s) as (pre & Hs & Hpre).
  rewrite Hs, forallb_app, Hpre. exact H.
Qed.

Lemma sanitized_not_blank (customerName : jsstr) :
  forallb isWhiteSpace customerName = false ->
  truthy (substring 0 100 (trim customerName)) = true.
Proof.
  intro H. destruct (trim customerName) as [|c r] eqn:E; [|reflexivity].
  rewrite (trim_nil _ E) in H. discriminate H.
Qed.

End NameFacts.

(** C10. For a customer phone that normalises, the customer name that
    [sendCustomerConfirmation] puts into the message is the input name
    trimmed and cut to its first 100 code units.  When the name is not
    blank, the message fits the limit and the client of the provider
    can be made, the function hands over exactly one request, whose body
    is the confirmation rendered for that name, with its greeting; and
    in every case that is the only request the function can issue.  A
    name that is empty or made of white space gives [success = false]
    with the error "Customer name is required and cannot be empty." and
    no request is issued. *)
Theorem sendCustomerConfirmation_name
    (w : World) (customerPhone customerName pickupDateTime : jsstr)
    (st : Store) (n : jsstr) :
  Phone.normalizePhoneNumber (Some customerPhone) Phone.defaultCountryCode
  = Some n ->
  let sanitizedName := firstn 100 (trim customerName) in
  let message :=
    Formatter.formatCustomerConfirmationMessage w sanitizedName pickupDateTime in
  let outcome :=
    Gateway.sendCustomerConfirmation w customerPhone customerName
      pickupDateTime st in
  (forallb isWhiteSpace customerName = false ->
   length message <= Gateway.messageLimit ->
   forall c,
     Gateway.getTwilioClient w st = (Normal c, st) ->
     snd outcome
     = {| calls :=
            calls st
            ++ [TwilioCreate (trim (Gateway.whatsAppNumber c))
                  (`"whatsapp:" ++ `"+" ++ n) message];
          console := console st |})
  /\ (snd outcome = st
      \/ exists from,
           calls (snd outcome)
           = calls st ++ [TwilioCreate from (`"whatsapp:" ++ `"+" ++ n) message]
           /\ console (snd outcome) = console st)
  /\ includes message (`"Hi " ++ sanitizedName ++ `"! ") = true
  /\ length sanitizedName <= 100
  /\ (forallb isWhiteSpace customerName = true ->
      outcome
      = (Normal (failure `"Customer name is required and cannot be empty."),
         st)).
Proof.
  intros Hn sanitizedName message outcome.
  destruct (normalize_range _ _ Hn) as [Hdigits Hlen].
  assert (Hpresent : present (Some n) = true)
    by (destruct n; [simpl in Hlen; lia|reflexivity]).
  assert (Hor : orElse (Some n) [] = n)
    by (destruct n; [simpl in Hlen; lia|reflexivity]).
  assert (Hout : outcome
                 = if negb (truthy sanitizedName)
                   then (Normal (failure `"Customer name is required and cannot be empty."), st)
                   else if (Gateway.messageLimit <? length message)%nat
                        then (Normal
                                (failure
                                   (`"Confirmation message is too long ("
                                    ++ numberToString (Z.of_nat (length message))
                                    ++ `" characters). Maximum allowed is 4096 characters.")),
                              st)
                        else Gateway.sendWhatsAppMessageTwilio w (`"+" ++ n)
                               message st).
  { subst outcome. unfold Gateway.sendCustomerConfirmation.
    rewrite Hn, Hpresent, Hor. cbn [negb].
    change (substring 0 100 (trim customerName)) with sanitizedName.
    fold message.
    destruct (negb (truthy sanitizedName)); [reflexivity|].
    destruct (Gateway.messageLimit <? length message)%nat; reflexivity. }
  split; [|repeat split].
  - intros Hname Hfits c Hc. rewrite Hout.
    pose proof (sanitized_not_blank _ Hname) as Hs.
    change (substring 0 100 (trim customerName)) with sanitizedName in Hs.
    rewrite Hs. cbn [negb].
    rewrite (proj2 (Nat.ltb_ge _ _) Hfits).
    destruct (@normalized_destination (Some customerPhone) n Hn)
      as (Ht & Hto & Hd).
    rewrite (@sendWhatsAppMessageTwilio_sends w (`"+" ++ n) message st c Hto
               (formatCustomerConfirmationMessage_not_blank w _ _) Hfits Hc Hd).
    rewrite Ht. reflexivity.
  - rewrite Hout.
    destruct (negb (truthy sanitizedName)); [now left|].
    destruct (Gateway.messageLimit <? length message)%nat; [now left|].
    destruct (sendWhatsAppMessageTwilio_calls w (`"+" ++ n) message st)
      as [Hconsole [Hcalls|[from Hcalls]]].
    + left. now apply store_eq.
    + right. exists from. rewrite trim_plus_digits in Hcalls by assumption.
      now split.
  - apply confirmation_greets.
  - apply firstn_le_length.
  - intro Hblank. rewrite Hout. subst sanitizedName.
    rewrite (trim_whitespace_only _ Hblank). reflexivity.
Qed.

(** A blank name, and a name of 101 letters after a space, with a valid
    phone. *)
Lemma sendCustomerConfirmation_name_witness :
  let w := Scenario.world (fun _ => Scenario.delivered `"SM42") (fun _ => FetchRejected NonError) in
  let long := `" " ++ repeat 65%N 101 in
  Gateway.sendCustomerConfirmation w `"0788123456" `"   " [] emptyStore
  = (Normal (failure `"Customer name is required and cannot be empty."),
     emptyStore)
  /\ calls (snd (Gateway.sendCustomerConfirmation w `"0788123456" long []
                   emptyStore))
     = [TwilioCreate `"whatsapp:+14155238886" `"whatsapp:+250788123456"
          (Formatter.formatCustomerConfirmationMessage w (repeat 65%N 100) [])].
Proof.
  intros w long. split.
  - exact (proj2 (proj2 (proj2 (proj2
      (@sendCustomerConfirmation_name w `"0788123456" `"   " [] emptyStore
         `"250788123456" eq_refl)))) eq_refl).
  - pose proof (proj1
      (@sendCustomerConfirmation_name w `"0788123456" long [] emptyStore
         `"250788123456" eq_refl)) as H.
    cbv zeta in H.
    rewrite (H eq_refl
               (proj1 (Nat.leb_le
                         (length
                            (Formatter.formatCustomerConfirmationMessage w
                               (firstn 100 (trim long)) []))
                         Gateway.messageLimit) eq_refl)
               {| Gateway.client := (`"AC0123456789", `"secret");
                  Gateway.whatsAppNumber := `"whatsapp:+14155238886" |}
               eq_refl).
    reflexivity.
Defined.

(** ** The webhook sender *)

Section MoreWebhookFacts.

Import Gateway.

Variable w : World.

Lemma getWhatsAppConfig_store (st : Store) :
  snd (getWhatsAppConfig w st) = st.
Proof.
  unfold getWhatsAppConfig. run. repeat split_head; reflexivity.
Qed.

End MoreWebhookFacts.

(** X11. The webhook sender issues no request, one request or two, and
    never more.  A request is issued only when the two variables of the
    webhook are set and the destination, without separators and [+], is
    10 to 15 digits; the first goes to that destination, the second to
    the same destination behind a [+], both to the same address with the
    same token and the same body.  The console is left as it was. *)
Theorem webhook_requests (w : World) (to message : jsstr) (st : Store) :
  let st' := snd (Gateway.sendWhatsAppMessage w to message st) in
  console st' = console st
  /\ (calls st' = calls st
      \/ exists config,
           Gateway.getWhatsAppConfig w st = (Normal config, st)
           /\ testDigits 10 15 (digitsOf to) = true
           /\ let request destination :=
                GraphPost (Gateway.baseUrl config)
                  (`"Bearer " ++ Gateway.accessToken config) destination
                  message in
              calls st' = calls st ++ [request (digitsOf to)]
              \/ calls st'
                 = calls st
                   ++ [request (digitsOf to); request (`"+" ++ digitsOf to)]).
Proof.
  cbv zeta.
  pose proof (getWhatsAppConfig_store w st) as Hst.
  unfold Gateway.sendWhatsAppMessage, Gateway.post, Gateway.response_json.
  run. fold (digitsOf to).
  destruct (Gateway.getWhatsAppConfig w st) as [[config|e] st1] eqn:Hcfg;
    cbn [snd] in Hst; subst st1; [|now split; [|left]].
  destruct (testDigits 10 15 (digitsOf to)) eqn:Hd; cbn [negb];
    [|now split; [|left]].
  repeat split_head; cbn [snd calls console];
    (split; [reflexivity|right; exists config; repeat split;
             first [left; reflexivity
                   |right; rewrite <- app_assoc; reflexivity]]).
Qed.

(** ** The diagnostic of the dry-cleaner sender *)

Section EnvDebugFacts.

Import Gateway.

Lemma masked_names (e : list (jsstr * jsstr)) : map fst (masked e) = map fst e.
Proof. unfold masked. rewrite map_map. reflexivity. Qed.

Lemma present_lookup_masked (k : jsstr) (e1 e2 : list (jsstr * jsstr)) :
  masked e1 = masked e2 -> present (lookup k e1) = present (lookup k e2).
Proof.
  revert e2. induction e1 as [|[k1 v1] e1 IH]; intros [|[k2 v2] e2] H;
    try discriminate H; [reflexivity|].
  cbn in H. injection H as -> Hv H. cbn [lookup].
  destruct (str_eqb k k2); [exact Hv|now apply IH].
Qed.

Lemma map_filter_names (A : Type) (h : jsstr -> A) (g : jsstr -> bool)
    (e : list (jsstr * jsstr)) :
  map (fun kv : jsstr * jsstr => h (fst kv))
    (filter (fun kv : jsstr * jsstr => g (fst kv)) e)
  = map h (filter g (map fst e)).
Proof.
  induction e as [|kv e IH]; [reflexivity|]. cbn [map filter].
  destruct (g (fst kv)); cbn [map]; now rewrite IH.
Qed.

Lemma envDebug_masked (w1 w2 : World) :
  masked (env w1) = masked (env w2) -> envDebug w1 = envDebug w2.
Proof.
  intro H. unfold envDebug. f_equal.
  rewrite (map_filter_names
             (fun k => k ++ `"=" ++ (if present (getenv w1 k) then `"***"
                                     else `"undefined"))
             (fun k => includes (toUpperCase k) `"WHATSAPP"
                       || includes (toUpperCase k) `"DRY")).
  rewrite (map_filter_names
             (fun k => k ++ `"=" ++ (if present (getenv w2 k) then `"***"
                                     else `"undefined"))
             (fun k => includes (toUpperCase k) `"WHATSAPP"
                       || includes (toUpperCase k) `"DRY")).
  rewrite <- (masked_names (env w1)), <- (masked_names (env w2)), H.
  apply map_ext. intro k. unfold getenv.
  now rewrite (present_lookup_masked k _ _ H).
Qed.

End EnvDebugFacts.

(** X12. The failure for a missing number of the dry cleaner lists
    names of environment variables, never a value: two deployments with
    the same names in the same order, and the same variables empty,
    get the same result.  Nothing is handed to the provider. *)
Theorem dry_cleaner_not_set_hides_values
    (w1 w2 : World) (order : PickupOrderRequest) (st : Store) :
  masked (env w1) = masked (env w2) ->
  present (getenv w1 `"DRY_CLEANER_WHATSAPP_NUMBER") = false ->
  Gateway.sendPickupOrderToDryCleaner w1 order st
  = Gateway.sendPickupOrderToDryCleaner w2 order st
  /\ snd (Gateway.sendPickupOrderToDryCleaner w1 order st) = st
  /\ exists e,
       fst (Gateway.sendPickupOrderToDryCleaner w1 order st)
       = Normal (failure e).
Proof.
  intros H Hunset.
  assert (Hunset2 : present (getenv w2 `"DRY_CLEANER_WHATSAPP_NUMBER") = false).
  { unfold getenv in *. now rewrite <- (present_lookup_masked _ _ _ H). }
  unfold Gateway.sendPickupOrderToDryCleaner. cbv zeta.
  rewrite Hunset, Hunset2, (envDebug_masked _ _ H). cbn [negb].
  repeat split. now eexists.
Qed.

(** Two deployments that differ in their secrets only. *)
Lemma dry_cleaner_not_set_hides_values_witness :
  let w1 := MoreScenario.withEnv MoreScenario.silent
              (MoreScenario.withoutDryCleaner `"secret") in
  let w2 := MoreScenario.withEnv MoreScenario.silent
              (MoreScenario.withoutDryCleaner `"another secret") in
  fst (Gateway.sendPickupOrderToDryCleaner w1 Scenario.shirts emptyStore)
  = fst (Gateway.sendPickupOrderToDryCleaner w2 Scenario.shirts emptyStore)
  /\ fst (Gateway.sendPickupOrderToDryCleaner w1 Scenario.shirts emptyStore)
     = Normal (failure
                 `"DRY_CLEANER_WHATSAPP_NUMBER environment variable is not set. Found env vars: TWILIO_WHATSAPP_NUMBER=***, WHATSAPP_ACCESS_TOKEN=***, DRY_CLEANING_MODE=undefined. Please check your .env file and restart the server.").
Proof.
  intros w1 w2. split.
  - exact (f_equal fst
             (proj1 (@dry_cleaner_not_set_hides_values w1 w2 Scenario.shirts
                       emptyStore eq_refl eq_refl))).
  - vm_compute. reflexivity.
Defined.

(** ** The order handlers *)

Section MoreHandlerFacts.

Import Json Gateway Intake.

Variable w : World.

Lemma checkItems_rejects (l : list OrderItem) :
  forall i reply, checkItems i l = Some reply ->
  exists e, reply = rejected 400 None e.
Proof.
  induction l as [|item l IH]; intros i reply; [discriminate|].
  cbn [checkItems]. repeat split_head; try (intro H; injection H as <-; eauto).
  apply IH.
Qed.

Lemma wellFormedReply_accepted (orderId : jsstr) (messageId : option jsstr) :
  wellFormedReply (accepted orderId messageId).
Proof. left. repeat split. now exists orderId. Qed.

Lemma wellFormedReply_400 (e : jsstr) : wellFormedReply (rejected 400 None e).
Proof. right. left. repeat split; [now left|now exists e]. Qed.

Lemma wellFormedReply_405 (e : jsstr) : wellFormedReply (rejected 405 None e).
Proof. right. left. repeat split; [now right|now exists e]. Qed.

Lemma wellFormedReply_500 (orderId : option jsstr) (e : jsstr) :
  wellFormedReply (rejected 500 orderId e).
Proof. right. right. repeat split. now exists e. Qed.

End MoreHandlerFacts.

Create HintDb replies.

#[local] Hint Resolve wellFormedReply_accepted wellFormedReply_400
  wellFormedReply_405 wellFormedReply_500 : replies.

(** X13. Each of the four entry points answers every request, and never
    throws: the hardened serverless handler, the Express handler, the
    adapter in front of it and the simple serverless handler.  The reply
    is 200 with [success: true], an order id and no error, or 400 or
    405 with an error and no order id, or 500 with an error; a message
    id goes out with a 200 only. *)
Theorem handlers_always_answer (w : World) (req : Intake.Request) (st : Store) :
  answersWellFormed (Intake.handler w req st)
  /\ answersWellFormed (Intake.handlePickupOrder w req st)
  /\ answersWellFormed (Intake.adapter w req st)
  /\ answersWellFormed (Simple.handler w req st).
Proof.
  assert (Express : forall req, answersWellFormed (Intake.handlePickupOrder w req st)).
  { clear req. intro req. unfold answersWellFormed.
    unfold Intake.handlePickupOrder, Intake.validatePickupOrder,
      Intake.notifyPickupOrder.
    run. cbv zeta.
    repeat (split_head; cbn [fst snd]); auto with replies. }
  split; [|split; [apply Express|split; [apply Express|]]].
  - unfold answersWellFormed.
    unfold Intake.handler, Intake.validate, Intake.notify. run. cbv zeta.
    repeat (split_head; cbn [fst snd]); auto with replies.
    all: match goal with
         | H : Intake.checkItems _ _ = Some _ |- _ =>
           destruct (checkItems_rejects _ _ H) as [? ->]; auto with replies
         end.
  - unfold answersWellFormed. unfold Simple.handler. run. cbv zeta.
    repeat (split_head; cbn [fst snd]); auto with replies.
Qed.

Section TraceFacts.

Import Json Gateway Intake.

Variable w : World.

Lemma safeParse_store (schema : Zod.ZodType) (data : value) (st : Store) :
  snd (Zod.safeParse schema data st) = st.
Proof.
  unfold Zod.safeParse. run. repeat split_head; reflexivity.
Qed.

Lemma validate_store (req : Request) (st : Store) :
  snd (validate w req st) = st.
Proof.
  pose proof (fun b => safeParse_store orderSchema b st) as Hs.
  unfold validate. run. cbv zeta.
  repeat (split_head; cbn [fst snd]); try reflexivity.
  all: match goal with
       | H : Zod.safeParse _ ?b _ = (_, ?s) |- _ =>
         specialize (Hs b); rewrite H in Hs; exact Hs
       end.
Qed.

Lemma validatePickupOrder_store (req : Request) (st : Store) :
  snd (validatePickupOrder req st) = st.
Proof.
  pose proof (safeParse_store orderSchema (body req) st) as Hs.
  unfold validatePickupOrder. run.
  destruct (Zod.safeParse orderSchema (body req) st) as [[[data|errors]|e] st1];
    exact Hs.
Qed.

Lemma present_orElse (v : option jsstr) :
  present v = true -> v = Some (orElse v []).
Proof. destruct v as [[|c s]|]; try discriminate; reflexivity. Qed.

(** A dry-cleaner send that succeeded has handed a request over. *)
Lemma sendPickupOrderToDryCleaner_success_called
    (order : PickupOrderRequest) (st : Store) (r : WhatsAppResponse)
    (st1 : Store) :
  sendPickupOrderToDryCleaner w order st = (Normal r, st1) ->
  success r = true -> calls st1 = calls st -> False.
Proof.
  unfold sendPickupOrderToDryCleaner. run. cbv zeta.
  repeat split_head;
    try (intros H Hs; injection H as <- <-; discriminate Hs).
  intros H Hs Hc.
  destruct (sendWhatsAppMessageTwilio_success w _ _ st H Hs)
    as (id & request & _ & _ & Hcalls & _).
  rewrite Hcalls in Hc. symmetry in Hc. exact (no_new_call _ Hc).
Qed.

(** What both handlers do between validation and reply, up to what
    they log and what they reply on a failure. *)
Lemma notification_ordersSent
    (order : PickupOrderRequest) (st : Store)
    (out : Completion Reply * Store) (answer : Completion Reply -> Prop) :
  (forall e st1,
     sendPickupOrderToDryCleaner w order st = (Abrupt e, st1) ->
     calls (snd out) = calls st1) ->
  (forall r st1,
     sendPickupOrderToDryCleaner w order st = (Normal r, st1) ->
     (success r = false -> calls (snd out) = calls st1)
     /\ (success r = true -> present (customerPhone order) = false ->
         calls (snd out) = calls st1)
     /\ (success r = true -> present (customerPhone order) = true ->
         answer (fst out)
         /\ calls (snd out)
            = calls (snd (sendCustomerConfirmation w
                            (orElse (customerPhone order) [])
                            (customerName order)
                            (orElse (pickupDateTime order) []) st1)))) ->
  ordersSent w order st out answer.
Proof.
  intros Hthrown Hout. unfold ordersSent.
  pose proof (sendPickupOrderToDryCleaner_checked w order st) as Hfirst.
  cbv zeta in Hfirst.
  assert (Hone : forall st1,
            snd (sendPickupOrderToDryCleaner w order st) = st1 ->
            calls (snd out) = calls st1 ->
            calls (snd out) = calls st
            \/ exists from r0,
                 Phone.normalizePhoneNumber
                   (getenv w `"DRY_CLEANER_WHATSAPP_NUMBER") `"250" = Some r0
                 /\ (calls (snd out)
                     = calls st
                       ++ [TwilioCreate from (`"whatsapp:+" ++ r0)
                             (Formatter.formatPickupOrderMessage w order)]
                     \/ exists from' r' phone,
                          customerPhone order = Some phone
                          /\ Phone.normalizePhoneNumber (Some phone) `"250"
                             = Some r'
                          /\ answer (fst out)
                          /\ calls (snd out)
                             = calls st
                               ++ [TwilioCreate from (`"whatsapp:+" ++ r0)
                                     (Formatter.formatPickupOrderMessage w
                                        order);
                                   TwilioCreate from' (`"whatsapp:+" ++ r')
                                     (Formatter.formatCustomerConfirmationMessage
                                        w
                                        (substring 0 100
                                           (trim (customerName order)))
                                        (orElse (pickupDateTime order) []))])).
  { intros st1 Hst1 ->. rewrite Hst1 in Hfirst.
    destruct Hfirst as [_ [E|(from & r0 & Hr & _ & _ & E)]]; [now left|].
    right. exists from, r0. split; [exact Hr|now left]. }
  destruct (sendPickupOrderToDryCleaner w order st) as [[r|e] st1] eqn:H1;
    [|exact (Hone st1 eq_refl (Hthrown e st1 eq_refl))].
  cbn [snd] in Hfirst. destruct Hfirst as [_ Hcalls1].
  destruct (Hout r st1 eq_refl) as (Hfail & Hnophone & Hphone).
  destruct (success r) eqn:Hs; [|exact (Hone st1 eq_refl (Hfail eq_refl))].
  destruct (present (customerPhone order)) eqn:Hp;
    [|exact (Hone st1 eq_refl (Hnophone eq_refl eq_refl))].
  destruct (Hphone eq_refl eq_refl) as [Hreply Hcalls].
  destruct Hcalls1 as [E|(from & r0 & Hr & _ & _ & E)];
    [destruct (sendPickupOrderToDryCleaner_success_called _ _ H1 Hs E)|].
  pose proof (sendCustomerConfirmation_checked w
                (orElse (customerPhone order) []) (customerName order)
                (orElse (pickupDateTime order) []) st1) as Hsecond.
  cbv zeta in Hsecond. destruct Hsecond as [_ Hcalls2].
  right. exists from, r0. split; [exact Hr|].
  destruct Hcalls2 as [E2|(from' & r' & Hr' & _ & _ & _ & E2)].
  - left. now rewrite Hcalls, E2.
  - right. exists from', r', (orElse (customerPhone order) []).
    split; [now apply present_orElse|]. split; [exact Hr'|].
    split; [exact Hreply|]. rewrite Hcalls, E2, E, <- app_assoc. reflexivity.
Qed.

Lemma notify_ordersSent (order : PickupOrderRequest) (st : Store) :
  ordersSent w order st (notify w order st) (acceptance w).
Proof.
  apply notification_ordersSent.
  - intros e st1 H1. unfold notify. run. now rewrite H1.
  - intros r st1 H1. unfold notify. run. rewrite H1.
    split; [|split].
    + intros ->. reflexivity.
    + intros -> ->. reflexivity.
    + intros -> ->. cbn [negb].
      split; [exists (messageId r)|]; repeat split_head; reflexivity.
Qed.

(** In the Express handler the confirmation may leave by its
    [TypeError]. *)
Lemma notifyPickupOrder_ordersSent (order : PickupOrderRequest) (st : Store) :
  ordersSent w order st (notifyPickupOrder w order st)
    (fun c => acceptance w c \/ c = Abrupt (ErrorObj (TypeError_message w))).
Proof.
  apply notification_ordersSent.
  - intros e st1 H1. unfold notifyPickupOrder. run. now rewrite H1.
  - intros r st1 H1. unfold notifyPickupOrder. run. rewrite H1.
    split; [|split].
    + intros ->. reflexivity.
    + intros -> ->. reflexivity.
    + intros -> ->. cbn [negb].
      destruct (sendCustomerConfirmation_completes w
                  (orElse (customerPhone order) []) (customerName order)
                  (orElse (pickupDateTime order) []) st1)
        as [(r2 & st2 & H2)|(st2 & H2)]; rewrite H2.
      * split; [left; now exists (messageId r)|reflexivity].
      * split; [now right|reflexivity].
Qed.

End TraceFacts.

(** X14. After validation, a handler hands to the provider nothing, or
    the order for the dry cleaner, or the order and then the
    confirmation for the customer, and never anything else.  The order
    goes to the normalised number of the environment; the confirmation
    goes to the normalised phone of the order, is made for the trimmed
    name cut to 100 code units, and leaves only after the send to the
    dry cleaner has succeeded.  After both, the serverless handler
    replies with the acceptance; the Express handler replies with the
    acceptance, or with the 500 of its [catch] clause when the
    confirmation was left by the [TypeError] of the gateway.  A request
    that validation rejects reaches no provider. *)
Theorem handlers_provider_calls (w : World) (req : Intake.Request) (st : Store) :
  (calls (snd (Intake.handler w req st)) = calls st
   \/ exists order,
        Intake.validate w req st = (Normal (inr order), st)
        /\ ordersSent w order st (Intake.handler w req st) (acceptance w))
  /\ (calls (snd (Intake.handlePickupOrder w req st)) = calls st
      \/ exists order,
           Intake.validatePickupOrder req st = (Normal (inr order), st)
           /\ ordersSent w order st (Intake.handlePickupOrder w req st)
                (acceptanceOrFault w)).
Proof.
  split.
  - pose proof (validate_store w req st) as Hst.
    unfold Intake.handler. run.
    destruct (Intake.validate w req st) as [[[reply|order]|e] st1];
      cbn [snd] in Hst; subst st1; [now left| |now left].
    right. exists order. split; [reflexivity|].
    pose proof (notify_ordersSent w order st) as H.
    destruct (Intake.notify w order st) as [[reply|e] st1]; [exact H|].
    destruct H as [H|(from & r & Hr & [H|(? & ? & ? & _ & _ & [? H] & _)])];
      [now left| |discriminate H].
    right. exists from, r. split; [exact Hr|now left].
  - pose proof (validatePickupOrder_store req st) as Hst.
    unfold Intake.handlePickupOrder. run.
    destruct (Intake.validatePickupOrder req st) as [[[reply|order]|e] st1];
      cbn [snd] in Hst; subst st1; [now left| |now left].
    right. exists order. split; [reflexivity|].
    pose proof (notifyPickupOrder_ordersSent w order st) as H.
    destruct (Intake.notifyPickupOrder w order st) as [[reply|e] st1].
    + destruct H as [H|(from & r & Hr & [H|(f & r' & p & Hp & Hr' & Ha & H)])];
        [now left|right; exists from, r; split; [exact Hr|now left]|].
      right. exists from, r. split; [exact Hr|]. right. exists f, r', p.
      repeat split; try assumption.
      destruct Ha as [Ha|Ha]; [now left|discriminate Ha].
    + destruct H as [H|(from & r & Hr & [H|(f & r' & p & Hp & Hr' & Ha & H)])];
        [now left|right; exists from, r; split; [exact Hr|now left]|].
      right. exists from, r. split; [exact Hr|]. right. exists f, r', p.
      repeat split; try assumption.
      destruct Ha as [[? Ha]|Ha]; [discriminate Ha|].
      injection Ha as ->. now right.
Qed.

Section ClientErrorFacts.

Import Json Gateway Intake.

Variable w : World.

Lemma clientError_500 (orderId : option jsstr) (e : jsstr) :
  clientError (rejected 500 orderId e) = false.
Proof. reflexivity. Qed.

Lemma clientError_accepted (orderId : jsstr) (messageId : option jsstr) :
  clientError (accepted orderId messageId) = false.
Proof. reflexivity. Qed.

Lemma handler_client_error (req : Request) (st : Store) (reply : Reply)
    (st' : Store) :
  handler w req st = (Normal reply, st') ->
  clientError reply = true -> st' = st.
Proof.
  pose proof (validate_store w req st) as Hst.
  unfold handler. run.
  destruct (validate w req st) as [[[r|order]|e] st1];
    cbn [snd] in Hst; subst st1.
  - intros H _. now injection H as _ <-.
  - unfold notify. run.
    repeat split_head; intros H Hc; injection H as <- _;
      discriminate Hc.
  - intros H Hc. injection H as <- _. discriminate Hc.
Qed.

Lemma handlePickupOrder_client_error (req : Request) (st : Store)
    (reply : Reply) (st' : Store) :
  handlePickupOrder w req st = (Normal reply, st') ->
  clientError reply = true -> st' = st.
Proof.
  pose proof (validatePickupOrder_store req st) as Hst.
  unfold handlePickupOrder. run.
  destruct (validatePickupOrder req st) as [[[r|order]|e] st1];
    cbn [snd] in Hst; subst st1.
  - intros H _. now injection H as _ <-.
  - unfold notifyPickupOrder. run.
    repeat split_head; intros H Hc; injection H as <- _;
      discriminate Hc.
  - intros H Hc. injection H as <- _. discriminate Hc.
Qed.

Lemma simple_handler_client_error (req : Request) (st : Store)
    (reply : Reply) (st' : Store) :
  Simple.handler w req st = (Normal reply, st') ->
  clientError reply = true -> st' = st.
Proof.
  pose proof (fun b => safeParse_store orderSchema b st) as Hs.
  unfold Simple.handler. run. cbv zeta.
  repeat (split_head; cbn [fst snd]); intros H Hc; injection H as <- <-;
    try discriminate Hc; try reflexivity.
  all: match goal with
       | H : Zod.safeParse _ ?b _ = (_, ?s) |- _ =>
         specialize (Hs b); rewrite H in Hs; exact Hs
       end.
Qed.

End ClientErrorFacts.

(** X15. A reply of 400 or 405, from any of the four entry points,
    means that the request has left no trace: no request to a provider
    and no line on the console.  What is logged or sent belongs to a
    reply of 200 or 500. *)
Theorem client_error_leaves_no_trace
    (e : EntryPoint) (w : World) (req : Intake.Request) (st : Store)
    (reply : Intake.Reply) (st' : Store) :
  entryPoint e w req st = (Normal reply, st') ->
  clientError reply = true ->
  st' = st.
Proof.
  destruct e; cbn [entryPoint].
  - apply handler_client_error.
  - apply handlePickupOrder_client_error.
  - apply handlePickupOrder_client_error.
  - apply simple_handler_client_error.
Qed.

(** An order without items. *)
Lemma client_error_leaves_no_trace_witness :
  let st := {| calls := []; console := [] |} in
  let req :=
    Scenario.postRequest
      (Json.Obj [ (`"customerName", Json.Str `"Amahoro");
                  (`"pickupAddress", Json.Str `"KG 11 Ave");
                  (`"items", Json.Arr []) ]) in
  snd (entryPoint Hardened Scenario.flaky req st) = st.
Proof.
  intros st req.
  exact (@client_error_leaves_no_trace Hardened Scenario.flaky req st
           (Intake.rejected 400 None
              `"Validation failed: items: At least one item is required")
           (snd (entryPoint Hardened Scenario.flaky req st))
           eq_refl eq_refl).
Defined.

Section SanitiseFacts.

Import Json Gateway Intake.

Variable w : World.

Lemma checkItems_none (l : list OrderItem) :
  forall i, checkItems i l = None ->
  Forall (fun item => trim (name item) <> [] /\ (0 < quantity item)%Z) l.
Proof.
  induction l as [|item l IH]; intros i; [constructor|].
  cbn [checkItems].
  destruct (negb (truthy (name item)) || negb (truthy (trim (name item))))
    eqn:Hname; [discriminate|].
  destruct (negb (isFiniteNumber (quantity item)) || (quantity item <=? 0)%Z)
    eqn:Hq; [discriminate|].
  intro H. constructor; [|exact (IH _ H)].
  apply orb_false_iff in Hq. destruct Hq as [_ Hq].
  apply orb_false_iff in Hname. destruct Hname as [_ Hname].
  apply negb_false_iff in Hname. apply Z.leb_gt in Hq.
  split; [|exact Hq]. intro E. rewrite E in Hname. discriminate Hname.
Qed.

Lemma truthy_not_nil (s : jsstr) : negb (truthy s) = false -> s <> [].
Proof. destruct s; [discriminate|]. intros _. discriminate. Qed.

End SanitiseFacts.

(** X16. An order that the hardened handler lets through validation is
    sanitised: the customer name and the pickup address are trimmed and
    not empty, there is at least one item, every item has a name that is
    not blank and a quantity above zero, and notes, when there are any,
    are trimmed. *)
Theorem validated_order_is_sanitised
    (w : World) (req : Intake.Request) (st : Store)
    (order : PickupOrderRequest) (st' : Store) :
  Intake.validate w req st = (Normal (inr order), st') ->
  (customerName order <> []
   /\ trim (customerName order) = customerName order)
  /\ (pickupAddress order <> []
      /\ trim (pickupAddress order) = pickupAddress order)
  /\ items order <> []
  /\ Forall (fun item => trim (name item) <> [] /\ (0 < quantity item)%Z)
       (items order)
  /\ match customerNotes order with
     | Some notes => trim notes = notes
     | None => True
     end.
Proof.
  match goal with |- _ -> ?C => set (sanitised := C) end.
  unfold Intake.validate. run. cbv zeta.
  repeat (split_head; cbn [fst snd]); intro H; try discriminate H.
  all: injection H as H _; subst sanitised; subst order.
  all: cbn [customerName pickupAddress items customerNotes] in *.
  all: repeat match goal with
              | H : negb (truthy _) = false |- _ =>
                apply truthy_not_nil in H
              | H : Intake.checkItems _ _ = None |- _ =>
                apply checkItems_none in H
              | H : (_ =? 0)%nat = false |- _ =>
                apply Nat.eqb_neq in H
              end.
  all: repeat split; try assumption; try apply trim_trim.
  all: match goal with
       | H : Forall _ _ |- Forall _ _ => exact H
       | H : _ <> 0 |- _ <> [] =>
         intro E; apply H; exact (f_equal (@List.length OrderItem) E)
       end.
Qed.

(** The sample order, with a quantity sent as text. *)
Lemma validated_order_is_sanitised_witness :
  Forall (fun item => trim (name item) <> [] /\ (0 < quantity item)%Z)
    (items (Scenario.shirtsOrder 3)).
Proof.
  exact (proj1 (proj2 (proj2 (proj2
           (@validated_order_is_sanitised Scenario.flaky
              (Scenario.postRequest (Scenario.shirtsBody (Json.Str `" 3 shirts")))
              emptyStore (Scenario.shirtsOrder 3) emptyStore eq_refl))))).
Defined.

(** ** Order identifiers *)

Section OrderIdFacts.

Lemma toUpperCaseChar_base36 (c : N) :
  isBase36 c = true ->
  isUpperBase36 (toUpperCaseChar c) = true
  /\ lowerChar (toUpperCaseChar c) = c.
Proof.
  unfold isBase36, isUpperBase36, lowerChar, toUpperCaseChar, isLowerCase,
    isDigit.
  intro H.
  destruct ((97 <=? c) && (c <=? 122))%N eqn:E.
  - apply andb_true_iff in E. destruct E as [Hlo Hhi].
    apply N.leb_le in Hlo, Hhi.
    assert (A : ((65 <=? c - 32) && (c - 32 <=? 90))%N = true).
    { apply andb_true_iff. split; apply N.leb_le; lia. }
    rewrite A. split; [apply orb_true_r|lia].
  - rewrite orb_false_r in H. rewrite H.
    apply andb_true_iff in H. destruct H as [Hlo Hhi].
    apply N.leb_le in Hlo, Hhi.
    assert (A : ((65 <=? c) && (c <=? 90))%N = false).
    { apply andb_false_iff. left. apply N.leb_gt. lia. }
    rewrite A. now split.
Qed.

Lemma toUpperCase_base36 (s : jsstr) :
  forallb isBase36 s = true ->
  forallb isUpperBase36 (toUpperCase s) = true
  /\ map lowerChar (toUpperCase s) = s.
Proof.
  unfold toUpperCase. induction s as [|c s IH]; [now split|].
  cbn [forallb map]. intro H. apply andb_true_iff in H. destruct H as [Hc H].
  destruct (toUpperCaseChar_base36 _ Hc) as [-> ->].
  destruct (IH H) as [-> ->]. now split.
Qed.

Lemma forallb_firstn (p : N -> bool) (n : nat) (s : jsstr) :
  forallb p s = true -> forallb p (firstn n s) = true.
Proof.
  revert n. induction s as [|c s IH]; intros [|n]; try reflexivity.
  cbn [forallb firstn]. intro H. apply andb_true_iff in H.
  destruct H as [-> H]. now apply IH.
Qed.

Lemma toUpperCase_app (a b : jsstr) :
  toUpperCase (a ++ b) = toUpperCase a ++ toUpperCase b.
Proof. apply map_app. Qed.

End OrderIdFacts.

(** X17. When the clock reading and the random number are written in
    base 36, as [toString(36)] writes them, an order identifier is
    [ORD-], the clock reading, a dash, and the first six digits of the
    random number after its [0.], both put into upper case: the two
    parts are digits and capital letters only, and in lower case they
    are the clock reading and those six digits again. *)
Theorem generateOrderId_format (w : World) (fraction : jsstr) :
  forallb isBase36 (Date_now_toString36 w) = true ->
  Math_random_toString36 w = `"0." ++ fraction ->
  forallb isBase36 fraction = true ->
  exists clock random,
    Intake.generateOrderId w = `"ORD-" ++ clock ++ `"-" ++ random
    /\ forallb isUpperBase36 clock = true
    /\ forallb isUpperBase36 random = true
    /\ map lowerChar clock = Date_now_toString36 w
    /\ map lowerChar random = firstn 6 fraction.
Proof.
  intros Hclock Hrandom Hfraction.
  pose proof (forallb_firstn isBase36 6 fraction Hfraction) as Hsix.
  destruct (toUpperCase_base36 _ Hclock) as [Hc1 Hc2].
  destruct (toUpperCase_base36 _ Hsix) as [Hr1 Hr2].
  exists (toUpperCase (Date_now_toString36 w)),
         (toUpperCase (firstn 6 fraction)).
  split; [|now repeat split].
  unfold Intake.generateOrderId. cbv zeta. rewrite Hrandom.
  rewrite !toUpperCase_app. reflexivity.
Qed.

(** The clock and the random number of the sample world. *)
Lemma generateOrderId_format_witness :
  Intake.generateOrderId Scenario.flaky = `"ORD-LVMZR4K9-K3J9X2"
  /\ exists clock random,
       Intake.generateOrderId Scenario.flaky
       = `"ORD-" ++ clock ++ `"-" ++ random
       /\ forallb isUpperBase36 clock = true
       /\ forallb isUpperBase36 random = true
       /\ map lowerChar clock = `"lvmzr4k9"
       /\ map lowerChar random = `"k3j9x2".
Proof.
  split; [reflexivity|].
  exact (@generateOrderId_format Scenario.flaky `"k3j9x2p7q"
           eq_refl eq_refl eq_refl).
Defined.

(** ** Requests without a body *)

Section EmptyBodyFacts.

Import Json Intake.

Lemma safeParse_empty_object (st : Store) :
  Zod.safeParse orderSchema (Obj []) st
  = (Normal
       (Zod.SafeParseError
          [Zod.issue [Zod.Key `"customerName"] `"Required";
           Zod.issue [Zod.Key `"pickupAddress"] `"Required";
           Zod.issue [Zod.Key `"items"] `"Required"]), st).
Proof. reflexivity. Qed.

Lemma str_eqb_refl (s : jsstr) : str_eqb s s = true.
Proof. unfold str_eqb. now destruct (list_eq_dec N.eq_dec s s). Qed.

End EmptyBodyFacts.

(** X18. A POST whose body is missing, or is [null], [false], [0] or
    the empty string, is treated as the empty object by the two
    serverless handlers and by the adapter of the Express handler: the
    reply is 400 and names the three required members in the order of
    the schema.  Nothing is sent and nothing is logged. *)
Theorem empty_body_rejected
    (e : EntryPoint) (w : World) (req : Intake.Request) (st : Store) :
  e <> Express ->
  Intake.method req = `"POST" ->
  Json.falsy (Intake.body req) = true ->
  entryPoint e w req st
  = (Normal
       (Intake.rejected 400 None
          ((match e with
            | Hardened => `"Validation failed: "
            | _ => []
            end)
           ++ `"customerName: Required, pickupAddress: Required, items: Required")),
     st).
Proof.
  intros He Hmethod Hfalsy. destruct e; [| now contradiction He | |];
    cbn [entryPoint].
  - unfold Intake.handler, Intake.validate. run.
    rewrite Hmethod, Hfalsy, str_eqb_refl. cbn [negb]. cbv zeta.
    rewrite safeParse_empty_object. vm_compute. reflexivity.
  - unfold Intake.adapter, Intake.handlePickupOrder,
      Intake.validatePickupOrder. run.
    rewrite Hmethod, Hfalsy, str_eqb_refl. cbn [andb Intake.body].
    rewrite safeParse_empty_object. vm_compute. reflexivity.
  - unfold Simple.handler. run.
    rewrite Hmethod, Hfalsy, str_eqb_refl. cbn [negb]. cbv zeta.
    rewrite safeParse_empty_object. vm_compute. reflexivity.
Qed.

(** A POST with the body [null] to the adapter. *)
Lemma empty_body_rejected_witness :
  fst (Intake.adapter Scenario.flaky
         {| Intake.method := `"POST"; Intake.body := Json.Null |} emptyStore)
  = Normal
      (Intake.rejected 400 None
         `"customerName: Required, pickupAddress: Required, items: Required").
Proof.
  assert (He : Adapter <> Express) by discriminate.
  exact (f_equal fst
           (@empty_body_rejected Adapter Scenario.flaky
              {| Intake.method := `"POST"; Intake.body := Json.Null |}
              emptyStore He eq_refl eq_refl)).
Defined.

Section AcceptedFacts.

Import Json Gateway Intake.

Variable w : World.




End AcceptedFacts.



(** ** The simple serverless handler and the adapter *)

(** X20. On a POST whose body is not a string, the simple serverless
    handler and the adapter of the Express handler do the same: the same
    requests to the provider, the same status, and the same reply,
    except for the text of a 500 that answers an exception, which the
    Express handler prefixes with "Internal server error: ". *)
Theorem serverless_agrees_with_adapter
    (w : World) (req : Intake.Request) (st : Store) :
  Intake.method req = `"POST" ->
  (forall s, Intake.body req <> Json.Str s) ->
  snd (Simple.handler w req st) = snd (Intake.adapter w req st)
  /\ exists simple express,
       fst (Simple.handler w req st) = Normal simple
       /\ fst (Intake.adapter w req st) = Normal express
       /\ Intake.statusCode simple = Intake.statusCode express
       /\ (simple = express
           \/ exists thrown,
                simple
                = Intake.rejected 500 None
                    match thrown with
                    | ErrorObj ((_ :: _) as m) => m
                    | _ => `"An unexpected server error occurred"
                    end
                /\ express
                   = Intake.rejected 500 None
                       (`"Internal server error: "
                        ++ match thrown with
                           | ErrorObj m => m
                           | BareError => `"undefined"
                           | NonError => `"Unknown error occurred"
                           end)).
Proof.
  intros Hmethod Hbody.
  unfold Intake.adapter, Intake.handlePickupOrder, Intake.validatePickupOrder,
    Intake.notifyPickupOrder, Simple.handler.
  run. cbv zeta.
  rewrite Hmethod, str_eqb_refl. cbn [negb]. rewrite andb_true_r.
  destruct (Json.falsy (Intake.body req)) eqn:Hf; cbn [Intake.body].
  - repeat (split_head; cbn [fst snd]);
      (split; [reflexivity|]); eexists; eexists;
      (split; [reflexivity|split; [reflexivity|split; [reflexivity|]]]);
      first [left; reflexivity
            |right; exists NonError; split; reflexivity
            |right; exists BareError; split; reflexivity
            |right; exists (ErrorObj []); split; reflexivity
            |right;
             match goal with
             | c : N, m : list N |- _ =>
               exists (ErrorObj (c :: m)); split; reflexivity
             end].
  - destruct (Intake.body req) eqn:Hb;
      try (now destruct (Hbody _ eq_refl)).
    all: repeat (split_head; cbn [fst snd]);
      (split; [reflexivity|]); eexists; eexists;
      (split; [reflexivity|split; [reflexivity|split; [reflexivity|]]]);
      first [left; reflexivity
            |right; exists NonError; split; reflexivity
            |right; exists BareError; split; reflexivity
            |right; exists (ErrorObj []); split; reflexivity
            |right;
             match goal with
             | c : N, m : list N |- _ =>
               exists (ErrorObj (c :: m)); split; reflexivity
             end].
Qed.

(** The sample order, as an object. *)
Lemma serverless_agrees_with_adapter_witness :
  let req := Scenario.postRequest (Scenario.shirtsBody (Json.Num 2)) in
  snd (Simple.handler Scenario.flaky req emptyStore)
  = snd (Intake.adapter Scenario.flaky req emptyStore).
Proof.
  intro req.
  assert (Hbody : forall s, Intake.body req <> Json.Str s) by discriminate.
  exact (proj1 (@serverless_agrees_with_adapter Scenario.flaky req emptyStore
                  eq_refl Hbody)).
Defined.

(** ** Quantities sent as text *)

Section QuantityFacts.

Import Json Intake.

Lemma trimStart_whitespace (ws s : jsstr) :
  forallb isWhiteSpace ws = true -> trimStart (ws ++ s) = trimStart s.
Proof.
  unfold trimStart. induction ws as [|c ws IH]; [reflexivity|].
  cbn [forallb app dropWhile]. intro H. apply andb_true_iff in H.
  destruct H as [-> H]. exact (IH H).
Qed.

Lemma digit_cases (c : N) :
  isDigit c = true ->
  (c = 48 \/ c = 49 \/ c = 50 \/ c = 51 \/ c = 52 \/ c = 53 \/ c = 54
   \/ c = 55 \/ c = 56 \/ c = 57)%N.
Proof.
  unfold isDigit. intro H. apply andb_true_iff in H. destruct H as [Hlo Hhi].
  apply N.leb_le in Hlo, Hhi. lia.
Qed.

Lemma takeDigits_prefix (ds rest : jsstr) :
  forallb isDigit ds = true ->
  match rest with c :: _ => isDigit c = false | [] => True end ->
  takeDigits (ds ++ rest) = ds.
Proof.
  intros Hd Hrest. induction ds as [|c ds IH].
  - destruct rest as [|c rest]; [reflexivity|]. cbn [app takeDigits].
    now rewrite Hrest.
  - cbn [forallb] in Hd. apply andb_true_iff in Hd. destruct Hd as [Hc Hd].
    cbn [app takeDigits]. now rewrite Hc, (IH Hd).
Qed.

(** What [parseInt] reads of a string that starts with digits, after
    white space. *)
Lemma parseInt10_digits (ws ds rest : jsstr) :
  forallb isWhiteSpace ws = true ->
  forallb isDigit ds = true -> ds <> [] ->
  match rest with c :: _ => isDigit c = false | [] => True end ->
  parseInt10 (ws ++ ds ++ rest) = Some (toNumber (digitsValue ds)).
Proof.
  intros Hws Hd Hne Hrest. unfold parseInt10. cbv zeta.
  rewrite (trimStart_whitespace _ _ Hws).
  destruct ds as [|c ds]; [now contradiction Hne|].
  pose proof Hd as Hd'. cbn [forallb] in Hd'. apply andb_true_iff in Hd'.
  destruct Hd' as [Hc _].
  rewrite trimStart_id by exact (digit_not_whitespace _ Hc).
  cbn [app].
  destruct (digit_cases _ Hc)
    as [->|[->|[->|[->|[->|[->|[->|[->|[->| ->]]]]]]]]];
    cbv beta iota;
    match goal with
    | |- context [takeDigits (?d :: ds ++ rest)] =>
      change (d :: ds ++ rest) with ((d :: ds) ++ rest)
    end;
    now rewrite (takeDigits_prefix _ _ Hd Hrest).
Qed.

Lemma digitsValue_nonneg (ds : jsstr) :
  forallb isDigit ds = true -> (0 <= digitsValue ds)%Z.
Proof.
  unfold digitsValue. generalize (Z.le_refl 0).
  generalize 0%Z at 2 4. revert ds.
  induction ds as [|c ds IH]; intros acc Hacc Hd; [exact Hacc|].
  cbn [forallb] in Hd. apply andb_true_iff in Hd. destruct Hd as [Hc Hd].
  cbn [fold_left]. apply IH; [|exact Hd].
  unfold isDigit in Hc. apply andb_true_iff in Hc. destruct Hc as [Hlo _].
  apply N.leb_le in Hlo. lia.
Qed.

(** Digits within the integers that a number holds exactly are read as
    their value. *)
Lemma parseInt10_safe (ws ds rest : jsstr) :
  forallb isWhiteSpace ws = true ->
  forallb isDigit ds = true -> ds <> [] ->
  (digitsValue ds <= 9007199254740991)%Z ->
  match rest with c :: _ => isDigit c = false | [] => True end ->
  parseInt10 (ws ++ ds ++ rest) = Some (digitsValue ds).
Proof.
  intros Hws Hd Hne Hsafe Hrest.
  rewrite (@parseInt10_digits ws ds rest Hws Hd Hne Hrest).
  rewrite toNumber_small; [reflexivity|].
  pose proof (@digitsValue_nonneg ds Hd).
  change (2 ^ 53)%Z with 9007199254740992%Z. lia.
Qed.

End QuantityFacts.

(** X21. A quantity sent as text is read leniently: white space before
    the digits and anything after them that does not begin with a digit
    are ignored, and the quantity is the value of the digits, for digits
    within the integers that a number holds exactly.  A text whose
    digits are worth nothing is refused by an exception that carries
    the message of the schema. *)
Theorem quantityOfString_lenient (ws ds rest : jsstr) :
  forallb isWhiteSpace ws = true ->
  forallb isDigit ds = true ->
  ds <> [] ->
  (Intake.digitsValue ds <= 9007199254740991)%Z ->
  match rest with c :: _ => isDigit c = false | [] => True end ->
  Intake.quantityOfString (ws ++ ds ++ rest)
  = if (Intake.digitsValue ds <=? 0)%Z
    then Abrupt (ErrorObj Intake.quantityErrorText)
    else Normal (Json.Num (inject_Z (Intake.digitsValue ds))).
Proof.
  intros Hws Hd Hne Hsafe Hrest. unfold Intake.quantityOfString.
  now rewrite (@parseInt10_safe ws ds rest Hws Hd Hne Hsafe Hrest).
Qed.

(** Three shirts, as a customer may type it. *)
Lemma quantityOfString_lenient_witness :
  Intake.quantityOfString `" 3 shirts" = Normal (Json.Num 3).
Proof.
  assert (Hne : `"3" <> []) by discriminate.
  assert (Hsafe : (Intake.digitsValue `"3" <= 9007199254740991)%Z)
    by (vm_compute; discriminate).
  exact (@quantityOfString_lenient `" " `"3" `" shirts" eq_refl eq_refl Hne
           Hsafe eq_refl).
Defined.

(** ** The allow-list of origins *)

Section OriginFacts.

Lemma split_no_separator (sep : N) (s : jsstr) :
  Forall (fun piece => ~ In sep piece) (Server.split sep s).
Proof.
  induction s as [|c s IH]; cbn [Server.split].
  - constructor; [intros []|constructor].
  - destruct (c =? sep)%N eqn:E.
    + constructor; [intros []|exact IH].
    + destruct (Server.split sep s) as [|piece pieces];
        [constructor; [|constructor]|].
      * intros [->|[]]. now rewrite N.eqb_refl in E.
      * inversion IH as [|? ? Hpiece Hpieces]; subst.
        constructor; [|exact Hpieces].
        intros [->|H]; [now rewrite N.eqb_refl in E|now apply Hpiece].
Qed.

Lemma dropWhile_In (p : N -> bool) (s : jsstr) (c : N) :
  In c (dropWhile p s) -> In c s.
Proof.
  induction s as [|x s IH]; [intros []|]. cbn [dropWhile].
  destruct (p x); [intro H; right; now apply IH|exact (fun H => H)].
Qed.

Lemma trim_In (s : jsstr) (c : N) : In c (trim s) -> In c s.
Proof.
  unfold trim, trimEnd, trimStart. intro H.
  apply in_rev, dropWhile_In in H. apply in_rev in H.
  now apply dropWhile_In in H.
Qed.

Lemma str_eqb_eq (a b : jsstr) : str_eqb a b = true -> a = b.
Proof.
  unfold str_eqb. now destruct (list_eq_dec N.eq_dec a b).
Qed.

(** The entries of the allow-list. *)
Lemma corsOrigins_entries (w : World) (o : jsstr) :
  In o (Server.corsOrigins w) ->
  o <> [] /\ trim o = o /\ ~ In 44%N o.
Proof.
  unfold Server.corsOrigins. intro H.
  apply filter_In in H. destruct H as [H Ho].
  apply in_map_iff in H. destruct H as (piece & <- & Hpiece).
  split; [|split].
  - intro E. rewrite E in Ho. discriminate Ho.
  - apply trim_trim.
  - intro Hc. apply trim_In in Hc.
    pose proof (split_no_separator 44
                  match getenv w `"ALLOWED_ORIGINS" with
                  | Some s => s
                  | None => Server.defaultOrigins
                  end) as Hall.
    rewrite Forall_forall in Hall. exact (Hall _ Hpiece Hc).
Qed.

End OriginFacts.

(** X22. Whatever [ALLOWED_ORIGINS] is set to, every entry of the
    allow-list is not empty, has no white space around it and holds no
    comma.  A request without an origin, or with an empty one, is always
    answered; a request that names its origin is answered exactly when
    the origin is, code unit for code unit, an entry of the
    allow-list. *)
Theorem cors_allows_listed_origins (w : World) :
  Forall (fun entry => entry <> [] /\ trim entry = entry /\ ~ In 44%N entry)
    (Server.corsOrigins w)
  /\ Server.origin w None = true
  /\ Server.origin w (Some []) = true
  /\ forall o,
       o <> [] ->
       (Server.origin w (Some o) = true <-> In o (Server.corsOrigins w)).
Proof.
  split; [|split; [reflexivity|split; [reflexivity|]]].
  - apply Forall_forall. intros entry. apply corsOrigins_entries.
  - intros o Hne. unfold Server.origin.
    destruct o as [|c o]; [now contradiction Hne|].
    cbn [present truthy negb orElse].
    destruct (existsb (str_eqb (c :: o)) (Server.corsOrigins w)) eqn:E.
    + split; [intros _|reflexivity].
      apply existsb_exists in E. destruct E as (x & Hx & Heq).
      apply str_eqb_eq in Heq. now subst x.
    + split; [discriminate|]. intro Hin.
      assert (Ex : existsb (str_eqb (c :: o)) (Server.corsOrigins w) = true).
      { apply existsb_exists. exists (c :: o). split; [exact Hin|].
        apply str_eqb_refl. }
      rewrite Ex in E. discriminate E.
Qed.

(** ** Notes in the order message *)

(** X23. The formatter trims the notes itself: an order whose notes
    have been trimmed beforehand, as the hardened handler does, gives
    the same message; and notes that are blank give the message of an
    order without notes. *)
Theorem notes_are_trimmed
    (w : World) (order : PickupOrderRequest) (notes : jsstr) :
  customerNotes order = Some notes ->
  Formatter.formatPickupOrderMessage w (withNotes order (Some (trim notes)))
  = Formatter.formatPickupOrderMessage w order
  /\ (truthy (trim notes) = false ->
      Formatter.formatPickupOrderMessage w order
      = Formatter.formatPickupOrderMessage w (withNotes order None)).
Proof.
  intro Hnotes.
  assert (Hblock : Formatter.notesBlock (withNotes order (Some (trim notes)))
                   = Formatter.notesBlock order).
  { unfold Formatter.notesBlock. cbn [withNotes customerNotes].
    rewrite Hnotes, trim_trim.
    destruct (truthy (trim notes)) eqn:Ht.
    - now rewrite (truthy_trim _ Ht).
    - now rewrite !andb_false_r. }
  split.
  - unfold Formatter.formatPickupOrderMessage. cbv zeta.
    rewrite Hblock. reflexivity.
  - intro Ht. unfold Formatter.formatPickupOrderMessage. cbv zeta.
    unfold Formatter.notesBlock at 1 2. cbn [withNotes customerNotes].
    rewrite Hnotes, Ht, andb_false_r. reflexivity.
Qed.

(** The sample order, whose notes have a space on either side. *)
Lemma notes_are_trimmed_witness :
  Formatter.formatPickupOrderMessage Scenario.flaky
    (withNotes Scenario.shirts (Some `"no starch"))
  = Formatter.formatPickupOrderMessage Scenario.flaky Scenario.shirts.
Proof.
  exact (proj1 (@notes_are_trimmed Scenario.flaky Scenario.shirts
                  `" no starch " eq_refl)).
Defined.
